(** * S3GW-UI: the object listing page and its helpers

    A shallow embedding of the client-side listing-and-mutation engine of the
    S3 gateway console:

    - [functions.helper.ts]: [toBytes] (with the regular expression it runs),
      [format], [isEqualOrUndefined];
    - [object-datatable-page.component.ts] (the versioned page under
      [frontend/], and the older page kept next to it): [loadData],
      [onPrefixSelect], [onActionMenu], the table actions,
      [onExpandedRowsChange], the buttons of the expanded-row form,
      [doUpload], [doDelete];
    - [admin-ops-bucket.service.ts]: [update] of the bucket service, and the
      datatable component that follows it in the file (selection, pages,
      sorting, stored state);
    - the collaborators the page talks to (bucket service, RxJS helper,
      dialogs), which are not part of the sources at hand and are described
      where they are introduced.

    Conventions.  A JS object used as a dictionary is a [gmap]; an optional
    property is an [option]; an RxJS observable is the finite trace it
    delivers to its subscriber; a method with side effects returns the new
    component state together with the list of effects it performed, in
    order.  A character of a string stands for one code unit of the string
    at run time.  Numbers are exact rationals and integers.  In [toBytes]
    the rounding of IEEE-754 doubles is not part of the model, which agrees
    with the language where doubles are exact (a numeral that is a double, a
    result below 2^53): the statements about the value of [toBytes] are
    made there.  The percentage of a progress message is rounded the way
    doubles are. *)

From Stdlib Require Import ZArith QArith Qround Qpower Ascii String List Bool Lia.
From Stdlib Require Import DecimalString.
From stdpp Require Import base option list gmap strings.

Local Open Scope string_scope.
Local Open Scope list_scope.

(** ** RxJS observables, as seen by a subscriber *)

(** How a subscription ends: the [complete] callback, the [error] callback
    (with [err.message]), or neither because a request is still pending. *)
Inductive Ending :=
| Completed
| Failed (message : string)
| Outstanding.

(** The values handed to [next], in order, then the ending. *)
Record Observable (A : Type) := mkObservable {
  values : list A;
  ending : Ending
}.
Arguments mkObservable {A} _ _.
Arguments values {A} _.
Arguments ending {A} _.

(** How one request settles. *)
Inductive Outcome (A : Type) :=
| Ok (value : A)
| Err (message : string).
Arguments Ok {A} _.
Arguments Err {A} _.

(** ** The bucket service: data types and path model *)

Inductive ObjectType := OBJECT | FOLDER.

(** [S3ObjectVersion]: one version of one object, as listed. *)
Record S3ObjectVersion := mkObject {
  Key : string;
  VersionId : option string;
  IsLatest : bool;
  IsDeleted : bool;
  Size : option Z;
  LastModified : option string;
  ETag : option string;
  Type_ : ObjectType
}.

Definition S3ObjectVersionList := list S3ObjectVersion.

Module S3BucketService.

Section PathModel.
(** [this.s3BucketService.delimiter], one character ('/' by default). *)
Variable delimiter : ascii.

(** Modelled from the spec: [splitKey] lives in s3-bucket.service.ts,
    which is not among the sources.  "Splits key on the delimiter into an
    ordered sequence of non-empty segments, in order, discarding a
    trailing empty segment caused by a trailing delimiter."  [splitRaw]
    cuts at every delimiter; [splitKey] keeps the non-empty pieces. *)
Fixpoint splitRaw (cur : string) (key : string) : list string :=
  match key with
  | EmptyString => [cur]
  | String c rest =>
      if Ascii.eqb c delimiter
      then cur :: splitRaw EmptyString rest
      else splitRaw (cur ++ String c EmptyString) rest
  end.

Definition nonEmpty (s : string) : bool :=
  match s with EmptyString => false | _ => true end.

Definition splitKey (key : string) : list string :=
  List.filter nonEmpty (splitRaw EmptyString key).

(** Modelled from the spec: [buildPrefix] lives in s3-bucket.service.ts.
    "Joins segments with the delimiter; appends a trailing delimiter if
    requested and segments is non-empty." *)
Fixpoint join (parts : list string) : string :=
  match parts with
  | [] => EmptyString
  | [p] => p
  | p :: rest => p ++ String delimiter (join rest)
  end.

Definition buildPrefix (parts : list string) (trailingDelimiter : bool) : string :=
  match parts with
  | [] => EmptyString
  | _ => if trailingDelimiter
         then join parts ++ String delimiter EmptyString
         else join parts
  end.

(** Modelled from the spec: [buildKey] "joins pathSegments + leafName
    with the delimiter". *)
Definition buildKey (leafName : string) (parts : list string) : string :=
  join (parts ++ [leafName]).

(** A segment that [splitKey] can give back: no delimiter inside. *)
Fixpoint delimiterFree (s : string) : bool :=
  match s with
  | EmptyString => true
  | String c rest => negb (Ascii.eqb c delimiter) && delimiterFree rest
  end.
End PathModel.

(** The requests the page hands to the service.  They are cold: nothing is
    sent until the observable is subscribed. *)
Inductive S3Call :=
| ListObjectVersions (bucket : string) (prefix : string)
| GetObjectAttributes (bucket : string) (key : string) (versionId : option string)
| UploadObjects (bucket : string) (files : list string) (prefix : string)
| DownloadObject (bucket : string) (key : string)
| DeleteObject (bucket : string) (key : string) (versionId : option string)
               (allVersions : option bool)
| DeleteObjectByPrefix (bucket : string) (prefix : string) (allVersions : bool)
| DeleteObjects (bucket : string) (prefix : string).

End S3BucketService.
Export S3BucketService.

(** ** functions.helper: object version ids *)

(** Modelled from the spec: [isObjectVersionID] is imported from
    functions.helper by the page, but the helper file at hand predates it.
    A version id is explicit when it is present and not null; with
    [excludeNull] the literal ['null'], which the storage API reports for
    objects of an unversioned bucket, does not count either. *)
Definition isObjectVersionID (value : option string) (excludeNull : bool) : bool :=
  match value with
  | None => false
  | Some v => if excludeNull then negb (String.eqb v "null") else true
  end.

(** ** functions.helper: [toBytes] *)

(** *** Regular expressions, matched the way [RegExp.prototype.exec] does

    A backtracking matcher with continuations, after the ECMAScript
    semantics: alternatives are tried left to right, [?] and [+] are greedy,
    an optional group is skipped when its only way to match is the empty
    string, and a group records what it consumed.  The pattern of
    [toBytes] is anchored at both ends, so the match is attempted at
    position 0 only and has to use up the input. *)
Module RegExp.

Inductive regex :=
| Chr (test : ascii -> bool)
| Plus (test : ascii -> bool)
| Seq (r1 r2 : regex)
| Alt (r1 r2 : regex)
| Opt (r : regex)
| Group (index : nat) (r : regex).

(** The match array: [m 1] is the text of group 1, [None] when the group
    took no part in the match. *)
Definition Captures := nat -> option string.

Definition noCaptures : Captures := fun _ => None.

Definition setGroup (index : nat) (text : string) (m : Captures) : Captures :=
  fun i => if (i =? index)%nat then Some text else m i.

(** The text between two positions, each given by the input left there. *)
Definition captured (from to : string) : string :=
  String.substring 0 (String.length from - String.length to) from.

(** [test*], longest first, in front of the continuation [k]. *)
Fixpoint star (test : ascii -> bool) (k : string -> option Captures) (s : string)
  : option Captures :=
  match s with
  | String c rest =>
      if test c
      then match star test k rest with
           | Some m => Some m
           | None => k s
           end
      else k s
  | EmptyString => k s
  end.

Fixpoint run (r : regex) (s : string) (m : Captures)
         (k : string -> Captures -> option Captures) : option Captures :=
  match r with
  | Chr test =>
      match s with
      | String c rest => if test c then k rest m else None
      | EmptyString => None
      end
  | Plus test =>
      match s with
      | String c rest => if test c then star test (fun s' => k s' m) rest else None
      | EmptyString => None
      end
  | Seq r1 r2 => run r1 s m (fun s' m' => run r2 s' m' k)
  | Alt r1 r2 =>
      match run r1 s m k with
      | Some m' => Some m'
      | None => run r2 s m k
      end
  | Opt r =>
      match run r s m (fun s' m' =>
                         if (String.length s' =? String.length s)%nat
                         then None else k s' m') with
      | Some m' => Some m'
      | None => k s m
      end
  | Group index r => run r s m (fun s' m' => k s' (setGroup index (captured s s') m'))
  end.

Definition atEnd (s : string) (m : Captures) : option Captures :=
  match s with
  | EmptyString => Some m
  | String _ _ => None
  end.

(** [RegExp ('^' + r + '$').exec (s)]. *)
Definition exec (r : regex) (s : string) : option Captures :=
  run r s noCaptures atEnd.

(** Character tests. *)
Definition isDigit (c : ascii) : bool :=
  (48 <=? nat_of_ascii c)%nat && (nat_of_ascii c <=? 57)%nat.

(** [.]: anything but a line terminator. *)
Definition anyChar (c : ascii) : bool :=
  negb (nat_of_ascii c =? 10)%nat && negb (nat_of_ascii c =? 13)%nat.

Definition toLowerCase (c : ascii) : ascii :=
  if (65 <=? nat_of_ascii c)%nat && (nat_of_ascii c <=? 90)%nat
  then ascii_of_nat (nat_of_ascii c + 32)
  else c.

(** A literal character under the flag [i]. *)
Definition letter (x : ascii) (c : ascii) : bool :=
  Ascii.eqb (toLowerCase c) (toLowerCase x).

(** A character class under the flag [i]. *)
Definition oneOf (set : list ascii) (c : ascii) : bool :=
  existsb (fun x => letter x c) set.

Definition exactly (x : ascii) (c : ascii) : bool := Ascii.eqb c x.

End RegExp.

Module ToBytes.
Import RegExp.

(** A JS number, as far as [toBytes] meets one: a rational or NaN.  The
    rational is the exact value; the language keeps the nearest double,
    which is the same number when the numeral is a double and the result is
    below 2^53, and answers Infinity from 2^1024 on. *)
Inductive Number :=
| NaN
| Finite (q : Q).

Definition units : list ascii :=
  ["b"; "k"; "m"; "g"; "t"; "p"; "e"; "z"; "y"]%char.

(** [units.indexOf (c)]; [-1] when absent or when there is no character
    to look for. *)
Fixpoint indexFrom (i : Z) (set : list ascii) (c : ascii) : Z :=
  match set with
  | [] => (-1)%Z
  | x :: rest => if Ascii.eqb x c then i else indexFrom (i + 1)%Z rest c
  end.

Definition indexOf (set : list ascii) (c : option ascii) : Z :=
  match c with
  | Some c => indexFrom 0 set c
  | None => (-1)%Z
  end.

(** [s.toLowerCase ()[0]]. *)
Definition firstLower (s : string) : option ascii :=
  match s with
  | String c _ => Some (toLowerCase c)
  | EmptyString => None
  end.

(** [(b|ib|B/s)]. *)
Definition suffix : regex :=
  Alt (Chr (letter "b"))
    (Alt (Seq (Chr (letter "i")) (Chr (letter "b")))
       (Seq (Chr (letter "B")) (Seq (Chr (letter "/")) (Chr (letter "s"))))).

(** [([bkmgtpezy]?(b|ib|B/s)?)?], the third group. *)
Definition unitPart : regex :=
  Opt (Group 3 (Seq (Opt (Chr (oneOf units))) (Opt (Group 4 suffix)))).

Definition tailPart : regex :=
  Seq (Opt (Chr (letter " "))) unitPart.

(** The pattern
    ['^(\\d+(.\\d+)?) ?([' + units.join ('') + ']?(b|ib|B/s)?)?$'] with
    the flag [i].  The dot between the two runs of digits is not escaped:
    it stands for any character. *)
Definition pattern : regex :=
  Seq (Group 1 (Seq (Plus isDigit) (Opt (Group 2 (Seq (Chr anyChar) (Plus isDigit))))))
    tailPart.

(** Decimal digits. *)
Definition digitValue (c : ascii) : Z := Z.of_nat (nat_of_ascii c - 48).

Fixpoint digitsValue (acc : Z) (s : string) : Z :=
  match s with
  | EmptyString => acc
  | String c rest => digitsValue (10 * acc + digitValue c) rest
  end.

Fixpoint takeDigits (s : string) : string * string :=
  match s with
  | String c rest =>
      if isDigit c
      then let (digits, left) := takeDigits rest in (String c digits, left)
      else (EmptyString, s)
  | EmptyString => (EmptyString, EmptyString)
  end.

(** The rational written [ip.fp]. *)
Definition decimal (ip fp : string) : Q :=
  (inject_Z (digitsValue 0 (ip +:+ fp))
   / inject_Z (10 ^ Z.of_nat (String.length fp)))%Q.

(** The exponent part of a decimal literal: [e] or [E], an optional sign,
    at least one digit; 0 when there is none. *)
Definition exponentPart (s : string) : Z :=
  match s with
  | String e rest =>
      if letter "e" e
      then match rest with
           | String sign rest' =>
               if exactly "-" sign
               then (- digitsValue 0 (fst (takeDigits rest')))%Z
               else if exactly "+" sign
               then digitsValue 0 (fst (takeDigits rest'))
               else digitsValue 0 (fst (takeDigits rest))
           | EmptyString => 0%Z
           end
      else 0%Z
  | EmptyString => 0%Z
  end.

(** [parseFloat (s)] on a string that starts with its numeral, as capture
    1 always does: the longest prefix that is a decimal literal (digits,
    fraction, exponent) is read and the rest ignored.  Leading white
    space, a sign and [Infinity] do not occur there.  The value is the
    exact one, not yet rounded to a double. *)
Definition parseFloat (s : string) : Number :=
  let (ip, afterInt) := takeDigits s in
  let (fp, afterFrac) :=
    match afterInt with
    | String dot rest => if exactly "." dot then takeDigits rest
                         else (EmptyString, afterInt)
    | EmptyString => (EmptyString, afterInt)
    end in
  match ip, fp with
  | EmptyString, EmptyString => NaN
  | _, _ => Finite (decimal ip fp * 10 ^ exponentPart afterFrac)%Q
  end.

(** [bytes * Math.pow (base, exponent)], exact (a power of 1024 moves the
    exponent of a double and keeps its digits). *)
Definition scale (bytes : Number) (base : Q) (exponent : Z) : Number :=
  match bytes with
  | NaN => NaN
  | Finite q => Finite (q * base ^ exponent)%Q
  end.

(** [Math.round]: the nearest integer, halves going up (exact on a
    double). *)
Definition round (q : Q) : Z := Qfloor (q + (1 # 2))%Q.

Definition Math_round (bytes : Number) : Number :=
  match bytes with
  | NaN => NaN
  | Finite q => Finite (inject_Z (round q))
  end.

(** [toBytes (value)] on a string; [None] is [null]. *)
Definition toBytes (value : string) : option Number :=
  let base := 1024%Q in
  match exec pattern value with
  | None => None
  | Some m =>
      let bytes := parseFloat (default EmptyString (m 1)) in
      let bytes :=
        match m 3 with
        | Some m3 => scale bytes base (indexOf units (firstLower m3))
        | None => bytes
        end in
      Some (Math_round bytes)
  end.

(** *** The grammar as the specification writes it *)

(** [^\d+(\.\d+)? ?[unit]?(b|ib|B/s)?$], case-insensitive: the pattern
    above with a literal dot; the unit letter is group 3, the suffix
    group 4. *)
Definition grammar : regex :=
  Seq (Group 1 (Seq (Plus isDigit) (Opt (Group 2 (Seq (Chr (exactly ".")) (Plus isDigit))))))
    (Seq (Opt (Chr (letter " ")))
       (Seq (Opt (Group 3 (Chr (oneOf units)))) (Opt (Group 4 suffix)))).

Definition accepted (s : string) : bool :=
  match exec grammar s with
  | Some _ => true
  | None => false
  end.



(** *** The strings of the grammar, spelled out *)

Definition allDigits (s : string) : bool :=
  match s with
  | EmptyString => false
  | _ => forallb isDigit (list_ascii_of_string s)
  end.

(** A numeral: digits, optionally a dot and more digits. *)
Definition numeral (ip : string) (fp : option string) : string :=
  match fp with
  | Some digits => ip +:+ String "." digits
  | None => ip
  end.

Definition fractionOk (fp : option string) : bool :=
  match fp with
  | Some digits => allDigits digits
  | None => true
  end.

Definition toUpperCase (c : ascii) : ascii :=
  if (97 <=? nat_of_ascii c)%nat && (nat_of_ascii c <=? 122)%nat
  then ascii_of_nat (nat_of_ascii c - 32)
  else c.

(** Every spelling of a word in upper and lower case. *)
Fixpoint spellings (word : string) : list string :=
  match word with
  | EmptyString => [EmptyString]
  | String c rest =>
      let tails := spellings rest in
      if Ascii.eqb (toUpperCase c) (toLowerCase c)
      then map (String c) tails
      else map (String (toLowerCase c)) tails ++ map (String (toUpperCase c)) tails
  end.

Definition suffixes : list string :=
  EmptyString :: spellings "b" ++ spellings "ib" ++ spellings "b/s".

Fixpoint indexed {A} (i : Z) (l : list A) : list (Z * A) :=
  match l with
  | [] => []
  | x :: rest => (i, x) :: indexed (i + 1)%Z rest
  end.

(** What may follow the numeral and the optional space, with the exponent
    it stands for: nothing, or a unit letter and one of the suffixes, or
    one of the suffixes [b] and [B/s] alone.  ([ib] alone is left out.) *)
Definition unitSpellings : list (string * Z) :=
  (EmptyString, 0%Z)
  :: map (fun s => (s, 0%Z)) (spellings "b" ++ spellings "b/s")
  ++ flat_map (fun entry =>
                 flat_map (fun c => map (fun s => (String c s, fst entry)) suffixes)
                   [toLowerCase (snd entry); toUpperCase (snd entry)])
       (indexed 0 units).

Definition spacing (space : bool) : string :=
  if space then " " else EmptyString.

(** No digit at the head of a string; no digit anywhere in it. *)
Definition stopsDigits (s : string) : bool :=
  match s with
  | String c _ => negb (isDigit c)
  | EmptyString => true
  end.

Definition noDigits (s : string) : bool :=
  forallb (fun c => negb (isDigit c)) (list_ascii_of_string s).

(** The exponent [toBytes] takes from capture 3. *)
Definition exponentOf (m3 : option string) : Z :=
  match m3 with
  | Some text => indexOf units (firstLower text)
  | None => 0%Z
  end.

(** The captures once the numeral has been matched. *)
Definition numeralCaptures (text : string) (fraction : option string) : Captures :=
  setGroup 1 text
    match fraction with
    | Some digits => setGroup 2 (String "." digits) noCaptures
    | None => noCaptures
    end.

(** The part of the pattern after the numeral accepts [tail], leaves
    capture 1 alone and finds the exponent [k]. *)
Definition tailReads (tail : string) (k : Z) : Prop :=
  forall (text : string) (fraction : option string),
    option_map (fun r => (r 1, exponentOf (r 3)))
      (run tailPart tail (numeralCaptures text fraction) atEnd)
    = Some (Some text, k).

End ToBytes.

(** ** functions.helper: [format], and the i18n [translate] on top of it *)

(** [Number.prototype.toString] on a natural number. *)
Definition Number_toString (n : nat) : string :=
  NilZero.string_of_uint (Nat.to_uint n).

Module FormatHelper.

(** The placeholder of a template variable, spelled as the page's
    templates spell it. *)
Definition placeholder (name : string) : string :=
  "{{ " +:+ name +:+ " }}".

(** First option whose placeholder starts the rest of the template. *)
Definition placeholderAt (options : list (string * string)) (rest : string)
  : option (string * string) :=
  List.find (fun o => String.prefix (placeholder (fst o)) rest) options.

(** [format (str, options)], that is [_.template] with the mustache
    delimiter, on templates that hold a plain name between the braces: one
    pass over the template, each [{{ name }}] replaced by the value of
    [name]; [skip] counts the characters of a placeholder still to be
    dropped.  A placeholder whose name is not among the options is left as
    it is, where [_.template] throws: the templates of the page name only
    options they are given. *)
Fixpoint interpolate (options : list (string * string)) (skip : nat) (str : string)
  : string :=
  match str with
  | EmptyString => EmptyString
  | String c rest =>
      match skip with
      | S n => interpolate options n rest
      | O =>
          match placeholderAt options str with
          | Some (name, value) =>
              value +:+ interpolate options (String.length (placeholder name) - 1) rest
          | None => String c (interpolate options 0 rest)
          end
      end
  end.

Definition format (str : string) (options : list (string * string)) : string :=
  interpolate options 0 str.

(** [translate (text, params)] of i18n.helper with the source language
    active: the text is its own translation, then [format] fills it in
    (the older page spells this out: [format (translate (TEXT (..)), ..)]). *)
Definition translate (text : string) (params : list (string * string)) : string :=
  format text params.

(** The integer nearest to a rational, a tie going to the even one. *)
Definition roundHalfEven (t : Q) : Z :=
  let f := Qfloor t in
  match (t - inject_Z f ?= 1 # 2)%Q with
  | Lt => f
  | Gt => (f + 1)%Z
  | Eq => if Z.even f then f else (f + 1)%Z
  end.

(** The double nearest to a positive rational: 53 significant bits, ties
    to even.  (The range of the exponent is not modelled: the quotients and
    products met here are far from its ends.) *)
Definition roundToDouble (q : Q) : Q :=
  if Qle_bool q 0 then q
  else
    let e0 := (Z.log2 (Qnum q) - Z.log2 (Z.pos (Qden q)) - 52)%Z in
    let e := if Qle_bool (2 ^ 52) (q / 2 ^ e0) then e0 else (e0 - 1)%Z in
    (inject_Z (roundHalfEven (q / 2 ^ e)) * 2 ^ e)%Q.

(** [Math.round ((loaded / total) * 100)], then printed: the quotient and
    the product are each rounded to a double, as the division and the
    multiplication of the language do (29 of 200 is 14 percent, not 15).
    The counts are taken to be below 2^53. *)
Definition percent (loaded total : nat) : string :=
  match total, loaded with
  | O, O => "NaN"
  | O, S _ => "Infinity"
  | _, _ =>
      let ratio := roundToDouble (inject_Z (Z.of_nat loaded) / inject_Z (Z.of_nat total)) in
      let scaled := roundToDouble (ratio * 100) in
      Number_toString (Z.to_nat (ToBytes.round scaled))
  end.

End FormatHelper.
Export FormatHelper.

(** ** The object page *)

Inductive PageStatus := none | ready | loading | reloading | loadingError.

(** The values stored in a [Record<string, any>]. *)
Inductive JsVal :=
| JUndefined
| JNull
| JBool (b : bool)
| JNum (n : Z)
| JStr (s : string)
| JTagSet (tags : list (string * string)).

(** What the page does to the outside world. *)
Inductive Effect :=
| Subscribe (call : S3Call)
| BlockUiStart (message : string)
| BlockUiUpdate (message : string)
| BlockUiStop
| ShowSuccess (message : string)
| ShowError (message : string).

(** The fields of [ObjectDatatablePageComponent] that carry state, and the
    delimiter of the injected bucket service. *)
Record Page := mkPage {
  bid : string;
  objects : S3ObjectVersionList;
  pageStatus : PageStatus;
  prefixParts : list string;
  objectAttrsCache : gmap string (gmap string JsVal);
  loadingObjectAttrsKeys : list string;
  firstLoadComplete : bool;
  objectNumVersions : gmap string nat;
  showDeletedObjects : bool;
  isBucketVersioned : bool;
  delimiter : ascii
}.

Definition set_objects (v : S3ObjectVersionList) (p : Page) : Page :=
  mkPage (bid p) v (pageStatus p) (prefixParts p) (objectAttrsCache p)
    (loadingObjectAttrsKeys p) (firstLoadComplete p) (objectNumVersions p)
    (showDeletedObjects p) (isBucketVersioned p) (delimiter p).

Definition set_pageStatus (v : PageStatus) (p : Page) : Page :=
  mkPage (bid p) (objects p) v (prefixParts p) (objectAttrsCache p)
    (loadingObjectAttrsKeys p) (firstLoadComplete p) (objectNumVersions p)
    (showDeletedObjects p) (isBucketVersioned p) (delimiter p).

Definition set_objectAttrsCache (v : gmap string (gmap string JsVal)) (p : Page) : Page :=
  mkPage (bid p) (objects p) (pageStatus p) (prefixParts p) v
    (loadingObjectAttrsKeys p) (firstLoadComplete p) (objectNumVersions p)
    (showDeletedObjects p) (isBucketVersioned p) (delimiter p).

Definition set_loadingObjectAttrsKeys (v : list string) (p : Page) : Page :=
  mkPage (bid p) (objects p) (pageStatus p) (prefixParts p) (objectAttrsCache p)
    v (firstLoadComplete p) (objectNumVersions p)
    (showDeletedObjects p) (isBucketVersioned p) (delimiter p).

Definition set_firstLoadComplete (v : bool) (p : Page) : Page :=
  mkPage (bid p) (objects p) (pageStatus p) (prefixParts p) (objectAttrsCache p)
    (loadingObjectAttrsKeys p) v (objectNumVersions p)
    (showDeletedObjects p) (isBucketVersioned p) (delimiter p).

Definition set_objectNumVersions (v : gmap string nat) (p : Page) : Page :=
  mkPage (bid p) (objects p) (pageStatus p) (prefixParts p) (objectAttrsCache p)
    (loadingObjectAttrsKeys p) (firstLoadComplete p) v
    (showDeletedObjects p) (isBucketVersioned p) (delimiter p).

Definition set_showDeletedObjects (v : bool) (p : Page) : Page :=
  mkPage (bid p) (objects p) (pageStatus p) (prefixParts p) (objectAttrsCache p)
    (loadingObjectAttrsKeys p) (firstLoadComplete p) (objectNumVersions p)
    v (isBucketVersioned p) (delimiter p).

(** *** loadData *)

(** The body of the [_.forEach] that caches the number of versions. *)
Definition countVersion (index : gmap string nat) (object : S3ObjectVersion)
  : gmap string nat :=
  let index1 :=
    match index !! Key object with
    | None => <[Key object := 0]> index
    | Some _ => index
    end in
  if isObjectVersionID (VersionId object) true
  then let count := default 0 (index1 !! Key object) in
       <[Key object := count + 1]> index1
  else index1.

(** [_.filter (objects, { IsLatest: l, IsDeleted: d })]. *)
Definition filterBy (l d : bool) (objs : S3ObjectVersionList) : S3ObjectVersionList :=
  List.filter (fun o => Bool.eqb (IsLatest o) l && Bool.eqb (IsDeleted o) d) objs.

(** The [next] callback of the listing subscription. *)
Definition loadData_next (p : Page) (objs : S3ObjectVersionList) : Page :=
  let index := fold_left countVersion objs (objectNumVersions p) in
  let newObjects := filterBy true false objs in
  let newObjects :=
    if showDeletedObjects p
    then newObjects ++ filterBy true true objs
    else newObjects in
  set_objects (objects p ++ newObjects) (set_objectNumVersions index p).

Definition loadData_complete (p : Page) : Page := set_pageStatus ready p.

Definition loadData_error (p : Page) : Page :=
  set_pageStatus loadingError (set_objects [] p).

(** [loadData ()], up to the point where the listing request is sent. *)
Definition loadData (p : Page) : Page * list Effect :=
  let p := set_objects [] p in
  let p := set_objectAttrsCache ∅ p in
  let p := set_objectNumVersions ∅ p in
  let p := set_pageStatus (if firstLoadComplete p then reloading else loading) p in
  (p, [Subscribe (ListObjectVersions (bid p)
                    (buildPrefix (delimiter p) (prefixParts p) true))]).

(** The callbacks of that subscription run over what the listing delivers;
    [finalize] comes last. *)
Definition loadData_subscriber (p : Page) (resp : Observable S3ObjectVersionList) : Page :=
  let p := fold_left loadData_next (values resp) p in
  match ending resp with
  | Completed => set_firstLoadComplete true (loadData_complete p)
  | Failed _ => set_firstLoadComplete true (loadData_error p)
  | Outstanding => p
  end.

(** One reload: [loadData ()] and the answer of the listing. *)
Definition reload (p : Page) (resp : Observable S3ObjectVersionList) : Page :=
  loadData_subscriber (fst (loadData p)) resp.

(** *** The table actions and the row menu *)

Inductive Handler :=
| CallCreateFolder | CallUpload | CallDownload | CallDelete | CallToggleDeleted
| CallShowVersions.

Record EnabledConstraints := mkConstraints {
  minSelected : nat;
  callback : S3ObjectVersionList -> bool
}.

Inductive DatatableAction :=
| ActionDivider
| Action (type text : string) (enabledConstraints : option EnabledConstraints)
         (handler : Handler).

(** [_.every (selected, (object) => !object.IsDeleted)]. *)
Definition noneDeleted (selected : S3ObjectVersionList) : bool :=
  forallb (fun object => negb (IsDeleted object)) selected.

(** [this.datatableActions], as the constructor of the versioned page
    fills it.  The constraints are kept as the data the page declares: the
    component that reads [enabledConstraints] is not among the sources. *)
Definition datatableActions : list DatatableAction :=
  [ Action "button" "Folder" None CallCreateFolder;
    Action "file" "Upload" None CallUpload;
    Action "button" "Download" (Some (mkConstraints 1 noneDeleted)) CallDownload;
    Action "button" "Delete" (Some (mkConstraints 1 noneDeleted)) CallDelete;
    ActionDivider;
    Action "button" "" None CallToggleDeleted ].




(** [doDownload (selected)]: every download is subscribed at once. *)
Definition doDownload (p : Page) (selected : S3ObjectVersionList) : list Effect :=
  map (fun data => Subscribe (DownloadObject (bid p) (Key data))) selected.

(** *** onExpandedRowsChange *)

(** [object[name]]: a missing property reads as [undefined]. *)
Definition getProp (object : gmap string JsVal) (name : string) : JsVal :=
  default JUndefined (object !! name).

(** [_.defaultTo (value, defaultValue)]. *)
Definition defaultTo (value defaultValue : JsVal) : JsVal :=
  match value with
  | JUndefined | JNull => defaultValue
  | _ => value
  end.

(** [_.merge (object, source)] on records whose values are not themselves
    merged (the tag sets met here are either absent on one side or the very
    same array on both): a source value replaces the destination value,
    except that [undefined] never replaces a value that exists. *)
Definition merge (object source : gmap string JsVal) : gmap string JsVal :=
  union_with (fun old new => Some match new with
                                  | JUndefined => old
                                  | _ => new
                                  end) object source.

Fixpoint trimStart (c : ascii) (s : string) : string :=
  match s with
  | String a rest => if Ascii.eqb a c then trimStart c rest else s
  | EmptyString => EmptyString
  end.

Fixpoint trimEnd (c : ascii) (s : string) : string :=
  match s with
  | EmptyString => EmptyString
  | String a rest =>
      match trimEnd c rest with
      | EmptyString => if Ascii.eqb a c then EmptyString else String a EmptyString
      | rest' => String a rest'
      end
  end.

(** The double quote character. *)
Definition doubleQuote : ascii := ascii_of_nat 34.

(** [_.trim (value, chars)] with the double quote as [chars]; a missing
    value trims to the empty string (an ETag, when present, is a string). *)
Definition trimQuotes (value : JsVal) : string :=
  match value with
  | JStr s => trimEnd doubleQuote (trimStart doubleQuote s)
  | _ => EmptyString
  end.

Definition optProp (name : string) (value : option JsVal)
           (object : gmap string JsVal) : gmap string JsVal :=
  match value with
  | Some v => <[name := v]> object
  | None => object
  end.

Definition typeName (t : ObjectType) : string :=
  match t with OBJECT => "OBJECT" | FOLDER => "FOLDER" end.

(** A listed row as the plain object it is at run time. *)
Definition rowRecord (object : S3ObjectVersion) : gmap string JsVal :=
  optProp "Key" (Some (JStr (Key object)))
    (optProp "VersionId" (JStr <$> VersionId object)
       (optProp "IsLatest" (Some (JBool (IsLatest object)))
          (optProp "IsDeleted" (Some (JBool (IsDeleted object)))
             (optProp "Size" (JNum <$> Size object)
                (optProp "LastModified" (JStr <$> LastModified object)
                   (optProp "ETag" (JStr <$> ETag object)
                      (optProp "Type" (Some (JStr (typeName (Type_ object)))) ∅))))))).

(** The name under which a value is used as a property key. *)
Definition propertyKey (v : JsVal) : string :=
  match v with
  | JStr s => s
  | JUndefined => "undefined"
  | JNull => "null"
  | JBool true => "true"
  | JBool false => "false"
  | JNum n => match n with
              | Z0 => "0"
              | Zpos q => Number_toString (Pos.to_nat q)
              | Zneg q => "-" +:+ Number_toString (Pos.to_nat q)
              end
  | JTagSet tags => String.concat "," (map (fun _ => "[object Object]") tags)
  end.

(** [_.find (objects, ['Key', value])]. *)
Definition findByKey (objects : S3ObjectVersionList) (value : JsVal)
  : option S3ObjectVersion :=
  match value with
  | JStr k => List.find (fun o => String.eqb (Key o) k) objects
  | _ => None
  end.

(** [0 <= _.findIndex (objects, ['Key', key])]. *)
Definition hasKey (objects : S3ObjectVersionList) (key : string) : bool :=
  existsb (fun o => String.eqb (Key o) key) objects.

(** [forkJoin (sources)] of RxJS, given how each source settles ([None]:
    not yet).  With no source at all it completes at once and emits
    nothing; an error of any source is the error of the whole; otherwise,
    once every source has delivered, it emits the list of results once and
    completes. *)
Definition settlement {A} (responses : list (option (Outcome A))) (i : nat)
  : option (Outcome A) :=
  mjoin (responses !! i).

Fixpoint firstError {A} (settled : list (option (Outcome A))) : option string :=
  match settled with
  | [] => None
  | Some (Err m) :: _ => Some m
  | _ :: rest => firstError rest
  end.

Fixpoint allResults {A} (settled : list (option (Outcome A))) : option (list A) :=
  match settled with
  | [] => Some []
  | Some (Ok v) :: rest => cons v <$> allResults rest
  | _ :: _ => None
  end.

Definition forkJoin {A} (sources : list S3Call) (responses : list (option (Outcome A)))
  : Observable (list A) :=
  match sources with
  | [] => mkObservable [] Completed
  | _ =>
      let settled := map (settlement responses) (seq 0 (length sources)) in
      match firstError settled with
      | Some m => mkObservable [] (Failed m)
      | None =>
          match allResults settled with
          | Some results => mkObservable [results] Completed
          | None => mkObservable [] Outstanding
          end
      end
  end.

(** *** [_.has] of lodash

    [_.has (object, path)] reads a string as a path: unless the string is a
    plain word, has no path syntax in it, or is a property of the object,
    it is cut into the keys of a path, and the object is followed along
    them.  The two regular expressions lodash uses for that ([reIsDeepProp]
    and [rePropName]) are written out as the scanners they amount to. *)
Module Lodash.

Definition dot : ascii := ".".
Definition openBracket : ascii := "[".
Definition closeBracket : ascii := "]".
Definition backslash : ascii := ascii_of_nat 92.
Definition singleQuote : ascii := "'".

(** [\w]. *)
Definition isWord (c : ascii) : bool :=
  let n := nat_of_ascii c in
  ((48 <=? n)%nat && (n <=? 57)%nat) || ((65 <=? n)%nat && (n <=? 90)%nat)
  || ((97 <=? n)%nat && (n <=? 122)%nat) || (n =? 95)%nat.

(** [reIsPlainProp = /^\w*$/]. *)
Definition reIsPlainProp (s : string) : bool :=
  forallb isWord (list_ascii_of_string s).

Definition isQuote (c : ascii) : bool :=
  Ascii.eqb c doubleQuote || Ascii.eqb c singleQuote.

(** The body of a quoted key, [(?:(?!\2)[^\\]|\\.)*?] in front of [\2\]]:
    after the opening quote [q], characters other than [q] and the
    backslash, or a backslash and a character that is no line terminator,
    up to the first [q] that is not escaped, which has to be followed by
    the closing bracket. *)
Fixpoint quoted (q : ascii) (s : string) : option string :=
  match s with
  | EmptyString => None
  | String c rest =>
      if Ascii.eqb c q
      then match rest with
           | String b _ => if Ascii.eqb b closeBracket then Some EmptyString else None
           | EmptyString => None
           end
      else if Ascii.eqb c backslash
      then match rest with
           | String e rest' =>
               if RegExp.anyChar e
               then match quoted q rest' with
                    | Some body => Some (String c (String e body))
                    | None => None
                    end
               else None
           | EmptyString => None
           end
      else match quoted q rest with
           | Some body => Some (String c body)
           | None => None
           end
  end.

(** [[^[\]]*] in front of [\]]: no bracket up to the closing one. *)
Fixpoint plainRun (s : string) : bool :=
  match s with
  | EmptyString => false
  | String c rest =>
      if Ascii.eqb c closeBracket then true
      else if Ascii.eqb c openBracket then false
      else plainRun rest
  end.

(** What may follow an opening bracket in [reIsDeepProp]. *)
Definition deepBracket (s : string) : bool :=
  plainRun s
  || match s with
     | String q rest =>
         isQuote q && match quoted q rest with Some _ => true | None => false end
     | EmptyString => false
     end.

(** [reIsDeepProp], tested anywhere in the string: a dot, or an opening
    bracket, then either no bracket or a quoted key, then a closing
    bracket,
    [/\.|\[(?:[^[\]]*|(Q)(?:(?!\1)[^\\]|\\.)*?\1)\]/]
    where [Q] stands for the class of the two quote characters. *)
Fixpoint reIsDeepProp (s : string) : bool :=
  match s with
  | EmptyString => false
  | String c rest =>
      Ascii.eqb c dot || (Ascii.eqb c openBracket && deepBracket rest)
      || reIsDeepProp rest
  end.

(** [string.replace (reEscapeChar, '$1')] with [reEscapeChar = /\\(\\)?/g]:
    a backslash is dropped, two backslashes leave one. *)
Fixpoint unescape (s : string) : string :=
  match s with
  | EmptyString => EmptyString
  | String c rest =>
      if Ascii.eqb c backslash
      then match rest with
           | String e rest' =>
               if Ascii.eqb e backslash then String backslash (unescape rest')
               else unescape rest
           | EmptyString => EmptyString
           end
      else String c (unescape rest)
  end.

(** [(-?\d+(?:\.\d+)?)] in front of [\]]: the text of the number. *)
Definition bracketNumber (s : string) : option string :=
  let (sign, s1) :=
    match s with
    | String c rest => if Ascii.eqb c "-" then ("-", rest) else (EmptyString, s)
    | EmptyString => (EmptyString, s)
    end in
  let (ip, s2) := ToBytes.takeDigits s1 in
  match ip, s2 with
  | String _ _, String c rest =>
      if Ascii.eqb c closeBracket then Some (sign +:+ ip)
      else if Ascii.eqb c dot
      then let (fp, s3) := ToBytes.takeDigits rest in
           match fp, s3 with
           | String _ _, String c' _ =>
               if Ascii.eqb c' closeBracket
               then Some (sign +:+ ip +:+ String dot fp)
               else None
           | _, _ => None
           end
      else None
  | _, _ => None
  end.

(** The second alternative of [rePropName], after the opening bracket: the
    key that is pushed and the number of characters consumed after the
    bracket. *)
Definition bracket (s : string) : option (string * nat) :=
  match bracketNumber s with
  | Some number => Some (number, S (String.length number))
  | None =>
      match s with
      | String q rest =>
          if isQuote q
          then match quoted q rest with
               | Some body => Some (unescape body, 3 + String.length body)
               | None => None
               end
          else None
      | EmptyString => None
      end
  end.

(** The third alternative of [rePropName], the empty match
    [(?=(?:\.|\[\])(?:\.|\[\]|$))]. *)
Definition emptyKey (s : string) : bool :=
  let after :=
    match s with
    | String c rest =>
        if Ascii.eqb c dot then Some rest
        else if Ascii.eqb c openBracket
        then match rest with
             | String c' rest' => if Ascii.eqb c' closeBracket then Some rest' else None
             | EmptyString => None
             end
        else None
    | EmptyString => None
    end in
  match after with
  | Some EmptyString => true
  | Some (String c rest) =>
      Ascii.eqb c dot
      || (Ascii.eqb c openBracket
          && match rest with
             | String c' _ => Ascii.eqb c' closeBracket
             | EmptyString => false
             end)
  | None => false
  end.

Definition isSpecial (c : ascii) : bool :=
  Ascii.eqb c dot || Ascii.eqb c openBracket || Ascii.eqb c closeBracket.

Definition flush (name : option string) : list string :=
  match name with
  | Some text => [text]
  | None => []
  end.

(** [string.replace (rePropName, ...)], as the keys it pushes.  At each
    position the alternatives of [rePropName] are tried in order: a run of
    characters other than the dot and the brackets ([[^.[\]]+]); a
    bracketed number or quoted key; the empty key.  A position where none
    matches is passed over.  [name] is the run of plain characters being
    read, [skip] the number of characters that belong to a bracket already
    matched. *)
Fixpoint scan (name : option string) (skip : nat) (s : string) : list string :=
  match s with
  | EmptyString => flush name
  | String c rest =>
      match skip with
      | S skip' => scan None skip' rest
      | O =>
          if isSpecial c
          then flush name
               ++ match (if Ascii.eqb c openBracket then bracket rest else None) with
                  | Some (key, consumed) => key :: scan None consumed rest
                  | None =>
                      if emptyKey s then EmptyString :: scan None 0 rest
                      else scan None 0 rest
                  end
          else scan (Some (default EmptyString name +:+ String c EmptyString)) 0 rest
      end
  end.

(** [stringToPath (string)]. *)
Definition stringToPath (s : string) : list string :=
  match s with
  | String c _ => if Ascii.eqb c dot then [EmptyString] else []
  | EmptyString => []
  end ++ scan None 0 s.

(** The objects a path through the attribute cache can reach: the cache, a
    cached record, a value of a record, a tag. *)
Inductive Value :=
| VCache (cache : gmap string (gmap string JsVal))
| VRecord (record : gmap string JsVal)
| VJs (v : JsVal)
| VTag (tag : string * string).

(** An array index written the canonical way, below [length]. *)
Definition indexBelow (length : nat) (key : string) : option nat :=
  List.find (fun i => String.eqb (Number_toString i) key) (seq 0 length).

Definition charAt (s : string) (i : nat) : string :=
  match String.get i s with
  | Some c => String c EmptyString
  | None => EmptyString
  end.

(** [baseHas (object, key)], that is
    [object != null && hasOwnProperty.call (object, key)], together with
    [object[key]]. *)
Definition own (object : Value) (key : string) : option Value :=
  match object with
  | VCache cache => VRecord <$> cache !! key
  | VRecord record => VJs <$> record !! key
  | VJs (JStr s) =>
      if String.eqb key "length" then Some (VJs (JNum (Z.of_nat (String.length s))))
      else (fun i => VJs (JStr (charAt s i))) <$> indexBelow (String.length s) key
  | VJs (JTagSet tags) =>
      if String.eqb key "length" then Some (VJs (JNum (Z.of_nat (length tags))))
      else indexBelow (length tags) key ≫= fun i => VTag <$> tags !! i
  | VJs _ => None
  | VTag (k, v) =>
      if String.eqb key "Key" then Some (VJs (JStr k))
      else if String.eqb key "Value" then Some (VJs (JStr v))
      else None
  end.

Fixpoint follow (object : Value) (path : list string) : bool :=
  match path with
  | [] => true
  | key :: rest =>
      match own object key with
      | Some next => follow next rest
      | None => false
      end
  end.

(** [hasPath (object, path, baseHas)]: every key of the path is an own
    property of the object reached so far; an empty path has nothing.  (The
    last resort of [hasPath], an index of an array or of [arguments] that
    is not an own property, does not occur: the arrays met here are
    dense.) *)
Definition hasPath (object : Value) (path : list string) : bool :=
  match path with
  | [] => false
  | _ => follow object path
  end.

(** [isKey (value, object)]; the names inherited from [Object.prototype]
    are plain words, so that [value in Object (object)] decides for own
    properties only. *)
Definition isKey (value : string) (object : gmap string (gmap string JsVal)) : bool :=
  reIsPlainProp value || negb (reIsDeepProp value)
  || bool_decide (is_Some (object !! value)).

Definition castPath (value : string) (object : gmap string (gmap string JsVal))
  : list string :=
  if isKey value object then [value] else stringToPath value.

(** [_.has (this.objectAttrsCache, key)]. *)
Definition has (object : gmap string (gmap string JsVal)) (path : string) : bool :=
  hasPath (VCache object) (castPath path object).

End Lodash.

Section ExpandedRows.
(** [bytesToSize] of functions.helper goes through [Math.log] and a
    floating-point division, and [this.localeDatePipe.transform (_,
    'datetime')] renders a date for the locale: both are taken as given. *)
Variable bytesToSize : JsVal -> string.
Variable localeDate : JsVal -> string.

Definition numVersions (p : Page) (key : string) : JsVal :=
  match objectNumVersions p !! key with
  | Some n => JNum (Z.of_nat n)
  | None => JUndefined
  end.

(** The record cached for a deleted row:
    [_.merge ({}, object, { Size: .., .. })]. *)
Definition deletedAttrs (p : Page) (object : S3ObjectVersion) : gmap string JsVal :=
  merge (merge ∅ (rowRecord object))
    (list_to_map
       [ ("Size", JStr (bytesToSize (from_option JNum JUndefined (Size object))));
         ("LastModified",
           JStr (localeDate (from_option JStr JUndefined (LastModified object))));
         ("ETag", JStr (trimQuotes (from_option JStr JUndefined (ETag object))));
         ("ObjectLockMode", JStr "NONE");
         ("ObjectLockRetainUntilDate", JStr "");
         ("ObjectLockLegalHoldStatus", JStr "OFF");
         ("TagSet", JTagSet []);
         ("NumVersions", numVersions p (Key object));
         ("IsDeleted", JBool (IsDeleted object)) ]).

(** The body of the first [_.forEach]: [sources] collects the attribute
    requests.  The test is [!_.has (this.objectAttrsCache, key)]. *)
Definition expandRow (acc : Page * list S3Call) (object : S3ObjectVersion)
  : Page * list S3Call :=
  let (p, sources) := acc in
  let key := Key object in
  if Lodash.has (objectAttrsCache p) key
  then acc
  else
    let p := set_loadingObjectAttrsKeys (loadingObjectAttrsKeys p ++ [key]) p in
    if IsDeleted object
    then (set_objectAttrsCache
            (<[key := deletedAttrs p object]> (objectAttrsCache p)) p,
          sources)
    else (p, sources ++ [GetObjectAttributes (bid p) key (VersionId object)]).

Definition collectSources (p : Page) (objects : S3ObjectVersionList)
  : Page * list S3Call :=
  fold_left expandRow objects (set_loadingObjectAttrsKeys [] p, []).

(** The body of the second [_.forEach]: one fetched record is merged with
    the display fields of its row and stored. *)
Definition storeAttrs (objects : S3ObjectVersionList) (p : Page)
           (objAttr : gmap string JsVal) : Page :=
  let objAttr :=
    match findByKey objects (getProp objAttr "Key") with
    | Some object =>
        merge objAttr
          (list_to_map
             [ ("Size", JStr (bytesToSize (from_option JNum JUndefined (Size object))));
               ("LastModified",
                 JStr (localeDate (from_option JStr JUndefined (LastModified object))));
               ("ETag", JStr (trimQuotes (getProp objAttr "ETag")));
               ("ObjectLockMode",
                 defaultTo (getProp objAttr "ObjectLockMode") (JStr "NONE"));
               ("ObjectLockRetainUntilDate",
                 JStr (localeDate
                         (defaultTo (getProp objAttr "ObjectLockRetainUntilDate")
                            (JStr ""))));
               ("ObjectLockLegalHoldStatus",
                 defaultTo (getProp objAttr "ObjectLockLegalHoldStatus") (JStr "OFF"));
               ("TagSet", defaultTo (getProp objAttr "TagSet") (JTagSet []));
               ("NumVersions", numVersions p (Key object));
               ("IsDeleted", JBool (IsDeleted object)) ])
    | None => objAttr
    end in
  set_objectAttrsCache
    (<[propertyKey (getProp objAttr "Key") := objAttr]> (objectAttrsCache p)) p.

(** "Purge collapsed rows": the [_.pickBy] at the end of the callback. *)
Definition purgeCollapsed (objects : S3ObjectVersionList) (p : Page) : Page :=
  set_objectAttrsCache
    (filter (fun entry => hasKey objects (fst entry) = true) (objectAttrsCache p)) p.

(** The [next] callback of the [forkJoin] subscription. *)
Definition onAttrsLoaded (objects : S3ObjectVersionList) (p : Page)
           (objAttrs : list (gmap string JsVal)) : Page :=
  purgeCollapsed objects (fold_left (storeAttrs objects) objAttrs p).

(** [onExpandedRowsChange (event)]: [objects] are the rows now expanded,
    [responses] tells how the attribute requests of this batch settle. *)
Definition onExpandedRowsChange (p : Page) (objects : S3ObjectVersionList)
           (responses : list (option (Outcome (gmap string JsVal))))
  : Page * list Effect :=
  let (p, sources) := collectSources p objects in
  let joined := forkJoin sources responses in
  let p := fold_left (onAttrsLoaded objects) (values joined) p in
  let p := match ending joined with
           | Completed | Failed _ => set_loadingObjectAttrsKeys [] p
           | Outstanding => p
           end in
  (p, map Subscribe sources).
End ExpandedRows.

(** *** doUpload *)

Record S3UploadProgress := mkProgress {
  loaded : nat;
  total : nat
}.

(** The block-UI message of one progress report. *)
Definition progressUpdate (progress : S3UploadProgress) : Effect :=
  BlockUiUpdate
    (translate
       "Please wait, uploading {{ loaded }} of {{ total }} object(s) ({{ percent }}%) ..."
       [("loaded", Number_toString (loaded progress));
        ("total", Number_toString (total progress));
        ("percent", percent (loaded progress) (total progress))]).

(** The [next] callback of the upload subscription: it remembers
    [progress.loaded] in the local [loaded] and updates the block UI. *)
Definition doUpload_next (acc : nat * list Effect) (progress : S3UploadProgress)
  : nat * list Effect :=
  (loaded progress, snd acc ++ [progressUpdate progress]).

(** [doUpload (fileList)]; [upload] is what the stream returned by
    [uploadObjects] delivers.  A [FileList] is the list of its file names;
    [None] is the [null] the DOM may hand over. *)
Definition doUpload (p : Page) (fileList : option (list string))
           (upload : Observable S3UploadProgress) : Page * list Effect :=
  match fileList with
  | None => (p, [])
  | Some files =>
      let started :=
        [BlockUiStart
           (translate "Please wait, uploading {{ total }} object(s) ..."
              [("total", Number_toString (length files))]);
         Subscribe (UploadObjects (bid p) files
                      (buildPrefix (delimiter p) (prefixParts p) false))] in
      let (loaded, progressed) := fold_left doUpload_next (values upload) (0, started) in
      match ending upload with
      | Completed =>
          let message :=
            if (loaded =? length files)%nat
            then "{{ total }} object(s) have been successfully uploaded."
            else "{{ loaded }} of {{ total }} object(s) have been successfully uploaded." in
          let (p', reloading) := loadData p in
          (p', progressed
               ++ [ShowSuccess
                     (translate message
                        [("loaded", Number_toString loaded);
                         ("total", Number_toString (length files))])]
               ++ reloading ++ [BlockUiStop])
      | Failed message =>
          (p, progressed
              ++ [ShowError
                    (translate "Failed to upload the objects: {{ error }}"
                       [("error", message)]);
                  BlockUiStop])
      | Outstanding => (p, progressed)
      end
  end.

(** *** doDelete *)

(** Modelled from the spec: the confirmation dialogs belong to
    modal-dialog.service.ts, which is not among the sources.  The user
    either dismisses the dialog or confirms it; the extended dialog of a
    versioned bucket also carries the "Delete all versions" checkbox, which
    it hands to the callback ("this choice is a single boolean applied
    uniformly to every item in the batch"). *)
Inductive Confirmation :=
| Dismissed
| Confirmed (deleteAllVersions : bool).

(** The body of the [_.forEach] in [callbackFn]. *)
Definition pushDelete (p : Page) (allVersions : bool)
           (sources : list S3Call) (item : S3ObjectVersion) : list S3Call :=
  match Type_ item with
  | FOLDER =>
      sources ++ [DeleteObjectByPrefix (bid p)
                    (Key item +:+ String (delimiter p) EmptyString) allVersions]
  | OBJECT =>
      sources ++ [DeleteObject (bid p) (Key item) None (Some allVersions)]
  end.

Definition deleteSources (p : Page) (items : S3ObjectVersionList) (allVersions : bool)
  : list S3Call :=
  fold_left (pushDelete p allVersions) items [].

(** [_.uniq]. *)
Fixpoint uniq (keys : list string) : list string :=
  match keys with
  | [] => []
  | k :: rest => k :: List.filter (fun k' => negb (String.eqb k k')) (uniq rest)
  end.

(** [nextFmtArgs] of the delete notification: the keys the service reports
    as deleted, without repetition, joined by a comma. *)
Definition deletedNames (output : list string) : list (string * string) :=
  [("name", String.concat ", " (uniq output))].

Module RxjsUiHelperService.

(** Modelled from the spec: [concat] of rxjs-ui-helper.service.ts, which
    is not among the sources.  The sources "run strictly sequentially (one
    completes before the next starts)" and each step reports "a running X of
    N (P%) progress message".  In such a sequence "an error aborts the
    remainder of that sequential batch and is surfaced as a single
    user-visible message": the sources after the failed one are not
    subscribed, and the helper shows the message of the error.  "On full
    completion (all settle, regardless of individual failure) the listing is
    unconditionally reloaded": the page reloads in the [complete] callback
    of its subscription, so the stream of the helper completes once the
    batch has settled, after a failure as well.  [current] counts the
    sources already done; [responses] tells how each source settles
    ([None]: not yet). *)
Fixpoint concatFrom {A} (fmtArgs : A -> list (string * string))
         (blockUiNext notificationNext : string)
         (responses : list (option (Outcome A)))
         (current total : nat) (sources : list S3Call) : list Effect * Ending :=
  match sources with
  | [] => ([], Completed)
  | source :: rest =>
      match settlement responses current with
      | None => ([Subscribe source], Outstanding)
      | Some (Err message) => ([Subscribe source; ShowError message], Completed)
      | Some (Ok output) =>
          let (effects, ending) :=
            concatFrom fmtArgs blockUiNext notificationNext responses
              (S current) total rest in
          (Subscribe source
             :: BlockUiUpdate
                  (translate blockUiNext
                     [("current", Number_toString (S current));
                      ("total", Number_toString total);
                      ("percent", percent (S current) total)])
             :: ShowSuccess (translate notificationNext (fmtArgs output))
             :: effects,
           ending)
      end
  end.

Definition concat {A} (sources : list S3Call)
           (blockUiStart blockUiNext notificationNext : string)
           (fmtArgs : A -> list (string * string))
           (responses : list (option (Outcome A))) : list Effect * Ending :=
  let (effects, ending) :=
    concatFrom fmtArgs blockUiNext notificationNext responses
      0 (length sources) sources in
  (BlockUiStart (translate blockUiStart [("total", Number_toString (length sources))])
     :: effects
     ++ match ending with
        | Outstanding => []
        | _ => [BlockUiStop]
        end,
   ending).

End RxjsUiHelperService.

(** [callbackFn (allVersions)]: the deletions run through the helper, and
    the subscriber reloads the listing in its [complete] callback, the only
    one it has. *)
Definition callbackFn (p : Page) (items : S3ObjectVersionList) (allVersions : bool)
           (responses : list (option (Outcome (list string)))) : Page * list Effect :=
  let sources := deleteSources p items allVersions in
  let (effects, ending) :=
    RxjsUiHelperService.concat sources
      "Please wait, deleting {{ total }} object(s) ..."
      "Please wait, deleting object {{ current }} of {{ total }} ({{ percent }}%) ..."
      "The object(s) {{ name }} have been deleted."
      deletedNames responses in
  match ending with
  | Completed => let (p', reloading) := loadData p in (p', effects ++ reloading)
  | _ => (p, effects)
  end.

(** [doDelete (selected)]: an unversioned bucket asks with
    [confirmDeletion] and deletes with [allVersions = false]; a versioned
    one asks with [confirmDeletionEx] and passes the checkbox on. *)
Definition doDelete (p : Page) (selected : S3ObjectVersionList)
           (answer : Confirmation)
           (responses : list (option (Outcome (list string)))) : Page * list Effect :=
  match answer with
  | Dismissed => (p, [])
  | Confirmed deleteAllVersions =>
      if isBucketVersioned p
      then callbackFn p selected deleteAllVersions responses
      else callbackFn p selected false responses
  end.

(** *** The older page (app/pages/user/object, before versioning) *)

Module Legacy.

(** Its [doDelete] knows no versions: a folder goes to [deleteObjects]
    with the bare key, an object to [deleteObject]. *)
Definition pushDelete (p : Page) (sources : list S3Call) (data : S3ObjectVersion)
  : list S3Call :=
  match Type_ data with
  | FOLDER => sources ++ [DeleteObjects (bid p) (Key data)]
  | OBJECT => sources ++ [DeleteObject (bid p) (Key data) None None]
  end.

Definition deleteSources (p : Page) (selected : S3ObjectVersionList) : list S3Call :=
  fold_left (pushDelete p) selected [].

(** Its [doUpload] keeps no count: on completion it always announces
    [fileList.length] objects. *)
Definition doUpload_notification (fileList : list string) (upload : Ending)
  : list Effect :=
  match upload with
  | Completed =>
      [ShowSuccess
         (format "{{ total }} object(s) have been successfully uploaded."
            [("total", Number_toString (length fileList))])]
  | Failed message =>
      [ShowError
         (format "Failed to upload the objects: {{ error }}" [("error", message)])]
  | Outstanding => []
  end.

End Legacy.

(** ** Vocabulary of the statements *)



(** The notifications among the effects, and the number of listing reloads
    started. *)
Definition isNotification (e : Effect) : bool :=
  match e with
  | ShowSuccess _ | ShowError _ => true
  | _ => false
  end.

Definition notifications (effects : list Effect) : list Effect :=
  List.filter isNotification effects.

Definition isReload (e : Effect) : bool :=
  match e with
  | Subscribe (ListObjectVersions _ _) => true
  | _ => false
  end.

Definition reloads (effects : list Effect) : nat :=
  length (List.filter isReload effects).

(** The last [loaded] reported, 0 before the first report. *)
Definition lastLoaded (reports : list S3UploadProgress) : nat :=
  List.last (map loaded reports) 0.

(** The text of the last notification shown. *)
Definition finalMessage (effects : list Effect) : option string :=
  match List.last (map Some (notifications effects)) None with
  | Some (ShowSuccess m) | Some (ShowError m) => Some m
  | _ => None
  end.

(** Does [text] occur in [message]? *)
Fixpoint occursIn (text message : string) : bool :=
  String.prefix text message
  || match message with
     | EmptyString => false
     | String _ rest => occursIn text rest
     end.

(** The delete request a selected row stands for. *)
Definition deleteCall (p : Page) (allVersions : bool) (item : S3ObjectVersion) : S3Call :=
  match Type_ item with
  | FOLDER => DeleteObjectByPrefix (bid p)
                (Key item +:+ String (delimiter p) EmptyString) allVersions
  | OBJECT => DeleteObject (bid p) (Key item) None (Some allVersions)
  end.

Definition isDelete (e : Effect) : bool :=
  match e with
  | Subscribe (DeleteObject _ _ _ _) | Subscribe (DeleteObjectByPrefix _ _ _)
  | Subscribe (DeleteObjects _ _) => true
  | _ => false
  end.

(** Do the first [n] requests all succeed? *)
Definition allSucceed {A} (responses : list (option (Outcome A))) (n : nat) : bool :=
  forallb (fun i => match settlement responses i with
                    | Some (Ok _) => true
                    | _ => false
                    end) (seq 0 n).

(** Has every one of the first [n] requests settled, well or badly? *)
Definition allSettled {A} (responses : list (option (Outcome A))) (n : nat) : bool :=
  forallb (fun i => match settlement responses i with
                    | Some _ => true
                    | None => false
                    end) (seq 0 n).

(** Has a batch of [n] sequential requests settled?  The requests run one
    after the other, the first being number [current]: the batch has settled
    when the last request has succeeded or when one request has failed, and
    it has not while the request that is running is pending. *)
Fixpoint settledFrom {A} (responses : list (option (Outcome A))) (current n : nat) : bool :=
  match n with
  | 0 => true
  | S n' =>
      match settlement responses current with
      | Some (Ok _) => settledFrom responses (S current) n'
      | Some (Err _) => true
      | None => false
      end
  end.

Definition batchSettled {A} (responses : list (option (Outcome A))) (n : nat) : bool :=
  settledFrom responses 0 n.

(** The number of requests of the batch that are started at all: every
    request up to and including the first that does not succeed. *)
Fixpoint startedFrom {A} (responses : list (option (Outcome A))) (current n : nat) : nat :=
  match n with
  | 0 => 0
  | S n' =>
      match settlement responses current with
      | Some (Ok _) => S (startedFrom responses (S current) n')
      | _ => 1
      end
  end.

Definition started {A} (responses : list (option (Outcome A))) (n : nat) : nat :=
  startedFrom responses 0 n.

(** The statement "an upload of 5 files whose third item throws reports
    exactly 2 completed items in its final message". *)
Definition reportsTwoOfFive : Prop :=
  forall (p : Page) (files : list string) (message : string),
    length files = 5 ->
    exists text,
      finalMessage
        (snd (doUpload p (Some files)
                (mkObservable [mkProgress 1 5; mkProgress 2 5] (Failed message))))
      = Some text
      /\ occursIn "2" text = true.

(** Is the effect an attribute request for [key]? *)
Definition fetchOf (key : string) (e : Effect) : bool :=
  match e with
  | Subscribe (GetObjectAttributes _ k _) => String.eqb k key
  | _ => false
  end.

(** What the first loop of [onExpandedRowsChange] leaves in the cache for a
    key, and which rows it requests, when the keys of the rows are pairwise
    distinct. *)
Definition entryFor (bytesToSize localeDate : JsVal -> string)
           (p : Page) (objects : S3ObjectVersionList) (key : string)
  : option (gmap string JsVal) :=
  match objectAttrsCache p !! key with
  | Some e => Some e
  | None =>
      match List.find (fun o => String.eqb (Key o) key) objects with
      | Some o => if IsDeleted o then Some (deletedAttrs bytesToSize localeDate p o) else None
      | None => None
      end
  end.

Definition toFetch (p : Page) (o : S3ObjectVersion) : bool :=
  negb (IsDeleted o) && bool_decide (objectAttrsCache p !! Key o = None).

Definition fetch (p : Page) (o : S3ObjectVersion) : S3Call :=
  GetObjectAttributes (bid p) (Key o) (VersionId o).

(** The first key of the path that [_.has] reads in a string; the string
    itself when it is taken as one key whatever the object. *)
Definition headSegment (key : string) : string :=
  if Lodash.reIsPlainProp key || negb (Lodash.reIsDeepProp key)
  then key
  else match Lodash.stringToPath key with
       | segment :: _ => segment
       | [] => key
       end.

(** Is the key of a row looked up as the key it is?  It is when the first
    key of its path is the whole key, or is neither cached nor one of
    [keys]. *)
Definition readAsKey (cache : gmap string (gmap string JsVal)) (keys : list string)
           (key : string) : bool :=
  let head := headSegment key in
  String.eqb head key
  || negb (bool_decide (is_Some (cache !! head)) || existsb (String.eqb head) keys).

Definition readAsKeys (cache : gmap string (gmap string JsVal))
           (objects : S3ObjectVersionList) : bool :=
  forallb (fun o => readAsKey cache (map Key objects) (Key o)) objects.

(** The rows are looked up as the keys they are: the first key of the path
    of each is the whole key, or is neither cached nor one of [keys]. *)
Definition keysApart (cache : gmap string (gmap string JsVal)) (keys : list string)
           (objects : S3ObjectVersionList) : Prop :=
  forall o, In o objects ->
    headSegment (Key o) = Key o
    \/ (cache !! headSegment (Key o) = None /\ ~ In (headSegment (Key o)) keys).

(** [n] double quotes in a row; the first and the last character of a
    string. *)
Fixpoint quotes (n : nat) : string :=
  match n with
  | 0 => EmptyString
  | S n' => String doubleQuote (quotes n')
  end.

Definition firstChar (s : string) : option ascii :=
  match s with
  | String c _ => Some c
  | EmptyString => None
  end.

Fixpoint lastChar (s : string) : option ascii :=
  match s with
  | EmptyString => None
  | String c EmptyString => Some c
  | String _ rest => lastChar rest
  end.

(** A small listing used in examples: a live object and a delete marker. *)
Module Example.
Definition liveRow : S3ObjectVersion :=
  mkObject "a.txt" (Some "v1") true false (Some 3%Z) (Some "2024-01-01")
    (Some "abc") OBJECT.
Definition markerRow : S3ObjectVersion :=
  mkObject "b.txt" (Some "v2") true true (Some 0%Z) (Some "2024-01-02")
    None OBJECT.
Definition oldRow : S3ObjectVersion :=
  mkObject "a.txt" (Some "v0") false false (Some 2%Z) (Some "2023-12-31")
    (Some "abb") OBJECT.
Definition freshPage : Page :=
  mkPage "bucket" [] none [] ∅ [] false ∅ true true "/".
Definition listedPage : Page :=
  reload freshPage (mkObservable [[liveRow; oldRow; markerRow]] Completed).
Definition liveAttrs : gmap string JsVal :=
  list_to_map [("Key", JStr "a.txt"); ("ETag", JStr "abc")].

Section Cycle.
Variable bytesToSize : JsVal -> string.
Variable localeDate : JsVal -> string.

(** Expand the live row (its attributes arrive), collapse it, expand
    the delete marker. *)
Definition afterExpand : Page :=
  fst (onExpandedRowsChange bytesToSize localeDate listedPage
         [liveRow] [Some (Ok liveAttrs)]).
Definition afterCollapse : Page :=
  fst (onExpandedRowsChange bytesToSize localeDate afterExpand [] []).
Definition afterSecondExpand : Page :=
  fst (onExpandedRowsChange bytesToSize localeDate afterCollapse [markerRow] []).

(** A listing with an object [a] and a delete marker whose key is [a.ETag]:
    expand the object (its attributes arrive), then expand the marker as
    well. *)
Definition plainRow : S3ObjectVersion :=
  mkObject "a" (Some "v1") true false (Some 3%Z) (Some "2024-01-01")
    (Some "abc") OBJECT.
Definition dottedMarker : S3ObjectVersion :=
  mkObject "a.ETag" (Some "v2") true true (Some 0%Z) (Some "2024-01-02")
    None OBJECT.
Definition dottedListing : Page :=
  reload freshPage (mkObservable [[plainRow; dottedMarker]] Completed).
Definition plainAttrs : gmap string JsVal :=
  list_to_map [("Key", JStr "a"); ("ETag", JStr "abc")].
Definition afterPlain : Page :=
  fst (onExpandedRowsChange bytesToSize localeDate dottedListing
         [plainRow] [Some (Ok plainAttrs)]).
Definition afterDotted : Page * list Effect :=
  onExpandedRowsChange bytesToSize localeDate afterPlain [plainRow; dottedMarker] [].
End Cycle.
End Example.

(** ** Further methods of the object page *)

Definition set_prefixParts (v : list string) (p : Page) : Page :=
  mkPage (bid p) (objects p) (pageStatus p) v (objectAttrsCache p)
    (loadingObjectAttrsKeys p) (firstLoadComplete p) (objectNumVersions p)
    (showDeletedObjects p) (isBucketVersioned p) (delimiter p).

(** [onPrefixSelect (index)], for the index of a breadcrumb (a natural
    number): [this.prefixParts.slice (0, index)], then [loadData ()]. *)
Definition onPrefixSelect (index : nat) (p : Page) : Page * list Effect :=
  loadData (set_prefixParts (take index (prefixParts p)) p).

(** The rows one emission of the listing adds to the display. *)
Definition shownOf (showDeleted : bool) (records : S3ObjectVersionList)
  : S3ObjectVersionList :=
  List.filter (fun o => IsLatest o && negb (IsDeleted o)) records
  ++ (if showDeleted
      then List.filter (fun o => IsLatest o && IsDeleted o) records
      else []).

(** *** The "show deleted objects" action *)

Inductive Icon := IconShow | IconHide.

(** The part of the action object that its callback rewrites. *)
Record ToggleAction := mkToggle {
  icon : Icon;
  tooltip : string
}.

(** The action as the constructor creates it. *)
Definition toggleAction0 : ToggleAction :=
  mkToggle IconShow "Show deleted objects".

(** The callback of the action: the flag is flipped, icon and tooltip
    follow it, and the table is asked to reload ([table.reloadData ()],
    the last component of the result). *)
Definition toggleDeleted (p : Page) (action : ToggleAction)
  : Page * ToggleAction * nat :=
  let p := set_showDeletedObjects (negb (showDeletedObjects p)) p in
  let action :=
    if showDeletedObjects p
    then mkToggle IconHide (translate "Hide deleted objects" [])
    else mkToggle IconShow (translate "Show deleted objects" []) in
  (p, action, 1).

(** *** The buttons of the expanded-row form *)

(** Is a value truthy? *)
Definition truthy (v : JsVal) : bool :=
  match v with
  | JUndefined | JNull => false
  | JBool b => b
  | JNum n => negb (n =? 0)%Z
  | JStr s => nonEmpty s
  | JTagSet _ => true
  end.

(** [_.get (object, name, defaultValue)] for a plain property name. *)
Definition getOr (object : gmap string JsVal) (name : string) (defaultValue : JsVal)
  : JsVal :=
  match getProp object name with
  | JUndefined => defaultValue
  | v => v
  end.

(** [hidden] of the "Update" button: [_.get (values, 'IsDeleted', false)]. *)
Definition updateHidden (values : gmap string JsVal) : bool :=
  truthy (getOr values "IsDeleted" (JBool false)).

(** ** Vocabulary for the pattern of toBytes *)

(** The capture groups a pattern can set. *)
Fixpoint groupsOf (r : RegExp.regex) : list nat :=
  match r with
  | RegExp.Chr _ | RegExp.Plus _ => []
  | RegExp.Seq r1 r2 | RegExp.Alt r1 r2 => groupsOf r1 ++ groupsOf r2
  | RegExp.Opt r => groupsOf r
  | RegExp.Group index r => index :: groupsOf r
  end.

(** The captures once two runs of digits with a character between them
    have been matched: [second] is that character and the second run. *)
Definition separatedCaptures (text second : string) : RegExp.Captures :=
  RegExp.setGroup 1 text (RegExp.setGroup 2 second RegExp.noCaptures).

(** The part of the pattern after such a numeral accepts [tail], leaves
    capture 1 alone and finds the exponent [k]. *)
Definition tailReadsAfter (tail : string) (k : Z) : Prop :=
  forall text second : string,
    option_map (fun r => (r 1, ToBytes.exponentOf (r 3)))
      (RegExp.run ToBytes.tailPart tail (separatedCaptures text second) RegExp.atEnd)
    = Some (Some text, k).










(** ** functions.helper: isEqualOrUndefined *)

(** [_.isEqual (value, other)] on values that may be [undefined]. *)
Definition isEqual {A} `{EqDecision A} (value other : option A) : bool :=
  bool_decide (value = other).

(** [isEqualOrUndefined (value, other)]. *)
Definition isEqualOrUndefined {A} `{EqDecision A} (value other : option A) : bool :=
  match value, other with
  | None, _ | _, None => true
  | Some _, Some _ => isEqual value other
  end.

(** ** The bucket service of the Admin Ops API *)

Module AdminOpsBucketService.

Definition TagSet := list (string * string).

(** [Partial<Bucket>]: a property that is missing or [undefined] is [None].
    The properties the service only carries along (tenant, usage, quota
    and the like) are left out; the retention mode and unit are the strings
    they are at run time. *)
Record Bucket := mkBucket {
  id : option string;
  bucket : option string;
  owner : option string;
  tags : option TagSet;
  versioning_enabled : option bool;
  object_lock_enabled : option bool;
  retention_enabled : option bool;
  retention_mode : option string;
  retention_validity : option Z;
  retention_unit : option string
}.

Definition set_owner (v : option string) (b : Bucket) : Bucket :=
  mkBucket (id b) (bucket b) v (tags b) (versioning_enabled b) (object_lock_enabled b)
    (retention_enabled b) (retention_mode b) (retention_validity b) (retention_unit b).

Definition set_tags (v : option TagSet) (b : Bucket) : Bucket :=
  mkBucket (id b) (bucket b) (owner b) v (versioning_enabled b) (object_lock_enabled b)
    (retention_enabled b) (retention_mode b) (retention_validity b) (retention_unit b).

Definition set_versioning_enabled (v : option bool) (b : Bucket) : Bucket :=
  mkBucket (id b) (bucket b) (owner b) (tags b) v (object_lock_enabled b)
    (retention_enabled b) (retention_mode b) (retention_validity b) (retention_unit b).

Definition set_retention (enabled : option bool) (mode : option string)
           (validity : option Z) (unit : option string) (b : Bucket) : Bucket :=
  mkBucket (id b) (bucket b) (owner b) (tags b) (versioning_enabled b)
    (object_lock_enabled b) enabled mode validity unit.

(** The requests [update] builds: [this.link (bucket, bucketId, uid)] and
    [this.setAttributes (bucket, uid)]. *)
Inductive Request :=
| Link (bucket bucketId : option string) (uid : string)
| SetAttributes (bucket : Bucket) (uid : option string).

(** The condition of the outer [if]. *)
Definition attributesDiffer (b currentBucket : Bucket) : bool :=
  negb (isEqualOrUndefined (tags b) (tags currentBucket))
  || negb (isEqualOrUndefined (versioning_enabled b) (versioning_enabled currentBucket))
  || negb (isEqualOrUndefined (retention_enabled b) (retention_enabled currentBucket))
  || negb (isEqualOrUndefined (retention_mode b) (retention_mode currentBucket))
  || negb (isEqualOrUndefined (retention_validity b) (retention_validity currentBucket))
  || negb (isEqualOrUndefined (retention_unit b) (retention_unit currentBucket)).

(** The condition of "Update object locking?". *)
Definition retentionDiffers (b currentBucket : Bucket) : bool :=
  bool_decide (object_lock_enabled currentBucket = Some true)
  && (negb (isEqual (retention_enabled b) (retention_enabled currentBucket))
      || negb (isEqual (retention_mode b) (retention_mode currentBucket))
      || negb (isEqual (retention_validity b) (retention_validity currentBucket))
      || negb (isEqual (retention_unit b) (retention_unit currentBucket))).

(** The function given to [switchMap] in [update], up to the [concat]: the
    requests collected in [sources] and [currentBucket] as the assignments
    leave it. *)
Definition update_sources (b currentBucket : Bucket) : list Request * Bucket :=
  let sources := [] in
  let '(currentBucket, sources) :=
    match owner b with
    | Some newOwner =>
        if negb (bool_decide (Some newOwner = owner currentBucket))
        then (set_owner (owner b) currentBucket,
              sources ++ [Link (bucket b) (id b) newOwner])
        else (currentBucket, sources)
    | None => (currentBucket, sources)
    end in
  if attributesDiffer b currentBucket
  then
    let currentBucket :=
      if negb (isEqualOrUndefined (tags b) (tags currentBucket))
      then set_tags (tags b) currentBucket else currentBucket in
    let currentBucket :=
      if negb (isEqualOrUndefined (versioning_enabled b) (versioning_enabled currentBucket))
      then set_versioning_enabled (versioning_enabled b) currentBucket
      else currentBucket in
    let currentBucket :=
      if retentionDiffers b currentBucket
      then set_retention (retention_enabled b) (retention_mode b)
             (retention_validity b) (retention_unit b) currentBucket
      else currentBucket in
    (sources ++ [SetAttributes b (owner b)], currentBucket)
  else (sources, currentBucket).

(** [concat (...sources)] of RxJS on requests: each one is sent when the
    one before it has completed; the first error ends the series.  The
    result lists the requests sent and tells how the series ends. *)
Fixpoint concat (sources : list Request) (outcomes : list (option (Outcome unit)))
  : list Request * Ending :=
  match sources with
  | [] => ([], Completed)
  | source :: sources' =>
      match outcomes with
      | Some (Ok _) :: outcomes' =>
          let (sent, e) := concat sources' outcomes' in (source :: sent, e)
      | Some (Err message) :: _ => ([source], Failed message)
      | _ => ([source], Outstanding)
      end
  end.

(** [update (bucket)], given what [this.get (bucket.bucket)] delivers and
    how the requests settle, in the order they are sent:
    [toArray ()] waits for the end of the series and
    [map (() => currentBucket)] then hands out the bucket. *)
Definition update (b : Bucket) (got : Outcome Bucket)
           (outcomes : list (option (Outcome unit)))
  : list Request * Observable Bucket :=
  match got with
  | Err message => ([], mkObservable [] (Failed message))
  | Ok currentBucket =>
      let (sources, currentBucket) := update_sources b currentBucket in
      let (sent, e) := concat sources outcomes in
      (sent, match e with
             | Completed => mkObservable [currentBucket] Completed
             | _ => mkObservable [] e
             end)
  end.

End AdminOpsBucketService.

(** Two values of a property between which [isEqualOrUndefined] sees no
    difference: one of them is [undefined], or they are equal. *)
Definition sameOrUndefined {A} (value other : option A) : Prop :=
  value = None \/ other = None \/ value = other.

(** The value of a property after an update that overwrites it only when
    both sides have one. *)
Definition overwritten {A} (given current : option A) : option A :=
  match given, current with
  | Some v, Some _ => Some v
  | _, _ => current
  end.

(** ** The datatable component *)

Module Datatable.

(** The values the table compares: identifiers of rows are strings or
    numbers in every table of the application.  Arrays and objects, which
    lodash compares deeply, are left out of a row. *)
Inductive Primitive :=
| PUndefined
| PNull
| PBool (b : bool)
| PNum (n : Z)
| PStr (s : string).

(** [a === b]. *)
Definition strictEquals (a b : Primitive) : bool :=
  match a, b with
  | PUndefined, PUndefined | PNull, PNull => true
  | PBool x, PBool y => Bool.eqb x y
  | PNum x, PNum y => Z.eqb x y
  | PStr x, PStr y => String.eqb x y
  | _, _ => false
  end.

(** [DatatableData], a [Record<string, any>]: the own properties of a row. *)
Definition DatatableData := gmap string Primitive.

(** [row[name]]. *)
Definition get (row : DatatableData) (name : string) : Primitive :=
  default PUndefined (row !! name).

(** [_.matchesProperty (path, srcValue)], the predicate behind
    [_.find (rows, [path, srcValue])], for a plain property name and a
    primitive value:
    [object[path] === srcValue && (srcValue !== undefined || path in object)]. *)
Definition matchesProperty (path : string) (srcValue : Primitive)
           (object : DatatableData) : bool :=
  match object !! path with
  | Some value => strictEquals value srcValue
  | None => false
  end.

(** [_.findIndex (array, predicate)]; [None] stands for [-1]. *)
Fixpoint findIndex {A} (predicate : A -> bool) (array : list A) : option nat :=
  match array with
  | [] => None
  | x :: rest => if predicate x then Some 0 else S <$> findIndex predicate rest
  end.

(** [array.slice (start, end)]. *)
Definition relativeIndex (index len : Z) : Z :=
  if (index <? 0)%Z then Z.max (len + index) 0 else Z.min index len.

Definition slice {A} (array : list A) (start final : Z) : list A :=
  let len := Z.of_nat (length array) in
  let k := relativeIndex start len in
  take (Z.to_nat (relativeIndex final len - k)) (drop (Z.to_nat k) array).

Inductive SortDirection := ascending | descending.

(** The value of the enum: ['asc'] or ['desc']. *)
Definition directionName (d : SortDirection) : string :=
  match d with ascending => "asc" | descending => "desc" end.

Inductive SelectionType := single | multi | none.

(** [DatatableColumn], as far as the component reads it here. *)
Record DatatableColumn := mkColumn {
  name : string;
  prop : string;
  compareProp : option string;
  hidden : option bool;
  sortable : option bool;
  cellTemplateName : option string
}.

Definition set_hidden (v : option bool) (c : DatatableColumn) : DatatableColumn :=
  mkColumn (name c) (prop c) (compareProp c) v (sortable c) (cellTemplateName c).

(** What [saveState] writes, as [JSON.parse] gives it back: a property
    whose value is [undefined] is not written. *)
Record Settings := mkSettings {
  settings_columns : list (string * option bool);
  settings_pageSize : Z;
  settings_sortHeader : option string;
  settings_sortDirection : option string
}.

(** [UserLocalStorageService]: the settings stored under a key. *)
Definition Storage := gmap string Settings.

(** The component. *)
Record Table := mkTable {
  columns : list DatatableColumn;
  pageSize : Z;
  sortHeader : option string;
  sortDirection : SortDirection;
  identifier : string;
  selectionType : SelectionType;
  stateId : option string;
  selected : list DatatableData;
  page : Z;
  isAllRowsSelected : bool;
  searchFilter : string;
  filteredData : list DatatableData;
  data : list DatatableData;
  sortableColumns : list string
}.

Definition set_columns (v : list DatatableColumn) (t : Table) : Table :=
  mkTable v (pageSize t) (sortHeader t) (sortDirection t) (identifier t)
    (selectionType t) (stateId t) (selected t) (page t) (isAllRowsSelected t)
    (searchFilter t) (filteredData t) (data t) (sortableColumns t).

Definition set_pageSize (v : Z) (t : Table) : Table :=
  mkTable (columns t) v (sortHeader t) (sortDirection t) (identifier t)
    (selectionType t) (stateId t) (selected t) (page t) (isAllRowsSelected t)
    (searchFilter t) (filteredData t) (data t) (sortableColumns t).

Definition set_sortHeader (v : option string) (t : Table) : Table :=
  mkTable (columns t) (pageSize t) v (sortDirection t) (identifier t)
    (selectionType t) (stateId t) (selected t) (page t) (isAllRowsSelected t)
    (searchFilter t) (filteredData t) (data t) (sortableColumns t).

Definition set_sortDirection (v : SortDirection) (t : Table) : Table :=
  mkTable (columns t) (pageSize t) (sortHeader t) v (identifier t)
    (selectionType t) (stateId t) (selected t) (page t) (isAllRowsSelected t)
    (searchFilter t) (filteredData t) (data t) (sortableColumns t).

Definition set_selected (v : list DatatableData) (t : Table) : Table :=
  mkTable (columns t) (pageSize t) (sortHeader t) (sortDirection t) (identifier t)
    (selectionType t) (stateId t) v (page t) (isAllRowsSelected t)
    (searchFilter t) (filteredData t) (data t) (sortableColumns t).

Definition set_page (v : Z) (t : Table) : Table :=
  mkTable (columns t) (pageSize t) (sortHeader t) (sortDirection t) (identifier t)
    (selectionType t) (stateId t) (selected t) v (isAllRowsSelected t)
    (searchFilter t) (filteredData t) (data t) (sortableColumns t).

Definition set_isAllRowsSelected (v : bool) (t : Table) : Table :=
  mkTable (columns t) (pageSize t) (sortHeader t) (sortDirection t) (identifier t)
    (selectionType t) (stateId t) (selected t) (page t) v
    (searchFilter t) (filteredData t) (data t) (sortableColumns t).

Definition set_searchFilter (v : string) (t : Table) : Table :=
  mkTable (columns t) (pageSize t) (sortHeader t) (sortDirection t) (identifier t)
    (selectionType t) (stateId t) (selected t) (page t) (isAllRowsSelected t)
    v (filteredData t) (data t) (sortableColumns t).

Definition set_filteredData (v : list DatatableData) (t : Table) : Table :=
  mkTable (columns t) (pageSize t) (sortHeader t) (sortDirection t) (identifier t)
    (selectionType t) (stateId t) (selected t) (page t) (isAllRowsSelected t)
    (searchFilter t) v (data t) (sortableColumns t).

Definition set_data (v : list DatatableData) (t : Table) : Table :=
  mkTable (columns t) (pageSize t) (sortHeader t) (sortDirection t) (identifier t)
    (selectionType t) (stateId t) (selected t) (page t) (isAllRowsSelected t)
    (searchFilter t) (filteredData t) v (sortableColumns t).

(** The events of the two outputs. *)
Inductive Emitted :=
| EmitLoadData
| EmitSelectionChange (selected : list DatatableData).

(** [[this.identifier, row[this.identifier]]] as a predicate on rows. *)
Definition sameIdentifier (t : Table) (row : DatatableData) : DatatableData -> bool :=
  matchesProperty (identifier t) (get row (identifier t)).

(** [updateIsAllRowsSelected ()]. *)
Definition updateIsAllRowsSelected (t : Table) : Table :=
  set_isAllRowsSelected
    ((0 <? length (selected t))%nat
     && (length (selected t) =? length (filteredData t))%nat) t.

(** [updateSelection ()]. *)
Definition updateSelection (t : Table) : Table :=
  let newSelection :=
    fold_left (fun newSelection selectedItem =>
                 match List.find (sameIdentifier t selectedItem) (filteredData t) with
                 | Some item => newSelection ++ [item]
                 | None => newSelection
                 end) (selected t) [] in
  updateIsAllRowsSelected (set_selected newSelection t).

(** [clearSelection ()]. *)
Definition clearSelection (t : Table) : Table :=
  updateIsAllRowsSelected (set_selected [] t).

(** [onHeaderSelectRows (event)]. *)
Definition onHeaderSelectRows (t : Table) : Table * list Emitted :=
  let t := if isAllRowsSelected t
           then set_selected [] t
           else set_selected (filteredData t) t in
  (updateIsAllRowsSelected t, [EmitSelectionChange (selected t)]).

(** [onSelectRow (row)]. *)
Definition onSelectRow (t : Table) (row : DatatableData) : Table * list Emitted :=
  let t :=
    match findIndex (sameIdentifier t row) (selected t) with
    | None =>
        match selectionType t with
        | multi => set_selected (selected t ++ [row]) t
        | _ => set_selected [row] t
        end
    | Some selectedIndex => set_selected (delete selectedIndex (selected t)) t
    end in
  (updateIsAllRowsSelected t, [EmitSelectionChange (selected t)]).

(** [renderCellDisabled (row, column)]. *)
Definition renderCellDisabled (t : Table) (row : DatatableData)
           (column : DatatableColumn) : bool :=
  match cellTemplateName column with
  | Some template =>
      if String.eqb template "rowSelect"
      then match selectionType t with
           | single =>
               match List.find (sameIdentifier t row) (selected t) with
               | None => (0 <? length (selected t))%nat
               | Some _ => false
               end
           | _ => false
           end
      else false
  | None => false
  end.

(** [getSortProp (column)]: [column.compareProp || column.prop]. *)
Definition getSortProp (column : DatatableColumn) : string :=
  match compareProp column with
  | Some p => if String.eqb p "" then prop column else p
  | None => prop column
  end.

(** [reloadData ()]. *)
Definition reloadData (t : Table) : Table * list Emitted := (t, [EmitLoadData]).

(** The key of the settings in the local storage, and a state id that is
    not falsy. *)
Definition stateKey (id : string) : string := "datatable_state_" +:+ id.

Definition hasStateId (t : Table) : option string :=
  match stateId t with
  | Some id => if String.eqb id "" then None else Some id
  | None => None
  end.

(** [saveState ()]. *)
Definition saveState (t : Table) (storage : Storage) : Storage :=
  match hasStateId t with
  | None => storage
  | Some id =>
      let columnsConfig :=
        map (fun column => (name column, hidden column))
          (List.filter (fun column => negb (String.eqb (name column) "")) (columns t)) in
      let settings :=
        mkSettings columnsConfig (pageSize t) (sortHeader t)
          (Some (directionName (sortDirection t))) in
      <[stateKey id := settings]> storage
  end.

(** The body of the [_.forEach] of [restoreState]: the first column of that
    name takes the stored values ([_.merge] leaves [hidden] alone when none
    is stored). *)
Definition restoreColumn (columns : list DatatableColumn)
           (columnConfig : string * option bool) : list DatatableColumn :=
  match findIndex (fun column => String.eqb (name column) (fst columnConfig)) columns with
  | Some index =>
      alter (fun column => match snd columnConfig with
                           | Some h => set_hidden (Some h) column
                           | None => column
                           end) index columns
  | None => columns
  end.

(** [restoreState ()]. *)
Definition restoreState (t : Table) (storage : Storage) : Table :=
  match hasStateId t with
  | None => t
  | Some id =>
      match storage !! stateKey id with
      | None => t
      | Some settings =>
          let t := set_pageSize (settings_pageSize settings) t in
          let t := match settings_sortHeader settings with
                   | Some header => set_sortHeader (Some header) t
                   | None => t
                   end in
          let t := match settings_sortDirection settings with
                   | Some direction =>
                       set_sortDirection
                         (if String.eqb direction (directionName descending)
                          then descending else ascending) t
                   | None => t
                   end in
          set_columns (fold_left restoreColumn (settings_columns settings) (columns t)) t
      end
  end.

(** [onToggleColumn (column)], for the column at [index] of [this.columns]. *)
Definition onToggleColumn (t : Table) (storage : Storage) (index : nat)
  : Table * Storage :=
  let t :=
    set_columns
      (alter (fun column =>
                set_hidden (Some (negb (default false (hidden column)))) column)
         index (columns t)) t in
  (t, saveState t storage).

Section Filters.
(** [_.orderBy (rows, [sortHeader], [sortDirection])] compares values of any
    kind, and the callback of [filter] goes through pipes,
    [JSON.stringify] and [_.lowerCase]: both are taken as given. *)
Variable orderBy : list DatatableData -> option string -> SortDirection -> list DatatableData.
Variable matchesSearch : list DatatableColumn -> string -> DatatableData -> bool.

(** [applyFilters ()].  The assignment is skipped when the rows are equal
    to the ones already there, which leaves the same value. *)
Definition applyFilters (t : Table) : Table :=
  let filteredData :=
    List.filter (matchesSearch (columns t) (searchFilter t))
      (slice (orderBy (data t) (sortHeader t) (sortDirection t))
         ((page t - 1) * pageSize t)
         ((page t - 1) * pageSize t + pageSize t)) in
  set_filteredData filteredData t.

(** The setter of [data]. *)
Definition setData (t : Table) (rows : list DatatableData) : Table :=
  updateSelection (applyFilters (set_data rows t)).

(** [onSearchFilterChange (event)], when the throttle lets it run. *)
Definition onSearchFilterChange (t : Table) (value : string) : Table :=
  updateSelection (applyFilters (set_searchFilter value t)).

(** [clearSearchFilter ()]. *)
Definition clearSearchFilter (t : Table) : Table :=
  updateSelection (applyFilters (set_searchFilter "" t)).

(** [onPageChange (page)]. *)
Definition onPageChange (t : Table) (page : Z) : Table :=
  updateSelection (applyFilters (set_page page t)).

(** [onPageSizeChange (pageSize)]. *)
Definition onPageSizeChange (t : Table) (storage : Storage) (pageSize : Z)
  : Table * Storage :=
  let t := set_pageSize pageSize t in
  (updateSelection (applyFilters t), saveState t storage).

(** [onSortChange (c)]. *)
Definition onSortChange (t : Table) (storage : Storage) (c : DatatableColumn)
  : Table * Storage :=
  let prop := getSortProp c in
  if negb (existsb (String.eqb prop) (sortableColumns t))
  then (t, storage)
  else
    let t :=
      if bool_decide (Some prop = sortHeader t)
      then set_sortDirection
             (match sortDirection t with
              | descending => ascending
              | ascending => descending
              end) t
      else set_sortDirection ascending (set_sortHeader (Some prop) t) in
    (updateSelection (applyFilters t), saveState t storage).
End Filters.

End Datatable.

(** The row on display that takes the place of a selected row. *)
Definition refreshed (t : Datatable.Table) (selectedItem : Datatable.DatatableData)
  : option Datatable.DatatableData :=
  List.find (Datatable.sameIdentifier t selectedItem) (Datatable.filteredData t).

(** The other direction. *)
Definition opposite (d : Datatable.SortDirection) : Datatable.SortDirection :=
  match d with
  | Datatable.descending => Datatable.ascending
  | Datatable.ascending => Datatable.descending
  end.

(** A column as [restoreState] leaves it, given the column whose state was
    saved: the stored [hidden] is taken over when the column has a name
    and a value was stored. *)
Definition restoredColumn (column saved : Datatable.DatatableColumn)
  : Datatable.DatatableColumn :=
  if String.eqb (Datatable.name saved) ""
  then column
  else match Datatable.hidden saved with
       | Some h => Datatable.set_hidden (Some h) column
       | None => column
       end.

(** Rows that all have the identifier, no two of them the same one. *)
Definition distinctRows (id : string) (rows : list Datatable.DatatableData) : Prop :=
  Forall (fun row => is_Some (row !! id)) rows
  /\ NoDup (map (fun row => Datatable.get row id) rows).

(** What can happen to a table: the user clicks a row on display, the
    header check box, a column header, changes page, page size or search
    text, hides a column; the owner of the table clears the selection or
    hands in new data, whose rows have distinct identifiers. *)
Inductive tableStep
          (orderBy : list Datatable.DatatableData -> option string ->
                     Datatable.SortDirection -> list Datatable.DatatableData)
          (matchesSearch : list Datatable.DatatableColumn -> string ->
                           Datatable.DatatableData -> bool)
  : Datatable.Table -> Datatable.Table -> Prop :=
| step_onSelectRow (t : Datatable.Table) (row : Datatable.DatatableData) :
    In row (Datatable.filteredData t) ->
    tableStep orderBy matchesSearch t (fst (Datatable.onSelectRow t row))
| step_onHeaderSelectRows (t : Datatable.Table) :
    tableStep orderBy matchesSearch t (fst (Datatable.onHeaderSelectRows t))
| step_clearSelection (t : Datatable.Table) :
    tableStep orderBy matchesSearch t (Datatable.clearSelection t)
| step_setData (t : Datatable.Table) (rows : list Datatable.DatatableData) :
    distinctRows (Datatable.identifier t) rows ->
    tableStep orderBy matchesSearch t (Datatable.setData orderBy matchesSearch t rows)
| step_onPageChange (t : Datatable.Table) (page : Z) :
    tableStep orderBy matchesSearch t
      (Datatable.onPageChange orderBy matchesSearch t page)
| step_onPageSizeChange (t : Datatable.Table) (storage : Datatable.Storage)
                        (pageSize : Z) :
    tableStep orderBy matchesSearch t
      (fst (Datatable.onPageSizeChange orderBy matchesSearch t storage pageSize))
| step_onSearchFilterChange (t : Datatable.Table) (value : string) :
    tableStep orderBy matchesSearch t
      (Datatable.onSearchFilterChange orderBy matchesSearch t value)
| step_clearSearchFilter (t : Datatable.Table) :
    tableStep orderBy matchesSearch t
      (Datatable.clearSearchFilter orderBy matchesSearch t)
| step_onSortChange (t : Datatable.Table) (storage : Datatable.Storage)
                    (c : Datatable.DatatableColumn) :
    tableStep orderBy matchesSearch t
      (fst (Datatable.onSortChange orderBy matchesSearch t storage c))
| step_onToggleColumn (t : Datatable.Table) (storage : Datatable.Storage)
                      (index : nat) :
    tableStep orderBy matchesSearch t (fst (Datatable.onToggleColumn t storage index)).

(** The state of a table in which "all rows selected" can be trusted. *)
Definition selectionInvariant (t : Datatable.Table) : Prop :=
  distinctRows (Datatable.identifier t) (Datatable.data t)
  /\ distinctRows (Datatable.identifier t) (Datatable.filteredData t)
  /\ distinctRows (Datatable.identifier t) (Datatable.selected t)
  /\ (forall row, In row (Datatable.selected t) -> In row (Datatable.filteredData t))
  /\ Datatable.isAllRowsSelected t
     = ((0 <? length (Datatable.selected t))%nat
        && (length (Datatable.selected t) =? length (Datatable.filteredData t))%nat).

(** * Properties *)

#[local] Arguments String.append !_ _ / : simpl nomatch.

(** ** Key and prefix path model *)

Section PathModelFacts.
Variable d : ascii.

Lemma append_empty_r (s : string) : s +:+ EmptyString = s.
Proof. induction s; simpl; congruence. Qed.

Lemma append_snoc (cur seg : string) (c : ascii) :
  (cur +:+ String c EmptyString) +:+ seg = cur +:+ String c seg.
Proof. induction cur; simpl; congruence. Qed.

Lemma splitRaw_delimiterFree (seg cur rest : string) :
  delimiterFree d seg = true ->
  splitRaw d cur (seg +:+ rest) = splitRaw d (cur +:+ seg) rest.
Proof.
  revert cur. induction seg as [|c seg IH]; intros cur Hfree; simpl in *.
  - now rewrite append_empty_r.
  - apply andb_prop in Hfree as [Hc Hseg].
    apply negb_true_iff in Hc. rewrite Hc, IH by assumption.
    now rewrite append_snoc.
Qed.

Lemma splitRaw_join (parts : list string) (p : string) :
  Forall (fun s => delimiterFree d s = true) (p :: parts) ->
  splitRaw d EmptyString (join d (p :: parts)) = p :: parts.
Proof.
  revert p. induction parts as [|q parts IH]; intros p Hall.
  - inversion Hall as [|? ? Hp _]; subst. simpl.
    rewrite <- (append_empty_r p) at 1.
    rewrite splitRaw_delimiterFree by assumption. reflexivity.
  - inversion Hall as [|? ? Hp Hrest]; subst.
    change (join d (p :: q :: parts)) with (p +:+ String d (join d (q :: parts))).
    rewrite splitRaw_delimiterFree by assumption. simpl.
    rewrite Ascii.eqb_refl. f_equal. apply IH. assumption.
Qed.

Lemma filter_nonEmpty_id (parts : list string) :
  Forall (fun s => nonEmpty s = true) parts -> List.filter nonEmpty parts = parts.
Proof.
  induction 1 as [|s parts Hs _ IH]; simpl; [reflexivity|].
  rewrite Hs. congruence.
Qed.
End PathModelFacts.

(** C9.  Splitting the prefix built from a list of segments, without a
    trailing delimiter, gives the segments back, provided every segment is
    non-empty and free of the delimiter.  ([splitKey] and [buildPrefix] are
    functions of the embedding, hence pure and deterministic.) *)
Theorem C9_splitKey_buildPrefix_roundtrip (d : ascii) (segments : list string) :
  Forall (fun s => nonEmpty s = true /\ delimiterFree d s = true) segments ->
  splitKey d (buildPrefix d segments false) = segments.
Proof.
  intros Hall. unfold splitKey, buildPrefix.
  destruct segments as [|p parts]; [reflexivity|].
  rewrite splitRaw_join.
  - apply filter_nonEmpty_id. eapply Forall_impl; [exact Hall|]. intros s [H _]; exact H.
  - eapply Forall_impl; [exact Hall|]. intros s [_ H]; exact H.
Qed.

Lemma C9_witness :
  splitKey "/" (buildPrefix "/" ["photos"; "2024"; "raw"] false) = ["photos"; "2024"; "raw"].
Proof.
  apply (C9_splitKey_buildPrefix_roundtrip "/" ["photos"; "2024"; "raw"]).
  repeat constructor.
Defined.

(** ** Version reconciliation *)

Lemma loadData_next_objects (p : Page) (records : S3ObjectVersionList) :
  objects (loadData_next p records) =
  objects p ++ filterBy true false records
            ++ (if showDeletedObjects p then filterBy true true records else []).
Proof.
  unfold loadData_next. simpl. destruct (showDeletedObjects p); simpl.
  - reflexivity.
  - now rewrite app_nil_r.
Qed.

Lemma filterBy_latest (d : bool) (records : S3ObjectVersionList) :
  Forall (fun o => IsLatest o = true) (filterBy true d records).
Proof.
  apply List.Forall_forall. intros o Hin. apply List.filter_In in Hin as [_ Ho].
  apply andb_prop in Ho as [Hl _]. destruct (IsLatest o); [reflexivity|discriminate].
Qed.

(** C1.  After a reload that received the list [records], the rows on
    display are the latest, non-deleted records in input order, followed,
    only if "show deleted" is on, by the latest, deleted records in input
    order; no record with [IsLatest = false] is on display. *)
Theorem C1_display_row_set (p : Page) (records : S3ObjectVersionList) :
  let shown := objects (reload p (mkObservable [records] Completed)) in
  shown =
    List.filter (fun o => IsLatest o && negb (IsDeleted o)) records
    ++ (if showDeletedObjects p
        then List.filter (fun o => IsLatest o && IsDeleted o) records
        else [])
  /\ Forall (fun o => IsLatest o = true) shown.
Proof.
  assert (Hshown : objects (reload p (mkObservable [records] Completed)) =
                   filterBy true false records
                   ++ (if showDeletedObjects p then filterBy true true records else [])).
  { unfold reload, loadData_subscriber. cbn [values ending fold_left].
    unfold set_firstLoadComplete, loadData_complete, set_pageStatus. cbn [objects].
    rewrite loadData_next_objects. reflexivity. }
  cbv zeta. rewrite Hshown. split.
  - unfold filterBy. f_equal.
    + apply List.filter_ext. intros o. now destruct (IsLatest o), (IsDeleted o).
    + destruct (showDeletedObjects p); [|reflexivity].
      apply List.filter_ext. intros o. now destruct (IsLatest o), (IsDeleted o).
  - apply Forall_app. split; [apply filterBy_latest|].
    destruct (showDeletedObjects p); [apply filterBy_latest|constructor].
Qed.







(** The example listing: a live object with one older version, and a
    delete marker. *)
Example listing_with_deleted :
  map Key (objects Example.listedPage) = ["a.txt"; "b.txt"]
  /\ objectNumVersions Example.listedPage !! "a.txt" = Some 2
  /\ objectNumVersions Example.listedPage !! "b.txt" = Some 1
  /\ objectNumVersions Example.listedPage !! "c.txt" = None.
Proof. repeat split; vm_compute; reflexivity. Qed.

Example listing_without_deleted :
  map Key (objects (reload (set_showDeletedObjects false Example.freshPage)
                      (mkObservable [[Example.liveRow; Example.oldRow; Example.markerRow]]
                         Completed)))
  = ["a.txt"].
Proof. vm_compute. reflexivity. Qed.

(** ** Expanded-row attribute cache *)

Section ExpandedRowsFacts.
Variable bytesToSize : JsVal -> string.
Variable localeDate : JsVal -> string.

Local Abbreviation expandRow' := (expandRow bytesToSize localeDate).
Local Abbreviation deletedAttrs' := (deletedAttrs bytesToSize localeDate).
Local Abbreviation entryFor' := (entryFor bytesToSize localeDate).

Lemma deletedAttrs_index (p q : Page) (o : S3ObjectVersion) :
  objectNumVersions q = objectNumVersions p -> deletedAttrs' q o = deletedAttrs' p o.
Proof. intros H. unfold deletedAttrs, numVersions. now rewrite H. Qed.

Lemma find_key_absent (objects : S3ObjectVersionList) (key : string) :
  key ∉ map Key objects ->
  List.find (fun o => String.eqb (Key o) key) objects = None.
Proof.
  induction objects as [|o objects IH]; simpl; [reflexivity|].
  intros Hnot. apply not_elem_of_cons in Hnot as [Hne Hrest].
  destruct (String.eqb_spec (Key o) key); [congruence|auto].
Qed.

(** What is cached under a key is found by [_.has]. *)
Lemma has_member (cache : gmap string (gmap string JsVal)) (key : string)
      (e : gmap string JsVal) :
  cache !! key = Some e -> Lodash.has cache key = true.
Proof.
  intros H. unfold Lodash.has, Lodash.castPath, Lodash.isKey.
  rewrite (bool_decide_eq_true_2 (is_Some (cache !! key))) by (now exists e).
  rewrite orb_true_r. cbn. now rewrite H.
Qed.

(** What [_.has] finds is cached under the key, or the first key of the
    path is. *)
Lemma has_cases (cache : gmap string (gmap string JsVal)) (key : string) :
  Lodash.has cache key = true ->
  is_Some (cache !! key) \/ is_Some (cache !! headSegment key).
Proof.
  unfold Lodash.has, Lodash.castPath, Lodash.isKey, headSegment.
  destruct (Lodash.reIsPlainProp key || negb (Lodash.reIsDeepProp key)) eqn:Hplain.
  - cbn. destruct (cache !! key) as [e|]; [intros _; left; now exists e|discriminate].
  - cbn [orb]. case_bool_decide as Hmember; [intros _; now left|].
    destruct (Lodash.stringToPath key) as [|segment rest]; [discriminate|].
    cbn. destruct (cache !! segment) as [e|]; [intros _; right; now exists e|discriminate].
Qed.

Lemma has_absent (cache : gmap string (gmap string JsVal)) (key : string) :
  cache !! key = None -> cache !! headSegment key = None ->
  Lodash.has cache key = false.
Proof.
  intros Hkey Hhead. destruct (Lodash.has cache key) eqn:Hhas; [|reflexivity].
  destruct (has_cases cache key Hhas) as [[e He]|[e He]]; congruence.
Qed.

Lemma has_lookup (cache : gmap string (gmap string JsVal)) (key : string) :
  headSegment key = key \/ cache !! headSegment key = None ->
  Lodash.has cache key = bool_decide (is_Some (cache !! key)).
Proof.
  intros Hhead. destruct (cache !! key) as [e|] eqn:Hkey.
  - rewrite (has_member _ _ _ Hkey). symmetry. apply bool_decide_eq_true_2. now exists e.
  - rewrite bool_decide_eq_false_2 by (intros [e He]; discriminate).
    apply has_absent; [exact Hkey|]. destruct Hhead as [-> | H]; assumption.
Qed.

Lemma expandRow_cached (p : Page) (sources : list S3Call) (o : S3ObjectVersion) :
  Lodash.has (objectAttrsCache p) (Key o) = true ->
  expandRow' (p, sources) o = (p, sources).
Proof. intros H. unfold expandRow. now rewrite H. Qed.

Lemma expandRow_deleted (p : Page) (sources : list S3Call) (o : S3ObjectVersion) :
  Lodash.has (objectAttrsCache p) (Key o) = false -> IsDeleted o = true ->
  expandRow' (p, sources) o =
  (set_objectAttrsCache (<[Key o := deletedAttrs' p o]> (objectAttrsCache p))
     (set_loadingObjectAttrsKeys (loadingObjectAttrsKeys p ++ [Key o]) p),
   sources).
Proof. intros H Hd. unfold expandRow. now rewrite H, Hd. Qed.

Lemma expandRow_live (p : Page) (sources : list S3Call) (o : S3ObjectVersion) :
  Lodash.has (objectAttrsCache p) (Key o) = false -> IsDeleted o = false ->
  expandRow' (p, sources) o =
  (set_loadingObjectAttrsKeys (loadingObjectAttrsKeys p ++ [Key o]) p,
   sources ++ [fetch p o]).
Proof. intros H Hd. unfold expandRow. now rewrite H, Hd. Qed.

Lemma readAsKeys_apart (cache : gmap string (gmap string JsVal))
      (objects : S3ObjectVersionList) :
  readAsKeys cache objects = true -> keysApart cache (map Key objects) objects.
Proof.
  unfold readAsKeys, keysApart, readAsKey. rewrite forallb_forall.
  intros H o Hin. specialize (H o Hin). cbv zeta in H.
  apply orb_true_iff in H as [H|H].
  - left. now apply String.eqb_eq.
  - right. apply negb_true_iff, orb_false_iff in H as [Hcached Hkeys].
    apply bool_decide_eq_false in Hcached. split.
    + destruct (cache !! headSegment (Key o)) as [e|]; [|reflexivity].
      exfalso. apply Hcached. now exists e.
    + intros Hk. apply not_true_iff_false in Hkeys. apply Hkeys.
      apply existsb_exists. exists (headSegment (Key o)). split; [exact Hk|].
      apply String.eqb_refl.
Qed.

Lemma expandRow_fold (objects : S3ObjectVersionList) :
  forall (p : Page) (sources : list S3Call) (keys : list string),
    NoDup (map Key objects) ->
    incl (map Key objects) keys ->
    keysApart (objectAttrsCache p) keys objects ->
    let result := fold_left expandRow' objects (p, sources) in
    objectNumVersions (fst result) = objectNumVersions p
    /\ bid (fst result) = bid p
    /\ (forall key, objectAttrsCache (fst result) !! key = entryFor' p objects key)
    /\ snd result = sources ++ map (fetch p) (List.filter (toFetch p) objects).
Proof.
  induction objects as [|o objects IH]; intros p sources keys Hdup Hincl Hapart; cbv zeta.
  - simpl. repeat split.
    + intros key. unfold entryFor. simpl. now destruct (objectAttrsCache p !! key).
    + now rewrite app_nil_r.
  - change (map Key (o :: objects)) with (Key o :: map Key objects) in Hdup, Hincl.
    inversion Hdup as [|? ? Hfresh Hdup']; subst. clear Hdup.
    assert (Hincl' : incl (map Key objects) keys)
      by (intros k Hk; apply Hincl; now right).
    assert (Hkey : In (Key o) keys) by (apply Hincl; now left).
    assert (Hhas : Lodash.has (objectAttrsCache p) (Key o)
                   = bool_decide (is_Some (objectAttrsCache p !! Key o))).
    { apply has_lookup. destruct (Hapart o (or_introl eq_refl)) as [H|[H _]]; auto. }
    assert (Hrest : forall cache,
               (forall k, k <> Key o -> cache !! k = objectAttrsCache p !! k) ->
               keysApart cache keys objects).
    { intros cache Hsame o' Hin'.
      destruct (Hapart o' (or_intror Hin')) as [H|[Hnone Hnot]]; [now left|right].
      split; [|exact Hnot]. rewrite Hsame; [exact Hnone|].
      intros Heq. apply Hnot. now rewrite Heq. }
    cbn [fold_left].
    destruct (objectAttrsCache p !! Key o) as [e|] eqn:Hcached.
    + (* already cached: nothing happens *)
      rewrite bool_decide_eq_true_2 in Hhas by (now exists e).
      rewrite (expandRow_cached _ _ _ Hhas).
      destruct (IH p sources keys Hdup' Hincl' (Hrest _ (fun _ _ => eq_refl)))
        as (Hidx & Hbid & Hcache & Hsrc).
      repeat split; try assumption.
      * intros key. rewrite Hcache. unfold entryFor. simpl.
        destruct (objectAttrsCache p !! key) eqn:Hk; [reflexivity|].
        destruct (String.eqb_spec (Key o) key) as [Heq|Hne]; [congruence|reflexivity].
      * rewrite Hsrc. simpl. unfold toFetch at 2. rewrite Hcached.
        rewrite bool_decide_eq_false_2 by discriminate.
        now rewrite andb_false_r.
    + rewrite bool_decide_eq_false_2 in Hhas by (intros [e He]; discriminate).
      destruct (IsDeleted o) eqn:Hdel.
      * (* a delete marker: the record is made on the spot *)
        rewrite (expandRow_deleted _ _ _ Hhas Hdel).
        set (p1 := set_objectAttrsCache _ _).
        assert (Hapart1 : keysApart (objectAttrsCache p1) keys objects).
        { apply Hrest. intros k Hk. subst p1. cbn [objectAttrsCache set_objectAttrsCache
            set_loadingObjectAttrsKeys]. now rewrite lookup_insert_ne by congruence. }
        destruct (IH p1 sources keys Hdup' Hincl' Hapart1) as (Hidx & Hbid & Hcache & Hsrc).
        repeat split; try assumption.
        -- intros key. rewrite Hcache. unfold entryFor. simpl.
           destruct (String.eqb_spec (Key o) key) as [Heq|Hne].
           ++ subst key. rewrite Hcached, Hdel, lookup_insert_eq. reflexivity.
           ++ rewrite lookup_insert_ne by assumption.
              destruct (objectAttrsCache p !! key); [reflexivity|].
              destruct (List.find _ objects) as [o'|]; [|reflexivity].
              destruct (IsDeleted o'); reflexivity.
        -- rewrite Hsrc. simpl. unfold toFetch at 2. rewrite Hdel. simpl.
           f_equal. f_equal. apply List.filter_ext_in. intros o' Hin.
           unfold toFetch. f_equal. simpl.
           rewrite lookup_insert_ne; [reflexivity|].
           intros Heq. apply Hfresh. rewrite Heq.
           apply list_elem_of_In, List.in_map, Hin.
      * (* a live row: one request *)
        rewrite (expandRow_live _ _ _ Hhas Hdel).
        set (p1 := set_loadingObjectAttrsKeys _ _).
        destruct (IH p1 (sources ++ [fetch p o]) keys Hdup' Hincl'
                    (Hrest _ (fun _ _ => eq_refl)))
          as (Hidx & Hbid & Hcache & Hsrc).
        repeat split; try assumption.
        -- intros key. rewrite Hcache. unfold entryFor. simpl.
           destruct (objectAttrsCache p !! key) eqn:Hk; [reflexivity|].
           destruct (String.eqb_spec (Key o) key) as [Heq|Hne]; [|reflexivity].
           subst key. rewrite Hdel. rewrite find_key_absent by assumption. reflexivity.
        -- rewrite Hsrc. simpl. unfold toFetch at 2. rewrite Hdel, Hcached.
           rewrite bool_decide_eq_true_2 by reflexivity. simpl.
           now rewrite <- app_assoc.
Qed.
End ExpandedRowsFacts.

Section ExpandedRowsClaims.
Variable bytesToSize : JsVal -> string.
Variable localeDate : JsVal -> string.

Local Abbreviation expandRow' := (expandRow bytesToSize localeDate).

Lemma no_fetch_of_absent_key (p : Page) (f : S3ObjectVersion -> bool)
      (objects : S3ObjectVersionList) (key : string) :
  key ∉ map Key objects ->
  List.filter (fetchOf key) (map Subscribe (map (fetch p) (List.filter f objects))) = [].
Proof.
  induction objects as [|o objects IH]; [reflexivity|].
  change (map Key (o :: objects)) with (Key o :: map Key objects).
  intros Hnot. apply not_elem_of_cons in Hnot as [Hne Hrest].
  cbn [List.filter]. destruct (f o); [|auto].
  cbn [map List.filter fetchOf fetch].
  destruct (String.eqb_spec (Key o) key); [congruence|auto].
Qed.

Lemma fetches_of_row (p : Page) (f : S3ObjectVersion -> bool)
      (objects : S3ObjectVersionList) (object : S3ObjectVersion) :
  NoDup (map Key objects) -> In object objects ->
  List.filter (fetchOf (Key object))
    (map Subscribe (map (fetch p) (List.filter f objects)))
  = if f object then [Subscribe (fetch p object)] else [].
Proof.
  induction objects as [|o objects IH]; [intros _ []|].
  change (map Key (o :: objects)) with (Key o :: map Key objects).
  intros Hdup Hin. inversion Hdup as [|? ? Hfresh Hdup']; subst.
  destruct Hin as [-> | Hin].
  - cbn [List.filter]. destruct (f object).
    + cbn [map List.filter fetchOf fetch]. rewrite String.eqb_refl.
      now rewrite no_fetch_of_absent_key.
    + now apply no_fetch_of_absent_key.
  - assert (Hne : Key o <> Key object).
    { intros Heq. apply Hfresh. rewrite Heq.
      apply list_elem_of_In, List.in_map, Hin. }
    cbn [List.filter]. destruct (f o); [|auto].
    cbn [map List.filter fetchOf fetch].
    destruct (String.eqb_spec (Key o) (Key object)); [congruence|auto].
Qed.

Lemma find_row (objects : S3ObjectVersionList) (object : S3ObjectVersion) :
  NoDup (map Key objects) -> In object objects ->
  List.find (fun o => String.eqb (Key o) (Key object)) objects = Some object.
Proof.
  induction objects as [|o objects IH]; [intros _ []|].
  change (map Key (o :: objects)) with (Key o :: map Key objects).
  intros Hdup Hin. inversion Hdup as [|? ? Hfresh Hdup']; subst.
  cbn [List.find]. destruct Hin as [-> | Hin].
  - now rewrite String.eqb_refl.
  - destruct (String.eqb_spec (Key o) (Key object)) as [Heq|Hne]; [|auto].
    exfalso. apply Hfresh. rewrite Heq. apply list_elem_of_In, List.in_map, Hin.
Qed.

Lemma deletedAttrs_fields (p : Page) (object : S3ObjectVersion) :
  let attrs := deletedAttrs bytesToSize localeDate p object in
  attrs !! "Size"
    = Some (JStr (bytesToSize (from_option JNum JUndefined (Size object))))
  /\ attrs !! "LastModified"
     = Some (JStr (localeDate (from_option JStr JUndefined (LastModified object))))
  /\ attrs !! "ETag"
     = Some (JStr (trimQuotes (from_option JStr JUndefined (ETag object))))
  /\ attrs !! "ObjectLockMode" = Some (JStr "NONE")
  /\ attrs !! "ObjectLockRetainUntilDate" = Some (JStr "")
  /\ attrs !! "ObjectLockLegalHoldStatus" = Some (JStr "OFF")
  /\ attrs !! "TagSet" = Some (JTagSet [])
  /\ attrs !! "NumVersions" = Some (numVersions p (Key object)).
Proof.
  cbv zeta. unfold deletedAttrs.
  generalize (numVersions p (Key object)) as count.
  generalize (trimQuotes (from_option JStr JUndefined (ETag object))) as etag.
  generalize (localeDate (from_option JStr JUndefined (LastModified object))) as date.
  generalize (bytesToSize (from_option JNum JUndefined (Size object))) as size.
  intros size date etag count.
  destruct object as [key version latest deleted sz modified tag type].
  destruct version, sz, modified, tag; repeat split; vm_compute; reflexivity.
Qed.

(** When the expanded rows have pairwise distinct keys, each looked up as
    the key it is, a key that was not cached is requested not at all
    (delete marker) or exactly once (live row) in the whole batch. *)
Lemma distinct_keys_requests
        (p : Page) (objects : S3ObjectVersionList) (object : S3ObjectVersion)
        (responses : list (option (Outcome (gmap string JsVal)))) :
  NoDup (map Key objects) ->
  readAsKeys (objectAttrsCache p) objects = true ->
  In object objects ->
  objectAttrsCache p !! Key object = None ->
  let entry :=
    objectAttrsCache (fst (collectSources bytesToSize localeDate p objects))
      !! Key object in
  let fetches :=
    List.filter (fetchOf (Key object))
      (snd (onExpandedRowsChange bytesToSize localeDate p objects responses)) in
  if IsDeleted object
  then fetches = []
       /\ exists attrs,
           entry = Some attrs
           /\ attrs !! "Size"
              = Some (JStr (bytesToSize (from_option JNum JUndefined (Size object))))
           /\ attrs !! "LastModified"
              = Some (JStr (localeDate
                              (from_option JStr JUndefined (LastModified object))))
           /\ attrs !! "ETag"
              = Some (JStr (trimQuotes (from_option JStr JUndefined (ETag object))))
           /\ attrs !! "ObjectLockMode" = Some (JStr "NONE")
           /\ attrs !! "ObjectLockRetainUntilDate" = Some (JStr "")
           /\ attrs !! "ObjectLockLegalHoldStatus" = Some (JStr "OFF")
           /\ attrs !! "TagSet" = Some (JTagSet [])
           /\ attrs !! "NumVersions"
              = Some (match objectNumVersions p !! Key object with
                      | Some n => JNum (Z.of_nat n)
                      | None => JUndefined
                      end)
  else fetches = [Subscribe (GetObjectAttributes (bid p) (Key object) (VersionId object))]
       /\ entry = None.
Proof.
  intros Hdup Hread Hin Hfresh. cbv zeta.
  pose proof (expandRow_fold bytesToSize localeDate objects
                (set_loadingObjectAttrsKeys [] p) [] (map Key objects) Hdup
                (fun k Hk => Hk) (readAsKeys_apart _ _ Hread)) as Hfold.
  cbv zeta in Hfold. fold (collectSources bytesToSize localeDate p objects) in Hfold.
  destruct Hfold as (_ & _ & Hcache & Hsrc).
  assert (Heff : snd (onExpandedRowsChange bytesToSize localeDate p objects responses)
                 = map Subscribe (snd (collectSources bytesToSize localeDate p objects))).
  { unfold onExpandedRowsChange.
    destruct (collectSources bytesToSize localeDate p objects); reflexivity. }
  rewrite Heff, Hsrc, Hcache. cbn [app].
  rewrite (fetches_of_row _ _ _ _ Hdup Hin).
  unfold entryFor, toFetch. cbn [objectAttrsCache set_loadingObjectAttrsKeys].
  rewrite Hfresh, (find_row _ _ Hdup Hin).
  destruct (IsDeleted object) eqn:Hdel; cbn [negb andb].
  - split; [reflexivity|].
    eexists. split; [reflexivity|].
    apply (deletedAttrs_fields (set_loadingObjectAttrsKeys [] p) object).
  - rewrite bool_decide_eq_true_2 by reflexivity. split; reflexivity.
Qed.

Lemma expandRow_frame (objects : S3ObjectVersionList) (acc : Page * list S3Call) :
  objectNumVersions (fst (fold_left expandRow' objects acc)) = objectNumVersions (fst acc)
  /\ bid (fst (fold_left expandRow' objects acc)) = bid (fst acc)
  /\ exists more, snd (fold_left expandRow' objects acc) = snd acc ++ more.
Proof.
  revert acc. induction objects as [|o objects IH]; intros [p sources].
  - repeat split. exists []. now rewrite app_nil_r.
  - cbn [fold_left]. destruct (IH (expandRow' (p, sources) o)) as (Hidx & Hbid & more & Hsrc).
    rewrite Hidx, Hbid, Hsrc. unfold expandRow.
    destruct (Lodash.has (objectAttrsCache p) (Key o)); [|destruct (IsDeleted o)];
      cbn [fst snd].
    + repeat split. now exists more.
    + repeat split. now exists more.
    + repeat split. eexists. now rewrite <- app_assoc.
Qed.

Lemma expandRow_keeps (objects : S3ObjectVersionList) (acc : Page * list S3Call)
      (key : string) (attrs : gmap string JsVal) :
  objectAttrsCache (fst acc) !! key = Some attrs ->
  objectAttrsCache (fst (fold_left expandRow' objects acc)) !! key = Some attrs.
Proof.
  revert acc. induction objects as [|o objects IH]; intros [p sources] Hkey; [exact Hkey|].
  cbn [fold_left]. apply IH. unfold expandRow. cbn [fst] in Hkey.
  destruct (Lodash.has (objectAttrsCache p) (Key o)) eqn:Ho; [exact Hkey|].
  destruct (IsDeleted o); cbn [fst objectAttrsCache set_objectAttrsCache
                                 set_loadingObjectAttrsKeys]; [|exact Hkey].
  rewrite lookup_insert_ne; [exact Hkey|]. intros Heq.
  rewrite Heq in Ho. now rewrite (has_member _ _ _ Hkey) in Ho.
Qed.

Lemma trimStart_quotes (s : string) :
  exists n, s = quotes n +:+ trimStart doubleQuote s
            /\ firstChar (trimStart doubleQuote s) <> Some doubleQuote.
Proof.
  induction s as [|a rest IH].
  - exists 0. split; [reflexivity|discriminate].
  - cbn [trimStart]. destruct (Ascii.eqb_spec a doubleQuote) as [->|Hne].
    + destruct IH as (n & Hrest & Hfirst). exists (S n).
      split; [|exact Hfirst]. cbn [quotes]. simpl. now rewrite <- Hrest.
    + exists 0. split; [reflexivity|]. cbn. congruence.
Qed.

Lemma trimEnd_quotes (s : string) :
  exists m, s = trimEnd doubleQuote s +:+ quotes m
            /\ lastChar (trimEnd doubleQuote s) <> Some doubleQuote
            /\ (firstChar s <> Some doubleQuote ->
                firstChar (trimEnd doubleQuote s) <> Some doubleQuote).
Proof.
  induction s as [|a rest IH].
  - exists 0. repeat split; discriminate.
  - destruct IH as (m & Hrest & Hlast & _). cbn [trimEnd].
    destruct (trimEnd doubleQuote rest) as [|b t] eqn:Htrim.
    + destruct (Ascii.eqb_spec a doubleQuote) as [->|Hne].
      * exists (S m). split; [|split].
        -- cbn [quotes]. simpl. simpl in Hrest. now rewrite <- Hrest.
        -- discriminate.
        -- cbn. congruence.
      * exists m. split; [|split].
        -- simpl. simpl in Hrest. now rewrite <- Hrest.
        -- cbn. congruence.
        -- cbn. congruence.
    + exists m. split; [|split].
      * simpl. simpl in Hrest. now rewrite <- Hrest.
      * exact Hlast.
      * cbn. congruence.
Qed.

(** [_.trim (value, quote)] takes the double quotes off both ends of a
    string, all of them, and nothing else. *)
Lemma trimQuotes_spec (value : option string) :
  let stripped := trimQuotes (from_option JStr JUndefined value) in
  firstChar stripped <> Some doubleQuote
  /\ lastChar stripped <> Some doubleQuote
  /\ match value with
     | Some text => exists n m, text = quotes n +:+ stripped +:+ quotes m
     | None => stripped = EmptyString
     end.
Proof.
  destruct value as [text|]; cbn [from_option trimQuotes]; cbv zeta.
  - destruct (trimStart_quotes text) as (n & Hstart & Hfirst).
    destruct (trimEnd_quotes (trimStart doubleQuote text)) as (m & Hend & Hlast & Hkeep).
    split; [exact (Hkeep Hfirst)|]. split; [exact Hlast|].
    exists n, m. rewrite <- Hend. exact Hstart.
  - repeat split; discriminate.
Qed.

(** X27.  Take an expanded-rows event and a row of it such that, when the
    loop reaches the row, neither its key nor the first key of the path
    read in its key is in the cache.  If the row is a delete marker, the
    loop adds no attribute request for it and caches a record made on the
    spot, which is still there when the loop ends: Size from
    [bytesToSize], LastModified from the locale date pipe, ETag with every
    double quote taken off its two ends and nothing else changed,
    ObjectLockMode 'NONE', ObjectLockRetainUntilDate '',
    ObjectLockLegalHoldStatus 'OFF', an empty TagSet, and NumVersions read
    from the version-count index.  Otherwise the loop adds exactly one
    attribute request, for this row, and leaves the cache alone.  The
    requests collected by the loop are the requests sent. *)
Theorem uncached_row_loaded
        (p : Page) (earlier : S3ObjectVersionList) (object : S3ObjectVersion)
        (later : S3ObjectVersionList)
        (responses : list (option (Outcome (gmap string JsVal)))) :
  let before := collectSources bytesToSize localeDate p earlier in
  let here := collectSources bytesToSize localeDate p (earlier ++ [object]) in
  let done := collectSources bytesToSize localeDate p (earlier ++ object :: later) in
  objectAttrsCache (fst before) !! Key object = None ->
  objectAttrsCache (fst before) !! headSegment (Key object) = None ->
  (exists more,
      snd (onExpandedRowsChange bytesToSize localeDate p
             (earlier ++ object :: later) responses)
      = map Subscribe (snd here ++ more))
  /\ if IsDeleted object
     then snd here = snd before
          /\ exists attrs stripped,
              objectAttrsCache (fst done) !! Key object = Some attrs
              /\ attrs !! "Size"
                 = Some (JStr (bytesToSize (from_option JNum JUndefined (Size object))))
              /\ attrs !! "LastModified"
                 = Some (JStr (localeDate
                                 (from_option JStr JUndefined (LastModified object))))
              /\ attrs !! "ETag" = Some (JStr stripped)
              /\ firstChar stripped <> Some doubleQuote
              /\ lastChar stripped <> Some doubleQuote
              /\ match ETag object with
                 | Some text => exists n m, text = quotes n +:+ stripped +:+ quotes m
                 | None => stripped = EmptyString
                 end
              /\ attrs !! "ObjectLockMode" = Some (JStr "NONE")
              /\ attrs !! "ObjectLockRetainUntilDate" = Some (JStr "")
              /\ attrs !! "ObjectLockLegalHoldStatus" = Some (JStr "OFF")
              /\ attrs !! "TagSet" = Some (JTagSet [])
              /\ attrs !! "NumVersions"
                 = Some (match objectNumVersions p !! Key object with
                         | Some n => JNum (Z.of_nat n)
                         | None => JUndefined
                         end)
     else snd here
          = snd before ++ [GetObjectAttributes (bid p) (Key object) (VersionId object)]
          /\ objectAttrsCache (fst here) = objectAttrsCache (fst before).
Proof.
  cbv zeta. intros Hkey Hhead.
  pose proof (has_absent _ _ Hkey Hhead) as Hfresh.
  assert (Hhere : collectSources bytesToSize localeDate p (earlier ++ [object])
                  = expandRow' (collectSources bytesToSize localeDate p earlier) object).
  { unfold collectSources. now rewrite fold_left_app. }
  assert (Hdone : collectSources bytesToSize localeDate p (earlier ++ object :: later)
                  = fold_left expandRow' later
                      (collectSources bytesToSize localeDate p (earlier ++ [object]))).
  { unfold collectSources. rewrite !fold_left_app. reflexivity. }
  destruct (expandRow_frame earlier (set_loadingObjectAttrsKeys [] p, []))
    as (Hidx & Hbid & _).
  fold (collectSources bytesToSize localeDate p earlier) in Hidx, Hbid.
  cbn [fst objectNumVersions bid set_loadingObjectAttrsKeys] in Hidx, Hbid.
  split.
  - unfold onExpandedRowsChange. rewrite Hdone.
    destruct (expandRow_frame later
                (collectSources bytesToSize localeDate p (earlier ++ [object])))
      as (_ & _ & more & Hmore).
    destruct (fold_left expandRow' later _) as [p' sources]. cbn [snd] in *.
    exists more. now rewrite Hmore.
  - rewrite Hdone, Hhere.
    destruct (collectSources bytesToSize localeDate p earlier) as [q sources].
    cbn [fst snd] in *.
    destruct (IsDeleted object) eqn:Hdel.
    + rewrite (expandRow_deleted _ _ q sources object Hfresh Hdel). cbn [snd].
      split; [reflexivity|].
      exists (deletedAttrs bytesToSize localeDate q object),
             (trimQuotes (from_option JStr JUndefined (ETag object))).
      split.
      * apply expandRow_keeps. cbn [fst objectAttrsCache set_objectAttrsCache].
        apply lookup_insert_eq.
      * pose proof (deletedAttrs_fields q object) as Hfields. cbv zeta in Hfields.
        unfold numVersions in Hfields. rewrite Hidx in Hfields.
        destruct Hfields as (F1 & F2 & F3 & F4 & F5 & F6 & F7 & F8).
        destruct (trimQuotes_spec (ETag object)) as (T1 & T2 & T3).
        repeat (split; [assumption|]). assumption.
    + rewrite (expandRow_live _ _ q sources object Hfresh Hdel). cbn [fst snd].
      unfold fetch. rewrite Hbid. split; reflexivity.
Qed.

(** After a merge step the cache holds expanded rows only. *)
Lemma merge_step_purges (objects : S3ObjectVersionList) (p : Page)
      (objAttrs : list (gmap string JsVal)) (key : string) :
  is_Some (objectAttrsCache
             (onAttrsLoaded bytesToSize localeDate objects p objAttrs) !! key) ->
  hasKey objects key = true.
Proof.
  unfold onAttrsLoaded, purgeCollapsed. cbn [objectAttrsCache set_objectAttrsCache].
  intros [e He]. apply map_lookup_filter_Some in He as [_ H]. exact H.
Qed.
End ExpandedRowsClaims.

Lemma uncached_row_loaded_witness :
  snd (collectSources (fun _ => "0 B") (fun _ => "1/2/2024") Example.listedPage
         [Example.liveRow; Example.markerRow])
  = snd (collectSources (fun _ => "0 B") (fun _ => "1/2/2024") Example.listedPage
           [Example.liveRow]).
Proof.
  assert (Hkey : objectAttrsCache
                   (fst (collectSources (fun _ => "0 B") (fun _ => "1/2/2024")
                           Example.listedPage [Example.liveRow]))
                 !! Key Example.markerRow = None) by (vm_compute; reflexivity).
  assert (Hhead : objectAttrsCache
                    (fst (collectSources (fun _ => "0 B") (fun _ => "1/2/2024")
                            Example.listedPage [Example.liveRow]))
                  !! headSegment (Key Example.markerRow) = None)
    by (vm_compute; reflexivity).
  exact (proj1 (proj2 (uncached_row_loaded (fun _ => "0 B") (fun _ => "1/2/2024")
                         Example.listedPage [Example.liveRow] Example.markerRow [] []
                         Hkey Hhead))).
Defined.

(** C6.  A listing holds an object [a] and a delete marker whose key is
    [a.ETag].  The object is expanded and its attributes are cached; then
    the marker is expanded as well.  The key of the marker is not in the
    cache, yet [_.has] reads it as the path from [a] to the ETag of the
    cached record and finds it: no record is made for the marker, and none
    is fetched.  A marker whose key names no such path gets its record. *)
Theorem C6_dotted_key_skipped (bytesToSize localeDate : JsVal -> string) :
  let before := Example.afterPlain bytesToSize localeDate in
  let after := Example.afterDotted bytesToSize localeDate in
  map Key (objects before) = ["a"; "a.ETag"]
  /\ IsDeleted Example.dottedMarker = true
  /\ dom (objectAttrsCache before) = ({["a"]} : gset string)
  /\ objectAttrsCache before !! Key Example.dottedMarker = None
  /\ Lodash.has (objectAttrsCache before) (Key Example.dottedMarker) = true
  /\ dom (objectAttrsCache (fst after)) = ({["a"]} : gset string)
  /\ snd after = []
  /\ dom (objectAttrsCache
            (fst (onExpandedRowsChange bytesToSize localeDate
                    (Example.afterExpand bytesToSize localeDate)
                    [Example.liveRow; Example.markerRow] [])))
     = ({["a.txt"; "b.txt"]} : gset string).
Proof. repeat split; vm_compute; reflexivity. Qed.

(** C7.  Expand a live row and let its attributes arrive, collapse it, then
    expand a delete marker: the collapsed row is still cached next to the
    marker.  The purge sits in the [next] callback of [forkJoin], which is
    not called when a batch has nothing to fetch. *)
Theorem C7_collapsed_row_stays_cached (bytesToSize localeDate : JsVal -> string) :
  dom (objectAttrsCache (Example.afterExpand bytesToSize localeDate))
  = ({["a.txt"]} : gset string)
  /\ dom (objectAttrsCache (Example.afterCollapse bytesToSize localeDate))
     = ({["a.txt"]} : gset string)
  /\ dom (objectAttrsCache (Example.afterSecondExpand bytesToSize localeDate))
     = ({["a.txt"; "b.txt"]} : gset string)
  /\ hasKey [Example.markerRow] "a.txt" = false.
Proof. repeat split; vm_compute; reflexivity. Qed.

(** ** Bulk operations *)

Lemma deleteSources_from (p : Page) (b : bool) (items : S3ObjectVersionList)
      (sources : list S3Call) :
  fold_left (pushDelete p b) items sources = sources ++ map (deleteCall p b) items.
Proof.
  revert sources. induction items as [|item items IH]; intros sources; simpl.
  - now rewrite app_nil_r.
  - rewrite IH. unfold pushDelete, deleteCall.
    destruct (Type_ item); now rewrite <- app_assoc.
Qed.

Lemma deleteSources_map (p : Page) (b : bool) (items : S3ObjectVersionList) :
  deleteSources p items b = map (deleteCall p b) items.
Proof. unfold deleteSources. now rewrite deleteSources_from. Qed.

Lemma concatFrom_all_succeed {A} (fmt : A -> list (string * string))
      (next note : string) (responses : list (option (Outcome A)))
      (total : nat) (sources : list S3Call) (current : nat) :
  forallb (fun i => match settlement responses i with
                    | Some (Ok _) => true
                    | _ => false
                    end) (seq current (length sources)) = true ->
  List.filter isDelete
    (fst (RxjsUiHelperService.concatFrom fmt next note responses current total sources))
  = List.filter isDelete (map Subscribe sources)
  /\ snd (RxjsUiHelperService.concatFrom fmt next note responses current total sources)
     = Completed.
Proof.
  revert current. induction sources as [|source sources IH]; intros current Hall.
  - split; reflexivity.
  - cbn [length seq forallb] in Hall. apply andb_prop in Hall as [Hnow Hrest].
    cbn [RxjsUiHelperService.concatFrom].
    destruct (settlement responses current) as [[output|message]|]; try discriminate.
    specialize (IH (S current) Hrest).
    destruct (RxjsUiHelperService.concatFrom fmt next note responses (S current) total sources)
      as [effects ending].
    cbn [fst snd] in *. destruct IH as [IHf IHe]. split; [|exact IHe].
    cbn [map List.filter]. destruct (isDelete (Subscribe source)); simpl; now rewrite IHf.
Qed.

Lemma loadData_effects (p : Page) :
  snd (loadData p)
  = [Subscribe (ListObjectVersions (bid p)
                  (buildPrefix (delimiter p) (prefixParts p) true))].
Proof. reflexivity. Qed.

(** C3.  In a confirmed delete, every selected row stands for exactly one
    request, in the order of the selection: a folder row for one
    delete-by-prefix whose prefix is the key of the folder followed by the
    delimiter, an object row for one single-object delete; every request of
    the batch carries the same [allVersions], which is the checkbox of the
    confirmation when the bucket is versioned and [false] otherwise.  When
    the requests all succeed, they are exactly the delete requests sent. *)
Theorem C3_delete_requests (p : Page) (selected : S3ObjectVersionList)
        (deleteAllVersions : bool)
        (responses : list (option (Outcome (list string)))) :
  let allVersions := if isBucketVersioned p then deleteAllVersions else false in
  let requests := deleteSources p selected allVersions in
  requests
  = map (fun item =>
           match Type_ item with
           | FOLDER => DeleteObjectByPrefix (bid p)
                         (Key item +:+ String (delimiter p) EmptyString) allVersions
           | OBJECT => DeleteObject (bid p) (Key item) None (Some allVersions)
           end) selected
  /\ length requests = length selected
  /\ (allSucceed responses (length selected) = true ->
      List.filter isDelete
        (snd (doDelete p selected (Confirmed deleteAllVersions) responses))
      = map Subscribe requests).
Proof.
  cbv zeta. set (b := if isBucketVersioned p then deleteAllVersions else false).
  assert (Hsrc : deleteSources p selected b = map (deleteCall p b) selected).
  { unfold deleteSources. now rewrite deleteSources_from. }
  split; [exact Hsrc|]. split; [now rewrite Hsrc, length_map|].
  intros Hall.
  assert (Hrun : doDelete p selected (Confirmed deleteAllVersions) responses
                 = callbackFn p selected b responses).
  { unfold doDelete, b. now destruct (isBucketVersioned p). }
  rewrite Hrun. unfold callbackFn, RxjsUiHelperService.concat.
  assert (Hlen : length (deleteSources p selected b) = length selected)
    by now rewrite Hsrc, length_map.
  pose proof (concatFrom_all_succeed deletedNames
    "Please wait, deleting object {{ current }} of {{ total }} ({{ percent }}%) ..."
    "The object(s) {{ name }} have been deleted."
    responses (length (deleteSources p selected b)) (deleteSources p selected b) 0) as Hc.
  assert (Hall' : allSucceed responses (length (deleteSources p selected b)) = true)
    by (rewrite Hlen; exact Hall).
  specialize (Hc Hall').
  destruct (RxjsUiHelperService.concatFrom _ _ _ _ _ _ _) as [effects ending].
  cbn [fst snd] in Hc. destruct Hc as [Heff ->].
  pose proof (loadData_effects p) as Hload.
  destruct (loadData p) as [p' reloading]. cbn [snd] in *. subst reloading.
  change (BlockUiStart ?m :: effects ++ [BlockUiStop])
    with ([BlockUiStart m] ++ effects ++ [BlockUiStop]).
  rewrite !List.filter_app, Heff. cbn [List.filter isDelete]. rewrite !app_nil_r.
  cbn [app].
  rewrite Hsrc. clear. induction selected as [|item items IH]; [reflexivity|].
  cbn [map List.filter]. unfold deleteCall at 1. destruct (Type_ item); simpl; now rewrite IH.
Qed.

Lemma C3_witness :
  List.filter isDelete
    (snd (doDelete Example.listedPage
            [Example.liveRow;
             mkObject "docs" None true false None None None FOLDER]
            (Confirmed true) [Some (Ok ["a.txt"]); Some (Ok ["docs/x"; "docs/y"])]))
  = [Subscribe (DeleteObject "bucket" "a.txt" None (Some true));
     Subscribe (DeleteObjectByPrefix "bucket" "docs/" true)].
Proof.
  apply (C3_delete_requests Example.listedPage
           [Example.liveRow; mkObject "docs" None true false None None None FOLDER]
           true [Some (Ok ["a.txt"]); Some (Ok ["docs/x"; "docs/y"])]).
  reflexivity.
Defined.

(** The older page: one request per row as well, but the folder request
    carries the bare key and no request knows about versions. *)
Lemma legacy_delete_requests (p : Page) (selected : S3ObjectVersionList) :
  Legacy.deleteSources p selected
  = map (fun data => match Type_ data with
                     | FOLDER => DeleteObjects (bid p) (Key data)
                     | OBJECT => DeleteObject (bid p) (Key data) None None
                     end) selected.
Proof.
  unfold Legacy.deleteSources.
  enough (H : forall sources,
             fold_left (Legacy.pushDelete p) selected sources
             = sources ++ map (fun data => match Type_ data with
                                           | FOLDER => DeleteObjects (bid p) (Key data)
                                           | OBJECT => DeleteObject (bid p) (Key data) None None
                                           end) selected) by apply H.
  induction selected as [|data rest IH]; intros sources; simpl.
  - now rewrite app_nil_r.
  - rewrite IH. unfold Legacy.pushDelete. destruct (Type_ data); now rewrite <- app_assoc.
Qed.

Lemma delete_calls_kept (p : Page) (b : bool) (items : S3ObjectVersionList) :
  List.filter isDelete (map Subscribe (map (deleteCall p b) items))
  = map Subscribe (map (deleteCall p b) items).
Proof.
  induction items as [|item items IH]; [reflexivity|].
  cbn [map List.filter]. unfold deleteCall at 1. destruct (Type_ item); simpl; now rewrite IH.
Qed.

Lemma concatFrom_run {A} (fmt : A -> list (string * string))
      (next note : string) (responses : list (option (Outcome A)))
      (total : nat) (sources : list S3Call) (current : nat) :
  snd (RxjsUiHelperService.concatFrom fmt next note responses current total sources)
  = (if settledFrom responses current (length sources) then Completed else Outstanding)
  /\ List.filter isDelete
       (fst (RxjsUiHelperService.concatFrom fmt next note responses current total sources))
     = List.filter isDelete
         (map Subscribe (take (startedFrom responses current (length sources)) sources)).
Proof.
  revert current. induction sources as [|source sources IH]; intros current.
  - split; reflexivity.
  - cbn [length settledFrom startedFrom RxjsUiHelperService.concatFrom].
    destruct (settlement responses current) as [[output|message]|].
    + destruct (IH (S current)) as [IHe IHf].
      destruct (RxjsUiHelperService.concatFrom fmt next note responses (S current) total sources)
        as [effects ending].
      cbn [fst snd] in *. split; [exact IHe|].
      cbn [take map List.filter]. destruct (isDelete (Subscribe source)); simpl; now rewrite IHf.
    + split; [reflexivity|]. cbn [fst take map List.filter].
      destruct (isDelete (Subscribe source)); reflexivity.
    + split; [reflexivity|]. cbn [fst take map List.filter].
      destruct (isDelete (Subscribe source)); reflexivity.
Qed.

Lemma concatFrom_no_reload {A} (fmt : A -> list (string * string))
      (next note : string) (responses : list (option (Outcome A)))
      (total : nat) (sources : list S3Call) (current : nat) :
  List.filter isReload (map Subscribe sources) = [] ->
  List.filter isReload
    (fst (RxjsUiHelperService.concatFrom fmt next note responses current total sources))
  = [].
Proof.
  revert current. induction sources as [|source sources IH]; intros current Hnone.
  - reflexivity.
  - cbn [map List.filter] in Hnone.
    destruct (isReload (Subscribe source)) eqn:Hsrc; [discriminate|].
    cbn [RxjsUiHelperService.concatFrom].
    destruct (settlement responses current) as [[output|message]|].
    + specialize (IH (S current) Hnone).
      destruct (RxjsUiHelperService.concatFrom fmt next note responses (S current) total sources).
      cbn [fst] in *. cbn [List.filter]. rewrite Hsrc. cbn [List.filter isReload].
      exact IH.
    + cbn [fst List.filter]. now rewrite Hsrc.
    + cbn [fst List.filter]. now rewrite Hsrc.
Qed.

Lemma deleteSources_no_reload (p : Page) (b : bool) (items : S3ObjectVersionList) :
  List.filter isReload (map Subscribe (deleteSources p items b)) = [].
Proof.
  rewrite deleteSources_map.
  induction items as [|item items IH]; [reflexivity|].
  cbn [map List.filter]. unfold deleteCall at 1. now destruct (Type_ item).
Qed.

Lemma settledFrom_all {A} (responses : list (option (Outcome A))) (n current : nat) :
  forallb (fun i => match settlement responses i with
                    | Some _ => true
                    | None => false
                    end) (seq current n) = true ->
  settledFrom responses current n = true.
Proof.
  revert current. induction n as [|n IH]; intros current Hall; [reflexivity|].
  cbn [seq forallb] in Hall. apply andb_prop in Hall as [Hnow Hrest].
  cbn [settledFrom]. destruct (settlement responses current) as [[output|message]|];
    [now apply IH|reflexivity|discriminate].
Qed.

Lemma callbackFn_run (p : Page) (items : S3ObjectVersionList) (b : bool)
      (responses : list (option (Outcome (list string)))) :
  reloads (snd (callbackFn p items b responses))
  = (if batchSettled responses (length items) then 1 else 0)
  /\ (batchSettled responses (length items) = true ->
      exists before,
        snd (callbackFn p items b responses) = before ++ snd (loadData p)
        /\ reloads before = 0)
  /\ List.filter isDelete (snd (callbackFn p items b responses))
     = map Subscribe (take (started responses (length items)) (deleteSources p items b)).
Proof.
  unfold callbackFn, RxjsUiHelperService.concat, reloads, batchSettled, started.
  assert (Hlen : length (deleteSources p items b) = length items).
  { now rewrite deleteSources_map, length_map. }
  pose proof (concatFrom_no_reload deletedNames
    "Please wait, deleting object {{ current }} of {{ total }} ({{ percent }}%) ..."
    "The object(s) {{ name }} have been deleted."
    responses (length (deleteSources p items b)) (deleteSources p items b) 0
    (deleteSources_no_reload p b items)) as Hquiet.
  pose proof (concatFrom_run deletedNames
    "Please wait, deleting object {{ current }} of {{ total }} ({{ percent }}%) ..."
    "The object(s) {{ name }} have been deleted."
    responses (length (deleteSources p items b)) (deleteSources p items b) 0) as [Hend Hsent].
  rewrite Hlen in Hend, Hsent, Hquiet |- *.
  assert (Hkept : List.filter isDelete
                    (map Subscribe
                       (take (startedFrom responses 0 (length items))
                          (deleteSources p items b)))
                  = map Subscribe
                      (take (startedFrom responses 0 (length items))
                         (deleteSources p items b))).
  { rewrite deleteSources_map, <- fmap_take. apply delete_calls_kept. }
  rewrite Hkept in Hsent. clear Hkept.
  destruct (RxjsUiHelperService.concatFrom _ _ _ _ _ _ _) as [effects ending].
  cbn [fst snd] in *. subst ending.
  pose proof (loadData_effects p) as Hload.
  destruct (settledFrom responses 0 (length items)).
  - destruct (loadData p) as [p' reloading]. cbn [snd] in *. subst reloading.
    change (BlockUiStart ?m :: effects ++ [BlockUiStop])
      with ([BlockUiStart m] ++ effects ++ [BlockUiStop]).
    split; [|split].
    + rewrite !List.filter_app, Hquiet. reflexivity.
    + intros _. eexists. split; [reflexivity|].
      rewrite !List.filter_app, Hquiet. reflexivity.
    + rewrite !List.filter_app, Hsent. cbn [List.filter isDelete].
      now rewrite !app_nil_r.
  - cbn [snd].
    change (BlockUiStart ?m :: effects ++ []) with ([BlockUiStart m] ++ effects ++ []).
    split; [|split].
    + rewrite !List.filter_app, Hquiet. reflexivity.
    + discriminate.
    + rewrite !List.filter_app, Hsent. cbn [List.filter isDelete].
      now rewrite !app_nil_r.
Qed.

(** C4.  Once the delete operations of a confirmed batch have settled,
    whether one of them failed or not, the listing is reloaded, exactly
    once and after every other effect of the batch; while an operation is
    pending there is no reload.  The delete requests sent are those of the
    rows up to and including the first whose deletion does not succeed: a
    failure aborts the remainder.  A dismissed confirmation does nothing. *)
Theorem C4_reload_once_settled
        (p : Page) (selected : S3ObjectVersionList) (deleteAllVersions : bool)
        (responses : list (option (Outcome (list string)))) :
  let effects := snd (doDelete p selected (Confirmed deleteAllVersions) responses) in
  let requests :=
    deleteSources p selected (if isBucketVersioned p then deleteAllVersions else false) in
  reloads effects = (if batchSettled responses (length selected) then 1 else 0)
  /\ (allSettled responses (length selected) = true ->
      batchSettled responses (length selected) = true /\ reloads effects = 1)
  /\ (batchSettled responses (length selected) = true ->
      exists before, effects = before ++ snd (loadData p) /\ reloads before = 0)
  /\ List.filter isDelete effects
     = map Subscribe (take (started responses (length selected)) requests)
  /\ doDelete p selected Dismissed responses = (p, []).
Proof.
  cbv zeta.
  assert (Hrun : doDelete p selected (Confirmed deleteAllVersions) responses
                 = callbackFn p selected
                     (if isBucketVersioned p then deleteAllVersions else false) responses).
  { unfold doDelete. now destruct (isBucketVersioned p). }
  rewrite Hrun.
  destruct (callbackFn_run p selected
              (if isBucketVersioned p then deleteAllVersions else false) responses)
    as (Hcount & Hlast & Hsent).
  split; [exact Hcount|]. split; [|split; [exact Hlast|split; [exact Hsent|reflexivity]]].
  intros Hall.
  assert (Hset : batchSettled responses (length selected) = true)
    by (apply settledFrom_all; exact Hall).
  split; [exact Hset|]. now rewrite Hcount, Hset.
Qed.

(** A batch of two objects in which the deletion of the first is refused:
    the second deletion is never requested, one error is shown, and the
    listing is reloaded. *)
Example delete_refused :
  snd (doDelete Example.listedPage [Example.liveRow; Example.markerRow] (Confirmed true)
         [Some (Err "AccessDenied"); Some (Ok ["b.txt"])])
  = [BlockUiStart "Please wait, deleting 2 object(s) ...";
     Subscribe (DeleteObject "bucket" "a.txt" None (Some true));
     ShowError "AccessDenied";
     BlockUiStop;
     Subscribe (ListObjectVersions "bucket" "")].
Proof. vm_compute. reflexivity. Qed.

Lemma last_cons_default {A} (l : list A) (x d : A) :
  List.last (x :: l) d = List.last l x.
Proof.
  revert x d. induction l as [|y l IH]; intros x d; [reflexivity|].
  change (List.last (x :: y :: l) d) with (List.last (y :: l) d).
  now rewrite !IH.
Qed.

Lemma upload_progress (reports : list S3UploadProgress) (count : nat)
      (effects : list Effect) :
  fold_left doUpload_next reports (count, effects)
  = (List.last (map loaded reports) count, effects ++ map progressUpdate reports).
Proof.
  revert count effects. induction reports as [|r reports IH]; intros count effects.
  - cbn. now rewrite app_nil_r.
  - cbn [fold_left]. unfold doUpload_next at 2. cbn [snd]. rewrite IH.
    rewrite <- app_assoc. f_equal. cbn [map]. symmetry. apply last_cons_default.
Qed.

Lemma progress_is_silent (reports : list S3UploadProgress) :
  List.filter isNotification (map progressUpdate reports) = []
  /\ List.filter isReload (map progressUpdate reports) = [].
Proof. induction reports as [|r reports [IHn IHr]]; split; auto. Qed.

Lemma translate_all_uploaded (count files : string) :
  translate "{{ total }} object(s) have been successfully uploaded."
    [("loaded", count); ("total", files)]
  = files +:+ " object(s) have been successfully uploaded.".
Proof. vm_compute. reflexivity. Qed.

Lemma translate_some_uploaded (count files : string) :
  translate "{{ loaded }} of {{ total }} object(s) have been successfully uploaded."
    [("loaded", count); ("total", files)]
  = count +:+ " of " +:+ files +:+ " object(s) have been successfully uploaded.".
Proof. vm_compute. reflexivity. Qed.

Lemma translate_upload_failed (message : string) :
  translate "Failed to upload the objects: {{ error }}" [("error", message)]
  = "Failed to upload the objects: " +:+ message.
Proof.
  rewrite <- (append_empty_r message) at 2. vm_compute. reflexivity.
Qed.

(** C5.  An upload of [length files] files.  When the stream completes,
    exactly one notification is shown: "all uploaded" if the last [loaded]
    reported equals the number of files, "[loaded] of [total] uploaded"
    otherwise; and the listing is reloaded once.  When the stream fails,
    exactly one notification is shown, the error text followed by the
    message of the error as it came and nothing about the files done so
    far; the page is left as it is and the listing is not reloaded.
    ([doUpload] is a function of the embedding: the error ends in the
    [error] callback and is not thrown further.) *)
Theorem C5_upload_outcome (p : Page) (files : list string)
        (reports : list S3UploadProgress) (message : string) :
  let completed := doUpload p (Some files) (mkObservable reports Completed) in
  let failed := doUpload p (Some files) (mkObservable reports (Failed message)) in
  notifications (snd completed)
  = [ShowSuccess
       (if (lastLoaded reports =? length files)%nat
        then Number_toString (length files)
             +:+ " object(s) have been successfully uploaded."
        else Number_toString (lastLoaded reports) +:+ " of "
             +:+ Number_toString (length files)
             +:+ " object(s) have been successfully uploaded.")]
  /\ reloads (snd completed) = 1
  /\ notifications (snd failed)
     = [ShowError ("Failed to upload the objects: " +:+ message)]
  /\ reloads (snd failed) = 0
  /\ fst failed = p.
Proof.
  cbv zeta. unfold doUpload. cbn [values ending]. rewrite upload_progress.
  fold (lastLoaded reports).
  pose proof (loadData_effects p) as Hload.
  destruct (loadData p) as [p' reloading]. cbn [fst snd] in *. subst reloading.
  destruct (progress_is_silent reports) as [Hn Hr].
  unfold notifications, reloads.
  repeat rewrite List.filter_app. rewrite Hn, Hr.
  cbn [List.filter isNotification isReload app length].
  repeat split.
  - destruct (lastLoaded reports =? length files)%nat.
    + now rewrite translate_all_uploaded.
    + now rewrite translate_some_uploaded.
  - now rewrite translate_upload_failed.
Qed.

(** Five files, two reported, then the third throws: the only message is
    the error, and it says nothing about two files. *)
Lemma C5_counterexample : ~ reportsTwoOfFive.
Proof.
  intros H.
  destruct (H Example.listedPage ["f1"; "f2"; "f3"; "f4"; "f5"] "boom" eq_refl)
    as (text & Hfinal & Hcount).
  vm_compute in Hfinal. injection Hfinal as <-.
  vm_compute in Hcount. discriminate.
Qed.

(** The same stream, had it completed after the second report, would have
    been summed up as "2 of 5". *)
Example upload_two_of_five :
  finalMessage
    (snd (doUpload Example.listedPage (Some ["f1"; "f2"; "f3"; "f4"; "f5"])
            (mkObservable [mkProgress 1 5; mkProgress 2 5] Completed)))
  = Some "2 of 5 object(s) have been successfully uploaded.".
Proof. vm_compute. reflexivity. Qed.

(** ** toBytes *)

Section ToBytesFacts.
Import RegExp ToBytes.

Lemma length_append (a b : string) :
  String.length (a +:+ b) = String.length a + String.length b.
Proof. induction a; simpl; congruence. Qed.

Lemma substring_prefix (a b : string) :
  String.substring 0 (String.length a) (a +:+ b) = a.
Proof.
  induction a as [|c a IH]; simpl.
  - now destruct b.
  - now rewrite IH.
Qed.

Lemma captured_prefix (a b : string) : captured (a +:+ b) b = a.
Proof.
  unfold captured. rewrite length_append.
  replace (String.length a + String.length b - String.length b)
    with (String.length a) by lia.
  apply substring_prefix.
Qed.

Lemma star_stops (test : ascii -> bool) (k : string -> option Captures) (s : string) :
  match s with String c _ => test c = false | EmptyString => True end ->
  star test k s = k s.
Proof. destruct s as [|c s]; simpl; [reflexivity|]. now intros ->. Qed.

Lemma star_digits (k : string -> option Captures) (digits rest : string)
      (m : Captures) :
  forallb isDigit (list_ascii_of_string digits) = true ->
  stopsDigits rest = true ->
  k rest = Some m ->
  star isDigit k (digits +:+ rest) = Some m.
Proof.
  intros Hd Hrest Hk. induction digits as [|c digits IH]; simpl in *.
  - rewrite star_stops; [exact Hk|].
    destruct rest; [exact I|]. simpl in Hrest. now apply negb_true_iff in Hrest.
  - apply andb_prop in Hd as [Hc Hd]. rewrite Hc, (IH Hd). reflexivity.
Qed.

Lemma takeDigits_digits (digits rest : string) :
  forallb isDigit (list_ascii_of_string digits) = true ->
  stopsDigits rest = true ->
  takeDigits (digits +:+ rest) = (digits, rest).
Proof.
  intros Hd Hrest. induction digits as [|c digits IH]; simpl in *.
  - destruct rest as [|c rest]; [reflexivity|]. simpl in *.
    apply negb_true_iff in Hrest. now rewrite Hrest.
  - apply andb_prop in Hd as [Hc Hd]. now rewrite Hc, (IH Hd).
Qed.

Lemma allDigits_spec (s : string) :
  allDigits s = true ->
  exists c rest, s = String c rest /\ isDigit c = true
                 /\ forallb isDigit (list_ascii_of_string rest) = true.
Proof.
  destruct s as [|c rest]; [discriminate|]. simpl. intros H.
  apply andb_prop in H as [Hc Hrest]. eauto.
Qed.

Lemma allDigits_forallb (s : string) :
  allDigits s = true -> forallb isDigit (list_ascii_of_string s) = true.
Proof. destruct s; [discriminate|]. auto. Qed.

Lemma append_assoc (a b c : string) : (a +:+ b) +:+ c = a +:+ (b +:+ c).
Proof. induction a; simpl; congruence. Qed.

Lemma noDigits_stops (s : string) : noDigits s = true -> stopsDigits s = true.
Proof.
  destruct s as [|c s]; [reflexivity|]. unfold noDigits. simpl.
  intros H. now apply andb_prop in H as [-> _].
Qed.

(** The numeral in front of [tail] is consumed whole, captures included. *)
Lemma run_numeral (ip : string) (fp : option string) (tail : string)
      (k : string -> Captures -> option Captures) (r : Captures) :
  allDigits ip = true -> fractionOk fp = true -> noDigits tail = true ->
  k tail match fp with
         | Some digits => setGroup 2 (String "." digits) noCaptures
         | None => noCaptures
         end = Some r ->
  run (Seq (Plus isDigit) (Opt (Group 2 (Seq (Chr anyChar) (Plus isDigit)))))
    (numeral ip fp +:+ tail) noCaptures k = Some r.
Proof.
  intros Hip Hfp Htail Hk.
  destruct (allDigits_spec ip Hip) as (c & ip' & -> & Hc & Hip').
  assert (Hshape : numeral (String c ip') fp +:+ tail
                   = String c (ip' +:+ (match fp with
                                        | Some digits => String "." digits
                                        | None => EmptyString
                                        end +:+ tail))).
  { destruct fp as [digits|]; simpl; [now rewrite append_assoc | reflexivity]. }
  rewrite Hshape. cbn [run]. rewrite Hc.
  apply star_digits; [exact Hip'| |].
  - destruct fp as [digits|]; [reflexivity|]. simpl. now apply noDigits_stops.
  - destruct fp as [digits|]; cbn [fractionOk] in Hfp.
    + (* a fraction: group 2 takes the dot and the digits *)
      destruct (allDigits_spec digits Hfp) as (c2 & d' & -> & Hc2 & Hd').
      simpl String.append. cbn [run]. simpl anyChar. cbv iota. rewrite Hc2.
      rewrite (star_digits _ d' tail r Hd' (noDigits_stops _ Htail)); [reflexivity|].
      replace (String.length tail =? String.length (String "." (String c2 (d' +:+ tail))))%nat
        with false.
      * change (String "." (String c2 (d' +:+ tail)))
          with (String "." (String c2 d') +:+ tail).
        rewrite captured_prefix. exact Hk.
      * symmetry. apply Nat.eqb_neq. simpl. rewrite length_append. lia.
    + (* no fraction: the optional group is tried and given up *)
      simpl String.append.
      destruct tail as [|c0 [|c1 t]]; [exact Hk | now destruct (anyChar c0) |].
      unfold noDigits in Htail. simpl in Htail.
      apply andb_prop in Htail as [_ Htail]. apply andb_prop in Htail as [Hc1 _].
      apply negb_true_iff in Hc1. rewrite Hc1. now destruct (anyChar c0).
Qed.

Lemma parseFloat_numeral (ip : string) (fp : option string) :
  allDigits ip = true -> fractionOk fp = true ->
  parseFloat (numeral ip fp) = Finite (decimal ip (default EmptyString fp) * 10 ^ 0)%Q.
Proof.
  intros Hip Hfp. unfold parseFloat.
  pose proof (allDigits_forallb ip Hip) as Hip'.
  destruct fp as [digits|]; cbn [numeral fractionOk default from_option] in *.
  - rewrite (takeDigits_digits ip (String "." digits) Hip' eq_refl).
    cbn [exactly Ascii.eqb]. simpl Ascii.eqb. cbv iota.
    rewrite <- (append_empty_r digits) at 1.
    rewrite (takeDigits_digits digits EmptyString (allDigits_forallb _ Hfp) eq_refl).
    destruct ip; [discriminate|]. reflexivity.
  - rewrite <- (append_empty_r ip) at 1.
    rewrite (takeDigits_digits ip EmptyString Hip' eq_refl).
    destruct ip; [discriminate|]. reflexivity.
Qed.

Lemma round_comp (x y : Q) : (x == y)%Q -> round x = round y.
Proof. intros H. unfold round. now rewrite H. Qed.

Lemma unitSpellings_read :
  Forall (fun entry =>
            tailReads (fst entry) (snd entry)
            /\ tailReads (String " " (fst entry)) (snd entry)
            /\ noDigits (fst entry) = true
            /\ (0 <=? snd entry)%Z = true)
    unitSpellings.
Proof.
  let table := eval vm_compute in unitSpellings in
  change unitSpellings with table.
  repeat (apply List.Forall_cons;
          [ split; [intros text [digits|]; vm_compute; reflexivity|];
            split; [intros text [digits|]; vm_compute; reflexivity|];
            split; vm_compute; reflexivity
          | ]).
  apply List.Forall_nil.
Qed.

Lemma digitsValue_nonneg (s : string) (acc : Z) :
  (0 <= acc)%Z -> (0 <= digitsValue acc s)%Z.
Proof.
  revert acc. induction s as [|c s IH]; intros acc Hacc; simpl; [exact Hacc|].
  apply IH. unfold digitValue. lia.
Qed.

Lemma decimal_nonneg (ip fp : string) : (0 <= decimal ip fp)%Q.
Proof.
  unfold decimal. apply Qmult_le_0_compat.
  - change 0%Q with (inject_Z 0). rewrite <- Zle_Qle. now apply digitsValue_nonneg.
  - apply Qinv_le_0_compat. change 0%Q with (inject_Z 0). rewrite <- Zle_Qle.
    apply Z.pow_nonneg. lia.
Qed.


Lemma not_a_numeral (s : string) : stopsDigits s = true -> toBytes s = None.
Proof.
  intros Hs. unfold toBytes, exec, pattern. cbn [run].
  destruct s as [|c s]; [reflexivity|].
  simpl in Hs. apply negb_true_iff in Hs. now rewrite Hs.
Qed.

(** What [exec] finds in a string of the grammar. *)
Lemma exec_numeral (ip : string) (fp : option string) (space : bool)
      (us : string) (k : Z) :
  allDigits ip = true -> fractionOk fp = true -> In (us, k) unitSpellings ->
  exists r,
    exec pattern (numeral ip fp +:+ spacing space +:+ us) = Some r
    /\ r 1 = Some (numeral ip fp)
    /\ exponentOf (r 3) = k.
Proof.
  intros Hip Hfp Hin.
  pose proof unitSpellings_read as Htable.
  rewrite List.Forall_forall in Htable.
  destruct (Htable _ Hin) as (Hplain & Hspaced & Hno & _). cbn [fst snd] in *.
  set (tail := spacing space +:+ us).
  assert (Htail : tailReads tail k) by (destruct space; assumption).
  assert (Hnone : noDigits tail = true) by (destruct space; assumption).
  specialize (Htail (numeral ip fp) fp).
  destruct (run tailPart tail (numeralCaptures (numeral ip fp) fp) atEnd)
    as [r|] eqn:Hr; [|discriminate].
  cbn [option_map] in Htail. injection Htail as H1 H3.
  exists r. split; [|split; assumption].
  unfold exec, pattern.
  change (run (Seq (Group 1 ?x) tailPart) ?v noCaptures atEnd)
    with (run x v noCaptures
            (fun s' m' => run tailPart s' (setGroup 1 (captured v s') m') atEnd)).
  apply run_numeral; try assumption.
  rewrite captured_prefix. exact Hr.
Qed.










End ToBytesFacts.




(** The dot of the pattern is not escaped, so any character may stand
    between two runs of digits; and a lone suffix "ib" is looked up as if it
    were a unit letter. *)
Example toBytes_unescaped_dot :
  ToBytes.accepted "1x5" = false
  /\ ToBytes.toBytes "1x5" = Some (ToBytes.Finite (inject_Z 1))
  /\ ToBytes.accepted "1e3" = false
  /\ ToBytes.toBytes "1e3" = Some (ToBytes.Finite (inject_Z 1000)).
Proof. repeat split; vm_compute; reflexivity. Qed.

Example toBytes_lone_ib :
  ToBytes.accepted "2048ib" = true
  /\ ToBytes.toBytes "2048ib" = Some (ToBytes.Finite (inject_Z 2)).
Proof. split; vm_compute; reflexivity. Qed.

(** * Further properties of the code *)

(** ** The listing, beyond one emission *)

Lemma shownOf_filterBy (show : bool) (records : S3ObjectVersionList) :
  filterBy true false records ++ (if show then filterBy true true records else [])
  = shownOf show records.
Proof.
  unfold shownOf, filterBy. f_equal.
  - apply List.filter_ext. intros o. now destruct (IsLatest o), (IsDeleted o).
  - destruct show; [|reflexivity].
    apply List.filter_ext. intros o. now destruct (IsLatest o), (IsDeleted o).
Qed.

Lemma fold_loadData_next_objects (chunks : list S3ObjectVersionList) (p : Page) :
  objects (fold_left loadData_next chunks p)
  = objects p ++ flat_map (shownOf (showDeletedObjects p)) chunks.
Proof.
  revert p. induction chunks as [|c chunks IH]; intros p.
  - cbn. now rewrite app_nil_r.
  - cbn [fold_left flat_map]. rewrite IH, loadData_next_objects, shownOf_filterBy.
    rewrite <- app_assoc. reflexivity.
Qed.

(** X1.  Whatever the number of emissions of the listing, the rows on
    display after a reload are, emission by emission, the latest live
    records followed (with "show deleted") by the latest deleted ones; a
    listing that fails leaves no row at all, whatever it had delivered. *)
Theorem reload_rows (p : Page) (resp : Observable S3ObjectVersionList) :
  objects (reload p resp)
  = match ending resp with
    | Failed _ => []
    | _ => flat_map (shownOf (showDeletedObjects p)) (values resp)
    end.
Proof.
  unfold reload, loadData_subscriber.
  pose proof (fold_loadData_next_objects (values resp) (fst (loadData p))) as H.
  cbn [fst loadData objects set_objects set_objectAttrsCache set_objectNumVersions
         set_pageStatus showDeletedObjects app] in H.
  destruct (ending resp); cbn [objects set_firstLoadComplete loadData_complete
                                  loadData_error set_pageStatus set_objects];
    [exact H | reflexivity | exact H].
Qed.








(** X3.  The page shows "loading" only until a listing has settled for
    the first time: a settled reload ends in "ready" or "loading error",
    marks the first load as done for good, and every [loadData] after it
    shows "reloading". *)
Theorem reloading_after_first_load (p : Page) (resp : Observable S3ObjectVersionList)
        (next : Observable S3ObjectVersionList) :
  ending resp <> Outstanding ->
  pageStatus (reload p resp)
  = match ending resp with Failed _ => loadingError | _ => ready end
  /\ firstLoadComplete (reload p resp) = true
  /\ pageStatus (fst (loadData (reload p resp))) = reloading
  /\ (ending next = Outstanding -> pageStatus (reload (reload p resp) next) = reloading)
  /\ firstLoadComplete (reload (reload p resp) next) = true.
Proof.
  intros Hsettled.
  assert (Hflag : forall chunks q,
             firstLoadComplete (fold_left loadData_next chunks q) = firstLoadComplete q).
  { induction chunks as [|c chunks IH]; intros q; [reflexivity|].
    cbn [fold_left]. now rewrite IH. }
  assert (Hstatus : forall chunks q,
             pageStatus (fold_left loadData_next chunks q) = pageStatus q).
  { induction chunks as [|c chunks IH]; intros q; [reflexivity|].
    cbn [fold_left]. now rewrite IH. }
  assert (Hdone : firstLoadComplete (reload p resp) = true).
  { unfold reload, loadData_subscriber. destruct (ending resp); [reflexivity..|congruence]. }
  split; [|split; [exact Hdone|split; [|split]]].
  - unfold reload, loadData_subscriber. destruct (ending resp); [reflexivity..|congruence].
  - cbn [loadData fst pageStatus set_pageStatus firstLoadComplete set_objects
           set_objectAttrsCache set_objectNumVersions].
    now rewrite Hdone.
  - intros Hnext. unfold reload at 1. unfold loadData_subscriber. rewrite Hnext, Hstatus.
    cbn [loadData fst pageStatus set_pageStatus firstLoadComplete set_objects
           set_objectAttrsCache set_objectNumVersions].
    now rewrite Hdone.
  - unfold reload at 1. unfold loadData_subscriber.
    destruct (ending next); [reflexivity..|].
    rewrite Hflag.
    cbn [loadData fst firstLoadComplete set_pageStatus set_objects
           set_objectAttrsCache set_objectNumVersions].
    exact Hdone.
Qed.

Lemma reloading_after_first_load_witness :
  pageStatus (fst (loadData (reload Example.freshPage (mkObservable [] (Failed "boom")))))
  = reloading.
Proof.
  apply (reloading_after_first_load Example.freshPage (mkObservable [] (Failed "boom"))
           (mkObservable [] Completed)).
  discriminate.
Defined.

(** X4.  Going up the breadcrumb twice is going up once, to the shorter of
    the two prefixes; each step empties the rows, the attribute cache and
    the version index, and never makes the prefix longer. *)
Theorem onPrefixSelect_twice (i j : nat) (p : Page) :
  let once := fst (onPrefixSelect i p) in
  let twice := fst (onPrefixSelect j once) in
  prefixParts twice = take (Nat.min i j) (prefixParts p)
  /\ twice = fst (onPrefixSelect (Nat.min i j) p)
  /\ length (prefixParts once) <= length (prefixParts p)
  /\ objects once = [] /\ objectAttrsCache once = ∅ /\ objectNumVersions once = ∅.
Proof.
  cbv zeta. unfold onPrefixSelect.
  cbn [loadData fst prefixParts set_prefixParts set_objects set_objectAttrsCache
         set_objectNumVersions set_pageStatus objects objectAttrsCache
         objectNumVersions bid pageStatus loadingObjectAttrsKeys firstLoadComplete
         showDeletedObjects isBucketVersioned delimiter].
  rewrite take_take, (Nat.min_comm j i). repeat split.
  rewrite length_take. lia.
Qed.

(** ** The "show deleted objects" action *)

(** X5.  After a click on the action, the icon is "hide" and the tooltip
    "Hide deleted objects" exactly when deleted objects are shown; a second
    click brings flag, icon and tooltip back (to the action as it was
    created, when deleted objects were hidden at first), and each click asks
    the table for one reload. *)
Theorem toggleDeleted_twice (p : Page) (action : ToggleAction) :
  let '(p1, a1, n1) := toggleDeleted p action in
  let '(p2, a2, n2) := toggleDeleted p1 a1 in
  showDeletedObjects p1 = negb (showDeletedObjects p)
  /\ a1 = (if showDeletedObjects p1
           then mkToggle IconHide "Hide deleted objects"
           else mkToggle IconShow "Show deleted objects")
  /\ showDeletedObjects p2 = showDeletedObjects p
  /\ a2 = (if showDeletedObjects p
           then mkToggle IconHide "Hide deleted objects"
           else mkToggle IconShow "Show deleted objects")
  /\ (showDeletedObjects p = false -> a2 = toggleAction0)
  /\ set_showDeletedObjects (showDeletedObjects p) p2
     = set_showDeletedObjects (showDeletedObjects p) p
  /\ n1 = 1 /\ n2 = 1.
Proof.
  unfold toggleDeleted.
  cbn [showDeletedObjects set_showDeletedObjects].
  destruct (showDeletedObjects p); repeat split; discriminate.
Qed.

(** ** Expanded rows, beyond one row *)

Lemma firstError_In {A} (settled : list (option (Outcome A))) (message : string) :
  In (Some (Err message)) settled -> is_Some (firstError settled).
Proof.
  induction settled as [|s settled IH]; [intros []|].
  intros [-> | Hin]; [now eexists|].
  destruct s as [[v|m]|]; cbn [firstError]; auto.
Qed.

Lemma settled_all {A} (results : list A) :
  map (settlement (map (fun r => Some (Ok r)) results)) (seq 0 (length results))
  = map (fun r => Some (Ok r)) results.
Proof.
  induction results as [|r results IH]; [reflexivity|].
  cbn [length map seq]. rewrite <- seq_shift, map_map.
  f_equal. exact IH.
Qed.

Lemma firstError_all_ok {A} (results : list A) :
  firstError (map (fun r => Some (Ok r)) results) = None.
Proof. induction results as [|r results IH]; [reflexivity | exact IH]. Qed.

Lemma allResults_all_ok {A} (results : list A) :
  allResults (map (fun r => Some (Ok r)) results) = Some results.
Proof.
  induction results as [|r results IH]; [reflexivity|].
  cbn [map allResults]. now rewrite IH.
Qed.

Lemma forkJoin_all_ok {A} (sources : list S3Call) (results : list A) :
  sources <> [] -> length sources = length results ->
  forkJoin sources (map (fun r => Some (Ok r)) results)
  = mkObservable [results] Completed.
Proof.
  intros Hsome Hlen. unfold forkJoin. destruct sources as [|s sources]; [congruence|].
  rewrite Hlen, settled_all, firstError_all_ok, allResults_all_ok. reflexivity.
Qed.

Section ExpandedRowsBatch.
Variable bytesToSize : JsVal -> string.
Variable localeDate : JsVal -> string.

Local Abbreviation collectSources' := (collectSources bytesToSize localeDate).
Local Abbreviation storeAttrs' := (storeAttrs bytesToSize localeDate).
Local Abbreviation onExpandedRowsChange' := (onExpandedRowsChange bytesToSize localeDate).

(** X6.  When one attribute request of a batch fails, nothing that was
    fetched in the batch is cached, not even the answers that arrived, and
    nothing is purged: the page is the one the first loop left (with the
    records made up for deleted rows), its list of loading keys emptied. *)
Theorem failed_fetch_stores_nothing
        (p : Page) (objects : S3ObjectVersionList)
        (responses : list (option (Outcome (gmap string JsVal))))
        (i : nat) (message : string) :
  i < length (snd (collectSources' p objects)) ->
  responses !! i = Some (Some (Err message)) ->
  fst (onExpandedRowsChange' p objects responses)
  = set_loadingObjectAttrsKeys [] (fst (collectSources' p objects)).
Proof.
  intros Hi Hfail. unfold onExpandedRowsChange.
  destruct (collectSources' p objects) as [first sources]. cbn [fst snd] in *.
  unfold forkJoin. destruct sources as [|s sources]; [cbn in Hi; lia|].
  destruct (firstError_In
              (map (settlement responses) (seq 0 (length (s :: sources)))) message)
    as [m ->]; [|reflexivity].
  apply in_map_iff. exists i. split.
  - unfold settlement. now rewrite Hfail.
  - apply in_seq. lia.
Qed.

(** X7.  A change of the expanded rows that needs no request (every
    expanded row is cached already or is a deleted object) purges nothing:
    whatever was cached before is still cached, expanded or not. *)
Theorem no_request_no_purge
        (p : Page) (objects : S3ObjectVersionList)
        (responses : list (option (Outcome (gmap string JsVal))))
        (key : string) (attrs : gmap string JsVal) :
  snd (collectSources' p objects) = [] ->
  objectAttrsCache p !! key = Some attrs ->
  objectAttrsCache (fst (onExpandedRowsChange' p objects responses)) !! key = Some attrs.
Proof.
  intros Hnone Hcached. unfold onExpandedRowsChange.
  pose proof (expandRow_keeps bytesToSize localeDate objects
                (set_loadingObjectAttrsKeys [] p, []) key attrs Hcached) as Hkept.
  fold (collectSources' p objects) in Hkept.
  destruct (collectSources' p objects) as [first sources]. cbn [fst snd] in *.
  subst sources. exact Hkept.
Qed.

Lemma storeAttrs_key (objects : S3ObjectVersionList) (p : Page)
      (objAttr : gmap string JsVal) :
  exists stored,
    storeAttrs' objects p objAttr
    = set_objectAttrsCache
        (<[propertyKey (getProp objAttr "Key") := stored]> (objectAttrsCache p)) p.
Proof.
  unfold storeAttrs.
  destruct (findByKey objects (getProp objAttr "Key")) as [object|]; [|now eexists].
  eexists. f_equal. f_equal. f_equal.
  unfold getProp, merge. rewrite lookup_union_with.
  generalize (numVersions p (Key object)) as count.
  generalize (trimQuotes (getProp objAttr "ETag")) as etag.
  generalize (localeDate (from_option JStr JUndefined (LastModified object))) as date.
  generalize (bytesToSize (from_option JNum JUndefined (Size object))) as size.
  generalize (defaultTo (getProp objAttr "ObjectLockMode") (JStr "NONE")) as mode.
  generalize (localeDate (defaultTo (getProp objAttr "ObjectLockRetainUntilDate")
                            (JStr ""))) as until.
  generalize (defaultTo (getProp objAttr "ObjectLockLegalHoldStatus") (JStr "OFF"))
    as hold.
  generalize (defaultTo (getProp objAttr "TagSet") (JTagSet [])) as tags.
  intros tags hold until mode size date etag count.
  replace (list_to_map _ !! "Key") with (@None JsVal) by (vm_compute; reflexivity).
  now destruct (objAttr !! "Key").
Qed.

Lemma storeAttrs_fold (objects : S3ObjectVersionList)
      (objAttrs : list (gmap string JsVal)) :
  forall (p : Page) (key : string),
    is_Some (objectAttrsCache (fold_left (storeAttrs' objects) objAttrs p) !! key)
    <-> is_Some (objectAttrsCache p !! key)
        \/ In key (map (fun r => propertyKey (getProp r "Key")) objAttrs).
Proof.
  induction objAttrs as [|r objAttrs IH]; intros p key.
  - cbn. tauto.
  - cbn [fold_left map In]. rewrite IH.
    destruct (storeAttrs_key objects p r) as [stored ->].
    cbn [objectAttrsCache set_objectAttrsCache].
    destruct (decide (propertyKey (getProp r "Key") = key)) as [Heq|Hne].
    + rewrite Heq, lookup_insert_eq. split; [auto|]. intros _. left. now eexists.
    + rewrite lookup_insert_ne by exact Hne. tauto.
Qed.

Lemma fetched_batch (p : Page) (objects : S3ObjectVersionList)
      (results : list (gmap string JsVal)) (key : string) :
  snd (collectSources' p objects) <> [] ->
  length (snd (collectSources' p objects)) = length results ->
  loadingObjectAttrsKeys
    (fst (onExpandedRowsChange' p objects (map (fun r => Some (Ok r)) results))) = []
  /\ (is_Some (objectAttrsCache
                 (fst (onExpandedRowsChange' p objects
                         (map (fun r => Some (Ok r)) results))) !! key)
      <-> hasKey objects key = true
          /\ is_Some (objectAttrsCache
                        (fold_left (storeAttrs' objects) results
                           (fst (collectSources' p objects))) !! key)).
Proof.
  unfold onExpandedRowsChange.
  destruct (collectSources' p objects) as [first sources]. cbn [fst snd].
  intros Hsome Hlen. rewrite (forkJoin_all_ok _ _ Hsome Hlen).
  cbn [values ending fold_left fst]. split; [reflexivity|].
  unfold onAttrsLoaded, purgeCollapsed.
  cbn [objectAttrsCache set_objectAttrsCache set_loadingObjectAttrsKeys].
  unfold is_Some. split.
  - intros [e He]. apply map_lookup_filter_Some in He as [He Hk]. split; [exact Hk|].
    now exists e.
  - intros [Hk [e He]]. exists e. apply map_lookup_filter_Some. split; [exact He|exact Hk].
Qed.

(** X8.  Once every attribute request of a batch (there is at least one)
    has delivered, a key is cached exactly when it is the key of an
    expanded row and was cached after the first loop or is the key of one
    of the records delivered; the list of loading keys is empty. *)
Theorem fetched_batch_cache
        (p : Page) (objects : S3ObjectVersionList)
        (results : list (gmap string JsVal)) (key : string) :
  let first := fst (collectSources' p objects) in
  let sources := snd (collectSources' p objects) in
  let after :=
    fst (onExpandedRowsChange' p objects (map (fun r => Some (Ok r)) results)) in
  sources <> [] -> length sources = length results ->
  (is_Some (objectAttrsCache after !! key)
   <-> hasKey objects key = true
       /\ (is_Some (objectAttrsCache first !! key)
           \/ In key (map (fun r => propertyKey (getProp r "Key")) results)))
  /\ loadingObjectAttrsKeys after = [].
Proof.
  cbv zeta. intros Hsome Hlen.
  destruct (fetched_batch p objects results key Hsome Hlen) as [Hloading Hcache].
  split; [|exact Hloading].
  rewrite Hcache, (storeAttrs_fold objects). reflexivity.
Qed.

Lemma find_listed (objects : S3ObjectVersionList) (key : string) :
  hasKey objects key = true ->
  exists o, List.find (fun o => String.eqb (Key o) key) objects = Some o
            /\ In o objects /\ Key o = key.
Proof.
  unfold hasKey. induction objects as [|o objects IH]; [discriminate|].
  cbn [existsb List.find]. destruct (String.eqb_spec (Key o) key) as [Heq|Hne].
  - intros _. exists o. repeat split; [now left | exact Heq].
  - cbn [orb]. intros H. destruct (IH H) as (o' & Hfind & Hin & Hkey).
    exists o'. repeat split; [exact Hfind | now right | exact Hkey].
Qed.

(** X9.  When the expanded rows have pairwise distinct keys, each of them
    looked up as the key it is (the first key of the path that [_.has]
    reads in it is the whole key, or is neither cached nor the key of an
    expanded row), and every request of the batch (there is at least one)
    is answered by a record that carries the key asked for, the cache
    afterwards holds the expanded rows and nothing else. *)
Theorem expanded_rows_cached
        (p : Page) (objects : S3ObjectVersionList)
        (results : list (gmap string JsVal)) (key : string) :
  let fetched := List.filter (toFetch p) objects in
  let after :=
    fst (onExpandedRowsChange' p objects (map (fun r => Some (Ok r)) results)) in
  NoDup (map Key objects) ->
  readAsKeys (objectAttrsCache p) objects = true ->
  fetched <> [] ->
  Forall2 (fun o r => getProp r "Key" = JStr (Key o)) fetched results ->
  is_Some (objectAttrsCache after !! key) <-> hasKey objects key = true.
Proof.
  cbv zeta. intros Hdup Hread Hsome Hanswers.
  destruct (expandRow_fold bytesToSize localeDate objects
              (set_loadingObjectAttrsKeys [] p) [] (map Key objects) Hdup
              (fun k Hk => Hk) (readAsKeys_apart _ _ Hread))
    as (_ & _ & Hentry & Hsources).
  fold (collectSources' p objects) in Hentry, Hsources.
  cbn [app] in Hsources.
  change (toFetch (set_loadingObjectAttrsKeys [] p)) with (toFetch p) in Hsources.
  assert (Hkeys : map (fun r => propertyKey (getProp r "Key")) results
                  = map Key (List.filter (toFetch p) objects)).
  { clear - Hanswers. induction Hanswers as [|o r fetched results Hr _ IH]; [reflexivity|].
    cbn [map]. rewrite Hr, IH. reflexivity. }
  assert (Hlen : length (snd (collectSources' p objects)) = length results).
  { rewrite Hsources, length_map. exact (Forall2_length _ _ _ Hanswers). }
  assert (Hany : snd (collectSources' p objects) <> []).
  { rewrite Hsources. destruct (List.filter (toFetch p) objects); [congruence|discriminate]. }
  destruct (fetched_batch p objects results key Hany Hlen) as [_ ->].
  rewrite (storeAttrs_fold objects), Hkeys, Hentry.
  split; [tauto|]. intros Hkey. split; [exact Hkey|].
  destruct (find_listed objects key Hkey) as (o & Hfind & Hin & <-).
  unfold entryFor. cbn [objectAttrsCache set_loadingObjectAttrsKeys].
  destruct (objectAttrsCache p !! Key o) as [e|] eqn:Hcached; [left; now eexists|].
  rewrite Hfind. destruct (IsDeleted o) eqn:Hdel; [left; now eexists|].
  right. apply in_map, List.filter_In. split; [exact Hin|].
  unfold toFetch. rewrite Hdel, Hcached. reflexivity.
Qed.

Lemma findByKey_key (objects : S3ObjectVersionList) (value : JsVal)
      (object : S3ObjectVersion) :
  findByKey objects value = Some object -> value = JStr (Key object).
Proof.
  unfold findByKey. destruct value; try discriminate.
  intros Hfind. apply List.find_some in Hfind as [_ Heq].
  apply String.eqb_eq in Heq. now rewrite Heq.
Qed.

Lemma merge_lookup (object source : gmap string JsVal) (name : string) :
  merge object source !! name
  = match source !! name with
    | None => object !! name
    | Some JUndefined => Some (getProp object name)
    | Some v => Some v
    end.
Proof.
  unfold merge, getProp. rewrite lookup_union_with.
  destruct (object !! name), (source !! name) as [[]|]; reflexivity.
Qed.

Lemma defaultTo_defined (value defaultValue : JsVal) :
  defaultValue <> JUndefined -> defaultValue <> JNull ->
  defaultTo value defaultValue <> JUndefined /\ defaultTo value defaultValue <> JNull.
Proof. intros Hu Hn. destruct value; cbn [defaultTo]; split; congruence. Qed.

(** X10.  The record cached for an expanded row whose attributes were
    fetched is stored under the key of the row; its lock mode, legal hold
    and tag set are never undefined or null (they read NONE, OFF and the
    empty list when the answer has none), its size, ETag and deleted flag
    are those of the display, and every property of the answer that the
    page does not format is kept as it was. *)
Theorem fetched_record_display
        (objects : S3ObjectVersionList) (p : Page)
        (answer : gmap string JsVal) (object : S3ObjectVersion) :
  findByKey objects (getProp answer "Key") = Some object ->
  exists entry,
    objectAttrsCache (storeAttrs' objects p answer) !! Key object = Some entry
    /\ entry !! "ObjectLockMode"
       = Some (defaultTo (getProp answer "ObjectLockMode") (JStr "NONE"))
    /\ entry !! "ObjectLockLegalHoldStatus"
       = Some (defaultTo (getProp answer "ObjectLockLegalHoldStatus") (JStr "OFF"))
    /\ entry !! "TagSet" = Some (defaultTo (getProp answer "TagSet") (JTagSet []))
    /\ (forall name, In name ["ObjectLockMode"; "ObjectLockLegalHoldStatus"; "TagSet"] ->
        getProp entry name <> JUndefined /\ getProp entry name <> JNull)
    /\ entry !! "Size"
       = Some (JStr (bytesToSize (from_option JNum JUndefined (Size object))))
    /\ entry !! "ETag" = Some (JStr (trimQuotes (getProp answer "ETag")))
    /\ entry !! "IsDeleted" = Some (JBool (IsDeleted object))
    /\ getProp entry "NumVersions"
       = match objectNumVersions p !! Key object with
         | Some n => JNum (Z.of_nat n)
         | None => getProp answer "NumVersions"
         end
    /\ (forall name,
          ~ In name ["Size"; "LastModified"; "ETag"; "ObjectLockMode";
                     "ObjectLockRetainUntilDate"; "ObjectLockLegalHoldStatus";
                     "TagSet"; "NumVersions"; "IsDeleted"] ->
          entry !! name = answer !! name).
Proof.
  intros Hfind. pose proof (findByKey_key _ _ _ Hfind) as Hkey.
  unfold storeAttrs. rewrite Hfind. unfold numVersions.
  set (mode := defaultTo (getProp answer "ObjectLockMode") (JStr "NONE")).
  set (hold := defaultTo (getProp answer "ObjectLockLegalHoldStatus") (JStr "OFF")).
  set (tags := defaultTo (getProp answer "TagSet") (JTagSet [])).
  assert (Hmode : mode <> JUndefined /\ mode <> JNull)
    by (apply defaultTo_defined; discriminate).
  assert (Hhold : hold <> JUndefined /\ hold <> JNull)
    by (apply defaultTo_defined; discriminate).
  assert (Htags : tags <> JUndefined /\ tags <> JNull)
    by (apply defaultTo_defined; discriminate).
  set (count := match objectNumVersions p !! Key object with
                | Some n => JNum (Z.of_nat n)
                | None => JUndefined
                end).
  set (overlay := list_to_map _).
  assert (Hother : forall name,
             ~ In name ["Size"; "LastModified"; "ETag"; "ObjectLockMode";
                        "ObjectLockRetainUntilDate"; "ObjectLockLegalHoldStatus";
                        "TagSet"; "NumVersions"; "IsDeleted"] ->
             overlay !! name = None).
  { intros name Hname. apply not_elem_of_list_to_map_1. cbn [fmap list_fmap fst].
    intros Hin. apply Hname, list_elem_of_In, Hin. }
  assert (Hfields :
            overlay !! "ObjectLockMode" = Some mode
            /\ overlay !! "ObjectLockLegalHoldStatus" = Some hold
            /\ overlay !! "TagSet" = Some tags
            /\ overlay !! "Size"
               = Some (JStr (bytesToSize (from_option JNum JUndefined (Size object))))
            /\ overlay !! "ETag" = Some (JStr (trimQuotes (getProp answer "ETag")))
            /\ overlay !! "IsDeleted" = Some (JBool (IsDeleted object))
            /\ overlay !! "NumVersions" = Some count).
  { subst overlay. clearbody mode hold tags count.
    generalize (trimQuotes (getProp answer "ETag")) as etag.
    generalize (localeDate (from_option JStr JUndefined (LastModified object))) as date.
    generalize (bytesToSize (from_option JNum JUndefined (Size object))) as size.
    generalize (localeDate (defaultTo (getProp answer "ObjectLockRetainUntilDate")
                              (JStr ""))) as until.
    generalize (IsDeleted object) as deleted.
    intros. repeat split; vm_compute; reflexivity. }
  destruct Hfields as (Fmode & Fhold & Ftags & Fsize & Fetag & Fdeleted & Fcount).
  assert (Hstored : getProp (merge answer overlay) "Key" = JStr (Key object)).
  { unfold getProp at 1. rewrite merge_lookup, Hother.
    - exact Hkey.
    - intros Hin. cbn in Hin. intuition discriminate. }
  rewrite Hstored. cbn [propertyKey objectAttrsCache set_objectAttrsCache].
  rewrite lookup_insert_eq. eexists. split; [reflexivity|].
  assert (Emode : merge answer overlay !! "ObjectLockMode" = Some mode).
  { rewrite merge_lookup, Fmode. destruct mode; tauto. }
  assert (Ehold : merge answer overlay !! "ObjectLockLegalHoldStatus" = Some hold).
  { rewrite merge_lookup, Fhold. destruct hold; tauto. }
  assert (Etags : merge answer overlay !! "TagSet" = Some tags).
  { rewrite merge_lookup, Ftags. destruct tags; tauto. }
  split; [exact Emode|]. split; [exact Ehold|]. split; [exact Etags|].
  split.
  { intros name [<- | [<- | [<- | []]]]; unfold getProp.
    - rewrite Emode. exact Hmode.
    - rewrite Ehold. exact Hhold.
    - rewrite Etags. exact Htags. }
  split; [now rewrite merge_lookup, Fsize|].
  split; [now rewrite merge_lookup, Fetag|].
  split; [now rewrite merge_lookup, Fdeleted|].
  split.
  { unfold getProp at 1. rewrite merge_lookup, Fcount. subst count.
    destruct (objectNumVersions p !! Key object); reflexivity. }
  intros name Hname. now rewrite merge_lookup, (Hother name Hname).
Qed.
Lemma storeAttrs_IsDeleted (objects : S3ObjectVersionList) (p : Page)
      (answer : gmap string JsVal) (object : S3ObjectVersion) :
  findByKey objects (getProp answer "Key") = Some object ->
  exists entry,
    objectAttrsCache (storeAttrs' objects p answer) !! Key object = Some entry
    /\ entry !! "IsDeleted" = Some (JBool (IsDeleted object)).
Proof.
  intros Hfind. pose proof (findByKey_key _ _ _ Hfind) as Hkey.
  unfold storeAttrs. rewrite Hfind.
  set (overlay := list_to_map _).
  assert (Hfields : overlay !! "Key" = None
                    /\ overlay !! "IsDeleted" = Some (JBool (IsDeleted object))).
  { subst overlay.
    generalize (numVersions p (Key object)) as count.
    generalize (trimQuotes (getProp answer "ETag")) as etag.
    generalize (localeDate (from_option JStr JUndefined (LastModified object))) as date.
    generalize (bytesToSize (from_option JNum JUndefined (Size object))) as size.
    generalize (localeDate (defaultTo (getProp answer "ObjectLockRetainUntilDate")
                              (JStr ""))) as until.
    generalize (defaultTo (getProp answer "ObjectLockMode") (JStr "NONE")) as mode.
    generalize (defaultTo (getProp answer "ObjectLockLegalHoldStatus") (JStr "OFF"))
      as hold.
    generalize (defaultTo (getProp answer "TagSet") (JTagSet [])) as tags.
    generalize (IsDeleted object) as deleted.
    intros. split; vm_compute; reflexivity. }
  destruct Hfields as [Hnone Hdeleted].
  assert (Hstored : getProp (merge answer overlay) "Key" = JStr (Key object)).
  { unfold getProp at 1. rewrite merge_lookup, Hnone. exact Hkey. }
  rewrite Hstored. cbn [propertyKey objectAttrsCache set_objectAttrsCache].
  rewrite lookup_insert_eq. eexists. split; [reflexivity|].
  now rewrite merge_lookup, Hdeleted.
Qed.

(** X25.  Given the record cached for an expanded row as the values of
    the form, the "Update" button is hidden exactly when the row is a
    deleted object: both for the record made up for a deleted row and for
    the record built from fetched attributes, whatever the answer says
    about deletion itself. *)
Theorem update_button_hidden
        (objects : S3ObjectVersionList) (p : Page)
        (answer : gmap string JsVal) (object : S3ObjectVersion) :
  updateHidden (deletedAttrs bytesToSize localeDate p object) = IsDeleted object
  /\ (findByKey objects (getProp answer "Key") = Some object ->
      exists entry,
        objectAttrsCache (storeAttrs' objects p answer) !! Key object = Some entry
        /\ updateHidden entry = IsDeleted object).
Proof.
  split.
  - assert (Hfield : deletedAttrs bytesToSize localeDate p object !! "IsDeleted"
                     = Some (JBool (IsDeleted object))).
    { unfold deletedAttrs.
      generalize (numVersions p (Key object)) as count.
      generalize (trimQuotes (from_option JStr JUndefined (ETag object))) as etag.
      generalize (localeDate (from_option JStr JUndefined (LastModified object)))
        as date.
      generalize (bytesToSize (from_option JNum JUndefined (Size object))) as size.
      intros size date etag count.
      destruct object as [key version latest deleted sz modified tag type].
      destruct version, sz, modified, tag; vm_compute; reflexivity. }
    unfold updateHidden, getOr, getProp. rewrite Hfield. reflexivity.
  - intros Hfind.
    destruct (storeAttrs_IsDeleted objects p answer object Hfind)
      as (entry & Hentry & Hdeleted).
    exists entry. split; [exact Hentry|].
    unfold updateHidden, getOr, getProp. rewrite Hdeleted. reflexivity.
Qed.
End ExpandedRowsBatch.

Lemma failed_fetch_stores_nothing_witness :
  objectAttrsCache
    (fst (onExpandedRowsChange (fun _ => "3 B") (fun _ => "1/1/2024") Example.listedPage
            [Example.liveRow; Example.markerRow] [Some (Err "gone")]))
  = objectAttrsCache
      (fst (collectSources (fun _ => "3 B") (fun _ => "1/1/2024") Example.listedPage
              [Example.liveRow; Example.markerRow])).
Proof.
  rewrite (failed_fetch_stores_nothing (fun _ => "3 B") (fun _ => "1/1/2024")
             Example.listedPage [Example.liveRow; Example.markerRow]
             [Some (Err "gone")] 0 "gone");
    [reflexivity | vm_compute; lia | reflexivity].
Defined.

Lemma no_request_no_purge_witness :
  objectAttrsCache
    (fst (onExpandedRowsChange (fun _ => "3 B") (fun _ => "1/1/2024")
            (set_objectAttrsCache {[ "a.txt" := Example.liveAttrs ]} Example.listedPage)
            [Example.markerRow] []))
    !! "a.txt" = Some Example.liveAttrs.
Proof.
  apply (no_request_no_purge (fun _ => "3 B") (fun _ => "1/1/2024")
           (set_objectAttrsCache {[ "a.txt" := Example.liveAttrs ]} Example.listedPage)
           [Example.markerRow] [] "a.txt" Example.liveAttrs);
    vm_compute; reflexivity.
Defined.

Lemma expanded_rows_cached_witness :
  is_Some (objectAttrsCache
             (fst (onExpandedRowsChange (fun _ => "3 B") (fun _ => "1/1/2024")
                     Example.listedPage [Example.liveRow; Example.markerRow]
                     (map (fun r => Some (Ok r)) [Example.liveAttrs]))) !! "b.txt").
Proof.
  apply (expanded_rows_cached (fun _ => "3 B") (fun _ => "1/1/2024") Example.listedPage
           [Example.liveRow; Example.markerRow] [Example.liveAttrs] "b.txt").
  - vm_compute. repeat constructor; intros H; inversion H; subst; inversion H2.
  - vm_compute. reflexivity.
  - vm_compute. discriminate.
  - vm_compute. repeat constructor.
  - reflexivity.
Defined.

Lemma fetched_record_display_witness :
  exists entry,
    objectAttrsCache
      (storeAttrs (fun _ => "3 B") (fun _ => "1/1/2024") [Example.liveRow]
         Example.listedPage Example.liveAttrs) !! "a.txt" = Some entry
    /\ entry !! "ObjectLockMode" = Some (JStr "NONE").
Proof.
  destruct (fetched_record_display (fun _ => "3 B") (fun _ => "1/1/2024")
              [Example.liveRow] Example.listedPage Example.liveAttrs Example.liveRow)
    as (entry & Hentry & Hmode & _); [reflexivity|].
  exists entry. split; [exact Hentry | exact Hmode].
Defined.

Lemma fetched_batch_cache_witness :
  loadingObjectAttrsKeys
    (fst (onExpandedRowsChange (fun _ => "3 B") (fun _ => "1/1/2024") Example.listedPage
            [Example.liveRow] (map (fun r => Some (Ok r)) [Example.liveAttrs])))
  = [].
Proof.
  apply (fetched_batch_cache (fun _ => "3 B") (fun _ => "1/1/2024") Example.listedPage
           [Example.liveRow] [Example.liveAttrs] "a.txt");
    [vm_compute; discriminate | vm_compute; reflexivity].
Defined.

(** ** toBytes on every string *)

Section ToBytesMore.
Import RegExp ToBytes.

Lemma star_result (test : ascii -> bool) (k : string -> option Captures)
      (s : string) (res : Captures) :
  star test k s = Some res ->
  exists s', k s' = Some res /\ String.length s' <= String.length s.
Proof.
  induction s as [|c s IH]; cbn [star].
  - intros H. now exists EmptyString.
  - destruct (test c).
    + destruct (star test k s) as [m|] eqn:Hstar.
      * intros [= <-]. destruct (IH eq_refl) as (s' & Hk & Hlen).
        exists s'. split; [exact Hk | cbn [String.length]; lia].
      * intros H. now exists (String c s).
    + intros H. now exists (String c s).
Qed.

(** A match runs its continuation on a rest of the input, with captures
    that differ from the ones it started with only at its own groups. *)
Lemma run_result (r : regex) :
  forall (s : string) (m : Captures) (k : string -> Captures -> option Captures)
         (res : Captures),
    run r s m k = Some res ->
    exists s' m',
      k s' m' = Some res
      /\ String.length s' <= String.length s
      /\ (forall i, ~ In i (groupsOf r) -> m' i = m i).
Proof.
  induction r as [test|test|r1 IH1 r2 IH2|r1 IH1 r2 IH2|r IH|index r IH];
    intros s m k res; cbn [run groupsOf].
  - destruct s as [|c rest]; [discriminate|]. destruct (test c); [|discriminate].
    intros H. exists rest, m. split; [exact H|]. split; [cbn; lia | reflexivity].
  - destruct s as [|c rest]; [discriminate|]. destruct (test c); [|discriminate].
    intros H. destruct (star_result _ _ _ _ H) as (s' & Hk & Hlen).
    exists s', m. split; [exact Hk|]. split; [cbn; lia | reflexivity].
  - intros H. destruct (IH1 _ _ _ _ H) as (s1 & m1 & H2 & Hlen1 & Hm1).
    destruct (IH2 _ _ _ _ H2) as (s2 & m2 & Hk & Hlen2 & Hm2).
    exists s2, m2. split; [exact Hk|]. split; [lia|].
    intros i Hi. rewrite Hm2, Hm1; [reflexivity| |]; intros Hin; apply Hi;
      apply List.in_app_iff; auto.
  - destruct (run r1 s m k) as [m1|] eqn:H1.
    + intros [= <-]. destruct (IH1 _ _ _ _ H1) as (s' & m' & Hk & Hlen & Hm).
      exists s', m'. split; [exact Hk|]. split; [exact Hlen|].
      intros i Hi. apply Hm. intros Hin. apply Hi, List.in_app_iff. auto.
    + intros H2. destruct (IH2 _ _ _ _ H2) as (s' & m' & Hk & Hlen & Hm).
      exists s', m'. split; [exact Hk|]. split; [exact Hlen|].
      intros i Hi. apply Hm. intros Hin. apply Hi, List.in_app_iff. auto.
  - match goal with |- context [run r s m ?k'] => destruct (run r s m k') as [m1|] eqn:H1 end.
    + intros [= <-]. destruct (IH _ _ _ _ H1) as (s' & m' & Hk & Hlen & Hm).
      destruct (String.length s' =? String.length s)%nat; [discriminate|].
      exists s', m'. auto.
    + intros H. exists s, m. auto.
  - intros H. destruct (IH _ _ _ _ H) as (s' & m' & Hk & Hlen & Hm).
    exists s', (setGroup index (captured s s') m'). split; [exact Hk|].
    split; [exact Hlen|]. intros i Hi. unfold setGroup.
    destruct (Nat.eqb_spec i index) as [->|Hne]; [exfalso; apply Hi; now left|].
    apply Hm. intros Hin. apply Hi. now right.
Qed.

Lemma run_plus_head (test : ascii -> bool) (r2 : regex) (s : string) (m : Captures)
      (k : string -> Captures -> option Captures) (res : Captures) :
  run (Seq (Plus test) r2) s m k = Some res ->
  exists c rest s' m',
    s = String c rest /\ test c = true /\ k s' m' = Some res
    /\ String.length s' <= String.length rest.
Proof.
  change (run (Seq (Plus test) r2) s m k)
    with (run (Plus test) s m (fun s' m' => run r2 s' m' k)).
  destruct s as [|c rest]; [discriminate|]. cbn [run].
  destruct (test c) eqn:Hc; [|discriminate].
  intros H. apply star_result in H as (s1 & H & Hlen1).
  apply run_result in H as (s2 & m2 & H & Hlen2 & _).
  exists c, rest, s2, m2. split; [reflexivity|]. split; [exact Hc|].
  split; [exact H | lia].
Qed.

Lemma parseFloat_digit_head (c : ascii) (rest : string) :
  isDigit c = true ->
  exists q, parseFloat (String c rest) = Finite q /\ (0 <= q)%Q.
Proof.
  intros Hc. unfold parseFloat. cbn [takeDigits]. rewrite Hc.
  destruct (takeDigits rest) as [digits left].
  match goal with
  | |- context [let (fp, afterFrac) := ?e in _] => destruct e as [fp afterFrac]
  end.
  eexists. split; [reflexivity|].
  apply Qmult_le_0_compat; [apply decimal_nonneg|].
  apply Qpower_0_le. discriminate.
Qed.

Lemma captured_head (c : ascii) (rest s' : string) :
  String.length s' <= String.length rest ->
  exists text, captured (String c rest) s' = String c text.
Proof.
  intros Hlen. unfold captured. cbn [String.length].
  replace (S (String.length rest) - String.length s')
    with (S (String.length rest - String.length s')) by lia.
  cbn [String.substring]. now eexists.
Qed.

(** What a match of the pattern leaves in capture 1: a text that begins
    with a digit. *)
Lemma exec_pattern_numeral (value : string) (res : Captures) :
  exec pattern value = Some res ->
  exists c text, isDigit c = true /\ res 1 = Some (String c text).
Proof.
  unfold exec, pattern.
  change (run (Seq (Group 1 ?x) tailPart) ?v noCaptures atEnd)
    with (run x v noCaptures
            (fun s' m' => run tailPart s' (setGroup 1 (captured v s') m') atEnd)).
  intros H. apply run_plus_head in H as (c & rest & s2 & m2 & -> & Hc & H & Hlen).
  apply (run_result tailPart) in H as (s3 & m3 & H & _ & Hm3).
  destruct s3; [|discriminate]. cbn [atEnd] in H. injection H as <-.
  destruct (captured_head c rest s2 Hlen) as [text Htext].
  exists c, text. split; [exact Hc|].
  rewrite Hm3.
  - unfold setGroup. cbn [Nat.eqb]. now rewrite Htext.
  - vm_compute. intuition discriminate.
Qed.

(** X11.  Whatever the string, [toBytes] does not answer NaN: when the
    pattern matches, its first capture, which is what [parseFloat] is given,
    begins with a digit, and there [parseFloat] finds a number. *)
Theorem toBytes_never_NaN (value : string) :
  toBytes value <> Some NaN
  /\ (forall m : Captures,
        exec pattern value = Some m ->
        exists c text,
          isDigit c = true /\ m 1 = Some (String c text)
          /\ parseFloat (String c text) <> NaN).
Proof.
  split.
  - unfold toBytes. destruct (exec pattern value) as [m|] eqn:Hexec; [|discriminate].
    destruct (exec_pattern_numeral value m Hexec) as (c & text & Hc & ->).
    cbn [default from_option id].
    destruct (parseFloat_digit_head c text Hc) as (q & -> & Hq).
    destruct (m 3) as [m3|]; cbn [scale Math_round]; discriminate.
  - intros m Hexec.
    destruct (exec_pattern_numeral value m Hexec) as (c & text & Hc & Hm).
    exists c, text. split; [exact Hc|]. split; [exact Hm|].
    destruct (parseFloat_digit_head c text Hc) as (q & -> & _). discriminate.
Qed.

Lemma round_whole (q : Q) (z : Z) : (q == inject_Z z)%Q -> round q = z.
Proof.
  intros Hq. rewrite (round_comp q (inject_Z z) Hq).
  unfold round, Qplus, inject_Z, Qfloor. cbn [Qnum Qden].
  change (Z.pos (1 * 2)) with 2%Z.
  symmetry. apply (Z.div_unique _ 2 z 1); lia.
Qed.

Lemma decimal_whole (ip : string) (k : Z) :
  (0 <= k)%Z ->
  (decimal ip EmptyString * 10 ^ 0 * 1024 ^ k == inject_Z (digitsValue 0 ip * 1024 ^ k))%Q.
Proof.
  intros Hk. unfold decimal. rewrite append_empty_r.
  change (inject_Z (10 ^ Z.of_nat (String.length EmptyString))) with 1%Q.
  change (10 ^ 0)%Q with 1%Q.
  rewrite inject_Z_mult, (Zpower_Qpower 1024 k Hk).
  change (inject_Z 1024) with 1024%Q.
  generalize (1024 ^ k)%Q as x. generalize (inject_Z (digitsValue 0 ip)) as v.
  intros v x. field.
Qed.

(** X12.  A whole number of digits in front of a unit is scaled without
    any rounding: the answer is the number times 1024 to the index of the
    unit letter (as long as that stays below 2^53, where the numbers of
    the language are exact). *)
Theorem toBytes_whole_number (ip : string) (space : bool) (us : string) (k : Z) :
  allDigits ip = true ->
  In (us, k) unitSpellings ->
  (digitsValue 0 ip * 1024 ^ k < 2 ^ 53)%Z ->
  toBytes (ip +:+ spacing space +:+ us)
  = Some (Finite (inject_Z (digitsValue 0 ip * 1024 ^ k))).
Proof.
  intros Hip Hin _.
  assert (Hk : (0 <= k)%Z).
  { pose proof unitSpellings_read as Htable. rewrite List.Forall_forall in Htable.
    destruct (Htable _ Hin) as (_ & _ & _ & Hk). now apply Z.leb_le in Hk. }
  destruct (exec_numeral ip None space us k Hip eq_refl Hin) as (r & Hexec & H1 & H3).
  cbn [numeral] in Hexec, H1.
  unfold toBytes. rewrite Hexec, H1. cbn [default from_option id].
  pose proof (parseFloat_numeral ip None Hip eq_refl) as Hfloat.
  cbn [numeral default from_option id] in Hfloat. rewrite Hfloat.
  destruct (r 3) as [m3|]; cbn [exponentOf] in H3; cbn [scale Math_round]; do 3 f_equal.
  - rewrite H3. apply round_whole, decimal_whole, Hk.
  - subst k. apply round_whole. rewrite <- (decimal_whole ip 0) by lia.
    change (1024 ^ 0)%Q with 1%Q. now rewrite Qmult_1_r.
Qed.

Lemma unitSpellings_read_after :
  Forall (fun entry =>
            tailReadsAfter (fst entry) (snd entry)
            /\ tailReadsAfter (String " " (fst entry)) (snd entry))
    unitSpellings.
Proof.
  let table := eval vm_compute in unitSpellings in
  change unitSpellings with table.
  repeat (apply List.Forall_cons;
          [ split; intros text second; vm_compute; reflexivity | ]).
  apply List.Forall_nil.
Qed.

(** Two runs of digits with one character between them, in front of
    [tail]: the optional group of the pattern takes the character and the
    second run. *)
Lemma run_separated (ip : string) (c : ascii) (digits tail : string)
      (k : string -> Captures -> option Captures) (r : Captures) :
  allDigits ip = true -> anyChar c = true -> isDigit c = false ->
  allDigits digits = true -> noDigits tail = true ->
  k tail (setGroup 2 (String c digits) noCaptures) = Some r ->
  run (Seq (Plus isDigit) (Opt (Group 2 (Seq (Chr anyChar) (Plus isDigit)))))
    (ip +:+ String c digits +:+ tail) noCaptures k = Some r.
Proof.
  intros Hip Hany Hc Hdigits Htail Hk.
  destruct (allDigits_spec ip Hip) as (c0 & ip' & -> & Hc0 & Hip').
  destruct (allDigits_spec digits Hdigits) as (c2 & d' & -> & Hc2 & Hd').
  change (String c0 ip' +:+ String c (String c2 d') +:+ tail)
    with (String c0 (ip' +:+ String c (String c2 (d' +:+ tail)))).
  cbn [run]. rewrite Hc0.
  apply star_digits; [exact Hip' | cbn [stopsDigits]; now rewrite Hc |].
  cbn [run]. rewrite Hany, Hc2.
  rewrite (star_digits _ d' tail r Hd' (noDigits_stops _ Htail)); [reflexivity|].
  replace (String.length tail =? String.length (String c (String c2 (d' +:+ tail))))%nat
    with false.
  - change (String c (String c2 (d' +:+ tail))) with (String c (String c2 d') +:+ tail).
    rewrite captured_prefix. exact Hk.
  - symmetry. apply Nat.eqb_neq. cbn [String.length]. rewrite length_append. lia.
Qed.

Lemma parseFloat_separated (ip : string) (c : ascii) (digits : string) :
  allDigits ip = true -> isDigit c = false -> exactly "." c = false ->
  letter "e" c = false ->
  parseFloat (ip +:+ String c digits) = Finite (decimal ip EmptyString * 10 ^ 0)%Q.
Proof.
  intros Hip Hc Hdot He. unfold parseFloat.
  rewrite (takeDigits_digits ip (String c digits) (allDigits_forallb ip Hip));
    [|cbn [stopsDigits]; now rewrite Hc].
  rewrite Hdot. cbn [exponentPart]. rewrite He.
  destruct ip; [discriminate|]. reflexivity.
Qed.

(** X13.  The dot of the pattern stands for any character, but only a dot
    makes a fraction: when another character (not a digit, not a line
    break, not the letter e) stands between two runs of digits, the string
    is accepted and everything from that character to the unit is dropped.
    The answer is the first run of digits times 1024 to the index of the
    unit letter (below 2^53, where the numbers of the language are
    exact). *)
Theorem toBytes_other_separator
        (ip : string) (c : ascii) (digits : string) (space : bool)
        (us : string) (k : Z) :
  allDigits ip = true ->
  allDigits digits = true ->
  anyChar c = true -> isDigit c = false -> exactly "." c = false ->
  letter "e" c = false ->
  In (us, k) unitSpellings ->
  (digitsValue 0 ip * 1024 ^ k < 2 ^ 53)%Z ->
  toBytes (ip +:+ String c digits +:+ spacing space +:+ us)
  = Some (Finite (inject_Z (digitsValue 0 ip * 1024 ^ k))).
Proof.
  intros Hip Hdigits Hany Hc Hdot He Hin _.
  pose proof unitSpellings_read as Htable. rewrite List.Forall_forall in Htable.
  destruct (Htable _ Hin) as (_ & _ & Hno & Hk). cbn [fst snd] in Hno, Hk.
  apply Z.leb_le in Hk.
  pose proof unitSpellings_read_after as Hafter. rewrite List.Forall_forall in Hafter.
  destruct (Hafter _ Hin) as (Hplain & Hspaced). cbn [fst snd] in Hplain, Hspaced.
  set (tail := spacing space +:+ us).
  assert (Htail : tailReadsAfter tail k) by (destruct space; assumption).
  assert (Hnone : noDigits tail = true) by (destruct space; [|exact Hno]; exact Hno).
  specialize (Htail (ip +:+ String c digits) (String c digits)).
  destruct (run tailPart tail (separatedCaptures (ip +:+ String c digits) (String c digits))
              atEnd) as [r|] eqn:Hr; [|discriminate].
  cbn [option_map] in Htail. injection Htail as H1 H3.
  assert (Hexec : exec pattern (ip +:+ String c digits +:+ tail) = Some r).
  { unfold exec, pattern.
    change (run (Seq (Group 1 ?x) tailPart) ?v noCaptures atEnd)
      with (run x v noCaptures
              (fun s' m' => run tailPart s' (setGroup 1 (captured v s') m') atEnd)).
    apply run_separated; try assumption.
    replace (ip +:+ String c digits +:+ tail) with ((ip +:+ String c digits) +:+ tail)
      by apply append_assoc.
    rewrite captured_prefix. exact Hr. }
  unfold toBytes. rewrite Hexec, H1. cbn [default from_option id].
  rewrite (parseFloat_separated ip c digits Hip Hc Hdot He).
  destruct (r 3) as [m3|]; cbn [exponentOf] in H3; cbn [scale Math_round]; do 3 f_equal.
  - rewrite H3. apply round_whole, decimal_whole, Hk.
  - subst k. apply round_whole. rewrite <- (decimal_whole ip 0) by lia.
    change (1024 ^ 0)%Q with 1%Q. now rewrite Qmult_1_r.
Qed.

Lemma letter_e (c : ascii) :
  letter "e" c = true -> anyChar c = true /\ isDigit c = false /\ exactly "." c = false.
Proof.
  destruct c as [[] [] [] [] [] [] [] []]; intros H; try discriminate H;
    repeat split; reflexivity.
Qed.

Lemma digit_no_sign (c : ascii) :
  isDigit c = true -> exactly "-" c = false /\ exactly "+" c = false.
Proof.
  destruct c as [[] [] [] [] [] [] [] []]; intros H; try discriminate H;
    split; reflexivity.
Qed.

Lemma parseFloat_exponent (ip : string) (c : ascii) (digits : string) :
  allDigits ip = true -> letter "e" c = true -> allDigits digits = true ->
  parseFloat (ip +:+ String c digits)
  = Finite (decimal ip EmptyString * 10 ^ digitsValue 0 digits)%Q.
Proof.
  intros Hip He Hdigits. destruct (letter_e c He) as (_ & Hc & Hdot).
  unfold parseFloat.
  rewrite (takeDigits_digits ip (String c digits) (allDigits_forallb ip Hip));
    [|cbn [stopsDigits]; now rewrite Hc].
  rewrite Hdot.
  assert (Hexponent : exponentPart (String c digits) = digitsValue 0 digits).
  { cbn [exponentPart]. rewrite He.
    pose proof (takeDigits_digits digits EmptyString
                  (allDigits_forallb _ Hdigits) eq_refl) as Htake.
    rewrite append_empty_r in Htake.
    destruct (allDigits_spec digits Hdigits) as (d0 & d' & -> & Hd0 & Hd').
    destruct (digit_no_sign d0 Hd0) as [-> ->]. now rewrite Htake. }
  rewrite Hexponent. destruct ip; [discriminate|]. reflexivity.
Qed.

Lemma decimal_exponent (ip : string) (e k : Z) :
  (0 <= e)%Z -> (0 <= k)%Z ->
  (decimal ip EmptyString * 10 ^ e * 1024 ^ k
   == inject_Z (digitsValue 0 ip * 10 ^ e * 1024 ^ k))%Q.
Proof.
  intros He Hk. unfold decimal. rewrite append_empty_r.
  change (inject_Z (10 ^ Z.of_nat (String.length EmptyString))) with 1%Q.
  rewrite !inject_Z_mult, (Zpower_Qpower 1024 k Hk), (Zpower_Qpower 10 e He).
  change (inject_Z 1024) with 1024%Q. change (inject_Z 10) with 10%Q.
  generalize (1024 ^ k)%Q as x. generalize (10 ^ e)%Q as y.
  generalize (inject_Z (digitsValue 0 ip)) as v.
  intros v y x. field.
Qed.

(** X26.  Because the dot of the pattern stands for any character, a
    numeral with an exponent is accepted, and [parseFloat] reads the
    exponent: digits, the letter e (or E), digits and a unit give the first
    number times ten to the second, times 1024 to the index of the unit
    letter (below 2^53, where the numbers of the language are exact). *)
Theorem toBytes_exponent
        (ip : string) (c : ascii) (digits : string) (space : bool)
        (us : string) (k : Z) :
  allDigits ip = true ->
  letter "e" c = true ->
  allDigits digits = true ->
  In (us, k) unitSpellings ->
  (digitsValue 0 ip * 10 ^ digitsValue 0 digits * 1024 ^ k < 2 ^ 53)%Z ->
  toBytes (ip +:+ String c digits +:+ spacing space +:+ us)
  = Some (Finite (inject_Z (digitsValue 0 ip * 10 ^ digitsValue 0 digits * 1024 ^ k))).
Proof.
  intros Hip He Hdigits Hin _. destruct (letter_e c He) as (Hany & Hc & _).
  pose proof unitSpellings_read as Htable. rewrite List.Forall_forall in Htable.
  destruct (Htable _ Hin) as (_ & _ & Hno & Hk). cbn [fst snd] in Hno, Hk.
  apply Z.leb_le in Hk.
  pose proof unitSpellings_read_after as Hafter. rewrite List.Forall_forall in Hafter.
  destruct (Hafter _ Hin) as (Hplain & Hspaced). cbn [fst snd] in Hplain, Hspaced.
  set (tail := spacing space +:+ us).
  assert (Htail : tailReadsAfter tail k) by (destruct space; assumption).
  assert (Hnone : noDigits tail = true) by (destruct space; [|exact Hno]; exact Hno).
  specialize (Htail (ip +:+ String c digits) (String c digits)).
  destruct (run tailPart tail (separatedCaptures (ip +:+ String c digits) (String c digits))
              atEnd) as [r|] eqn:Hr; [|discriminate].
  cbn [option_map] in Htail. injection Htail as H1 H3.
  assert (Hexec : exec pattern (ip +:+ String c digits +:+ tail) = Some r).
  { unfold exec, pattern.
    change (run (Seq (Group 1 ?x) tailPart) ?v noCaptures atEnd)
      with (run x v noCaptures
              (fun s' m' => run tailPart s' (setGroup 1 (captured v s') m') atEnd)).
    apply run_separated; try assumption.
    replace (ip +:+ String c digits +:+ tail) with ((ip +:+ String c digits) +:+ tail)
      by apply append_assoc.
    rewrite captured_prefix. exact Hr. }
  assert (Hexp : (0 <= digitsValue 0 digits)%Z) by (apply digitsValue_nonneg; lia).
  unfold toBytes. rewrite Hexec, H1. cbn [default from_option id].
  rewrite (parseFloat_exponent ip c digits Hip He Hdigits).
  destruct (r 3) as [m3|]; cbn [exponentOf] in H3; cbn [scale Math_round]; do 3 f_equal.
  - rewrite H3. apply round_whole, decimal_exponent; assumption.
  - subst k. apply round_whole. rewrite <- (decimal_exponent ip _ 0) by lia.
    change (1024 ^ 0)%Q with 1%Q. now rewrite Qmult_1_r.
Qed.
End ToBytesMore.

Lemma toBytes_whole_number_witness :
  ToBytes.toBytes "3 TiB" = Some (ToBytes.Finite (inject_Z 3298534883328)).
Proof.
  apply (toBytes_whole_number "3" true "TiB" 4);
    [reflexivity | vm_compute; tauto | reflexivity].
Defined.

Lemma toBytes_exponent_witness :
  ToBytes.toBytes "2e3 KiB" = Some (ToBytes.Finite (inject_Z 2048000)).
Proof.
  apply (toBytes_exponent "2" "e"%char "3" true "KiB" 1);
    [reflexivity | reflexivity | reflexivity | vm_compute; tauto | reflexivity].
Defined.

Lemma toBytes_other_separator_witness :
  ToBytes.toBytes "1,5 GiB" = Some (ToBytes.Finite (inject_Z 1073741824)).
Proof.
  apply (toBytes_other_separator "1" ","%char "5" true "GiB" 3);
    [reflexivity | reflexivity | reflexivity | reflexivity | reflexivity | reflexivity
    | vm_compute; tauto | reflexivity].
Defined.

(** ** Updating a bucket *)

Section BucketUpdate.
Import AdminOpsBucketService.

Lemma isEqualOrUndefined_spec {A} `{EqDecision A} (value other : option A) :
  isEqualOrUndefined value other = true <-> sameOrUndefined value other.
Proof.
  unfold isEqualOrUndefined, isEqual, sameOrUndefined.
  destruct value as [v|], other as [o|]; try tauto.
  rewrite bool_decide_eq_true. split; [auto|]. intros [H|[H|H]]; congruence.
Qed.

Lemma attributesDiffer_spec (b currentBucket : Bucket) :
  attributesDiffer b currentBucket = false
  <-> sameOrUndefined (tags b) (tags currentBucket)
      /\ sameOrUndefined (versioning_enabled b) (versioning_enabled currentBucket)
      /\ sameOrUndefined (retention_enabled b) (retention_enabled currentBucket)
      /\ sameOrUndefined (retention_mode b) (retention_mode currentBucket)
      /\ sameOrUndefined (retention_validity b) (retention_validity currentBucket)
      /\ sameOrUndefined (retention_unit b) (retention_unit currentBucket).
Proof.
  unfold attributesDiffer. rewrite !orb_false_iff, !negb_false_iff.
  rewrite !isEqualOrUndefined_spec. tauto.
Qed.

(** X14.  [update] sends no request exactly when the owner is not given or
    is the current one, and each of the tags, the versioning flag and the
    four retention settings is undefined on one side or the same on both;
    the bucket handed out is then the one that was read, at once. *)
Theorem update_without_request (b currentBucket : Bucket) :
  (fst (update_sources b currentBucket) = []
   <-> (owner b = None \/ owner b = owner currentBucket)
       /\ sameOrUndefined (tags b) (tags currentBucket)
       /\ sameOrUndefined (versioning_enabled b) (versioning_enabled currentBucket)
       /\ sameOrUndefined (retention_enabled b) (retention_enabled currentBucket)
       /\ sameOrUndefined (retention_mode b) (retention_mode currentBucket)
       /\ sameOrUndefined (retention_validity b) (retention_validity currentBucket)
       /\ sameOrUndefined (retention_unit b) (retention_unit currentBucket))
  /\ (fst (update_sources b currentBucket) = [] ->
      forall outcomes,
        update b (Ok currentBucket) outcomes
        = ([], mkObservable [currentBucket] Completed)).
Proof.
  rewrite <- attributesDiffer_spec. unfold update, update_sources.
  destruct (owner b) as [newOwner|] eqn:Howner.
  - destruct (bool_decide (Some newOwner = owner currentBucket)) eqn:Hsame; cbn [negb].
    + apply bool_decide_eq_true in Hsame.
      destruct (attributesDiffer b currentBucket); cbn [fst snd app].
      * split; [|discriminate]. split; [discriminate|]. intros [_ H]. discriminate.
      * split; [|reflexivity]. split; [|reflexivity]. intros _. split; [now right|reflexivity].
    + apply bool_decide_eq_false in Hsame.
      change (attributesDiffer b (set_owner (Some newOwner) currentBucket))
        with (attributesDiffer b currentBucket).
      destruct (attributesDiffer b currentBucket); cbn [fst snd app];
        (split; [|discriminate]); (split; [discriminate|]);
        intros [[H|H] _]; congruence.
  - destruct (attributesDiffer b currentBucket); cbn [fst snd app].
    + split; [|discriminate]. split; [discriminate|]. intros [_ H]. discriminate.
    + split; [|reflexivity]. split; [|reflexivity]. intros _. split; [now left|reflexivity].
Qed.

Lemma isEqual_true {A} `{EqDecision A} (value other : option A) :
  isEqual value other = true -> value = other.
Proof. unfold isEqual. apply bool_decide_eq_true. Qed.

Ltac fields :=
  cbn [set_tags set_owner set_versioning_enabled set_retention
         AdminOpsBucketService.id bucket owner tags versioning_enabled
         object_lock_enabled retention_enabled retention_mode
         retention_validity retention_unit].

Lemma overwritten_spec {A} `{EqDecision A} (given current : option A) :
  (if negb (isEqualOrUndefined given current) then given else current)
  = overwritten given current.
Proof.
  unfold isEqualOrUndefined, isEqual, overwritten.
  destruct given as [v|], current as [c|]; try reflexivity.
  destruct (decide (Some v = Some c)) as [Heq|Hne].
  - rewrite bool_decide_eq_true_2 by exact Heq. cbn. now rewrite Heq.
  - rewrite bool_decide_eq_false_2 by exact Hne. reflexivity.
Qed.

(** X15.  The bucket [update] hands out: the owner is the given one when
    one is given; the tags and the versioning flag are the given ones when
    both sides have a value, else the current ones; the object lock flag,
    the id and the name are never touched.  The four retention settings
    are taken over from the given bucket as a whole, the undefined ones
    included, as soon as the current bucket has object locking and some
    attribute differs; they stay as they are otherwise. *)
Theorem update_result (b currentBucket : Bucket) :
  let result := snd (update_sources b currentBucket) in
  owner result = from_option Some (owner currentBucket) (owner b)
  /\ tags result = overwritten (tags b) (tags currentBucket)
  /\ versioning_enabled result
     = overwritten (versioning_enabled b) (versioning_enabled currentBucket)
  /\ object_lock_enabled result = object_lock_enabled currentBucket
  /\ AdminOpsBucketService.id result = AdminOpsBucketService.id currentBucket
  /\ bucket result = bucket currentBucket
  /\ (retention_enabled result, retention_mode result,
      retention_validity result, retention_unit result)
     = if attributesDiffer b currentBucket
          && bool_decide (object_lock_enabled currentBucket = Some true)
       then (retention_enabled b, retention_mode b,
             retention_validity b, retention_unit b)
       else (retention_enabled currentBucket, retention_mode currentBucket,
             retention_validity currentBucket, retention_unit currentBucket).
Proof.
  cbv zeta. unfold update_sources.
  set (current1 :=
         match owner b with
         | Some newOwner =>
             if negb (bool_decide (Some newOwner = owner currentBucket))
             then (set_owner (owner b) currentBucket,
                   [] ++ [Link (bucket b) (AdminOpsBucketService.id b) newOwner])
             else (currentBucket, [])
         | None => (currentBucket, [])
         end).
  assert (Hcurrent : exists sources other,
             current1 = (set_owner other currentBucket, sources)
             /\ other = from_option Some (owner currentBucket) (owner b)).
  { subst current1. destruct (owner b) as [newOwner|] eqn:Howner.
    - destruct (bool_decide (Some newOwner = owner currentBucket)) eqn:Hsame; cbn [negb].
      + apply bool_decide_eq_true in Hsame. exists [], (owner currentBucket).
        split; [now destruct currentBucket | now rewrite <- Hsame].
      + eexists _, _. split; reflexivity.
    - exists [], (owner currentBucket). split; [now destruct currentBucket | reflexivity]. }
  destruct Hcurrent as (sources & other & -> & ->).
  change (attributesDiffer b (set_owner ?o currentBucket))
    with (attributesDiffer b currentBucket).
  destruct (attributesDiffer b currentBucket) eqn:Hdiffer; cbn [andb snd].
  - rewrite <- !overwritten_spec. unfold retentionDiffers.
    change (tags (set_owner ?o currentBucket)) with (tags currentBucket).
    destruct (negb (isEqualOrUndefined (tags b) (tags currentBucket))); fields;
      (destruct (negb (isEqualOrUndefined (versioning_enabled b)
                         (versioning_enabled currentBucket))); fields);
      (destruct (bool_decide (object_lock_enabled currentBucket = Some true));
       cbn [andb]; fields; [|repeat split]);
      (destruct (isEqual (retention_enabled b) (retention_enabled currentBucket))
         eqn:H1; cbn [negb orb]; fields; [|repeat split]);
      (destruct (isEqual (retention_mode b) (retention_mode currentBucket))
         eqn:H2; cbn [negb orb]; fields; [|repeat split]);
      (destruct (isEqual (retention_validity b) (retention_validity currentBucket))
         eqn:H3; cbn [negb orb]; fields; [|repeat split]);
      (destruct (isEqual (retention_unit b) (retention_unit currentBucket))
         eqn:H4; cbn [negb orb]; fields; [|repeat split]);
      apply isEqual_true in H1; apply isEqual_true in H2;
      apply isEqual_true in H3; apply isEqual_true in H4;
      repeat split; congruence.
  - apply attributesDiffer_spec in Hdiffer as (Htags & Hversioning & _).
    apply isEqualOrUndefined_spec in Htags, Hversioning.
    rewrite <- !overwritten_spec, Htags, Hversioning. cbn [negb].
    repeat split.
Qed.

(** X16.  When the owner changes and some attribute differs, the bucket is
    first linked to the new owner and only then are the attributes set, on
    behalf of the new owner.  If linking fails, the attributes are never
    sent and the error is passed on; if setting the attributes fails, the
    error is passed on although the bucket has been linked; the bucket is
    handed out, once, only after both have succeeded. *)
Theorem update_owner_first
        (b currentBucket : Bucket) (newOwner message : string)
        (rest : list (option (Outcome unit))) :
  owner b = Some newOwner ->
  owner currentBucket <> Some newOwner ->
  attributesDiffer b currentBucket = true ->
  let link := Link (bucket b) (AdminOpsBucketService.id b) newOwner in
  let attributes := SetAttributes b (Some newOwner) in
  fst (update_sources b currentBucket) = [link; attributes]
  /\ update b (Ok currentBucket) (Some (Err message) :: rest)
     = ([link], mkObservable [] (Failed message))
  /\ update b (Ok currentBucket) (Some (Ok tt) :: Some (Err message) :: rest)
     = ([link; attributes], mkObservable [] (Failed message))
  /\ update b (Ok currentBucket) (Some (Ok tt) :: Some (Ok tt) :: rest)
     = ([link; attributes],
        mkObservable [snd (update_sources b currentBucket)] Completed)
  /\ update b (Ok currentBucket) [Some (Ok tt)]
     = ([link; attributes], mkObservable [] Outstanding).
Proof.
  intros Howner Hother Hdiffer. cbv zeta.
  assert (Hsources : exists result,
             update_sources b currentBucket
             = ([Link (bucket b) (AdminOpsBucketService.id b) newOwner;
                 SetAttributes b (Some newOwner)], result)).
  { unfold update_sources. rewrite Howner.
    rewrite bool_decide_eq_false_2 by congruence. cbn [negb].
    change (attributesDiffer b (set_owner ?o currentBucket))
      with (attributesDiffer b currentBucket).
    rewrite Hdiffer. cbn [app]. now eexists. }
  destruct Hsources as [result Hsources].
  unfold update. rewrite Hsources. cbn [fst snd]. repeat split.
Qed.
End BucketUpdate.

Lemma update_owner_first_witness :
  fst (AdminOpsBucketService.update_sources
         (AdminOpsBucketService.mkBucket (Some "id1") (Some "photos") (Some "bob")
            (Some [("team", "b")]) None None None None None None)
         (AdminOpsBucketService.mkBucket (Some "id1") (Some "photos") (Some "alice")
            (Some [("team", "a")]) (Some false) (Some false) None None None None))
  = [AdminOpsBucketService.Link (Some "photos") (Some "id1") "bob";
     AdminOpsBucketService.SetAttributes
       (AdminOpsBucketService.mkBucket (Some "id1") (Some "photos") (Some "bob")
          (Some [("team", "b")]) None None None None None None)
       (Some "bob")].
Proof.
  apply (update_owner_first
           (AdminOpsBucketService.mkBucket (Some "id1") (Some "photos") (Some "bob")
              (Some [("team", "b")]) None None None None None None)
           (AdminOpsBucketService.mkBucket (Some "id1") (Some "photos") (Some "alice")
              (Some [("team", "a")]) (Some false) (Some false) None None None None)
           "bob" "denied" []);
    [reflexivity | discriminate | vm_compute; reflexivity].
Defined.

(** ** The datatable: selection *)

Section DatatableSelection.
Import Datatable.

Lemma storage_lookup_insert (storage : Storage) (key : string) (settings : Settings) :
  <[key := settings]> storage !! key = Some settings.
Proof. apply lookup_insert_eq. Qed.

Lemma strictEquals_eq (a b : Primitive) : strictEquals a b = true <-> a = b.
Proof.
  destruct a, b; cbn [strictEquals]; try (split; [discriminate|congruence]);
    try tauto.
  - rewrite Bool.eqb_true_iff. split; congruence.
  - rewrite Z.eqb_eq. split; congruence.
  - rewrite String.eqb_eq. split; congruence.
Qed.

Lemma matchesProperty_spec (path : string) (value : Primitive) (row : DatatableData) :
  matchesProperty path value row = true <-> row !! path = Some value.
Proof.
  unfold matchesProperty. destruct (row !! path) as [v|].
  - rewrite strictEquals_eq. split; congruence.
  - split; discriminate.
Qed.

(** A row that is found by the identifier of another finds the same rows
    itself. *)
Lemma sameIdentifier_found (t : Table) (row item : DatatableData) :
  sameIdentifier t row item = true ->
  forall other, sameIdentifier t item other = sameIdentifier t row other.
Proof.
  unfold sameIdentifier. intros Hitem other.
  apply matchesProperty_spec in Hitem. unfold get at 1. now rewrite Hitem.
Qed.

Lemma find_ext {A} (f g : A -> bool) (l : list A) :
  (forall x, f x = g x) -> List.find f l = List.find g l.
Proof.
  intros Hfg. induction l as [|x l IH]; [reflexivity|].
  cbn [List.find]. now rewrite Hfg, IH.
Qed.

Lemma updateSelection_fold (t : Table) (items newSelection : list DatatableData) :
  fold_left (fun newSelection selectedItem =>
               match List.find (sameIdentifier t selectedItem) (filteredData t) with
               | Some item => newSelection ++ [item]
               | None => newSelection
               end) items newSelection
  = newSelection ++ omap (refreshed t) items.
Proof.
  revert newSelection. induction items as [|s items IH]; intros newSelection.
  - cbn. now rewrite app_nil_r.
  - cbn [fold_left omap list_omap]. rewrite IH. unfold refreshed at 2.
    destruct (List.find (sameIdentifier t s) (filteredData t)); [|reflexivity].
    now rewrite <- app_assoc.
Qed.

Lemma updateSelection_selected (t : Table) :
  selected (updateSelection t) = omap (refreshed t) (selected t).
Proof.
  unfold updateSelection. cbn [selected updateIsAllRowsSelected set_isAllRowsSelected
                                 set_selected].
  now rewrite updateSelection_fold.
Qed.

Lemma refreshed_again (t : Table) (items : list DatatableData) :
  omap (refreshed t) (omap (refreshed t) items) = omap (refreshed t) items.
Proof.
  induction items as [|s items IH]; [reflexivity|].
  cbn [omap list_omap]. destruct (refreshed t s) as [item|] eqn:Hitem; [|exact IH].
  cbn [omap list_omap]. rewrite IH.
  assert (Hsame : refreshed t item = Some item).
  { unfold refreshed in *. pose proof (List.find_some _ _ Hitem) as [_ Hfound].
    rewrite (find_ext _ _ _ (sameIdentifier_found t s item Hfound)). exact Hitem. }
  now rewrite Hsame.
Qed.

Lemma omap_length_le {A B} (f : A -> option B) (l : list A) :
  length (omap f l) <= length l.
Proof.
  induction l as [|x l IH]; [reflexivity|].
  cbn [omap list_omap]. destruct (f x); cbn [length]; lia.
Qed.

Lemma find_first {A} (f : A -> bool) (l : list A) (x : A) :
  List.find f l = Some x
  <-> exists before after,
        l = before ++ x :: after /\ f x = true /\ Forall (fun y => f y = false) before.
Proof.
  induction l as [|y l IH]; cbn [List.find].
  - split; [discriminate|]. intros (before & after & Hl & _). now destruct before.
  - destruct (f y) eqn:Hy.
    + split.
      * intros [= ->]. exists [], l. repeat split; [exact Hy|constructor].
      * intros (before & after & Hl & Hx & Hbefore). destruct before as [|z before].
        -- now injection Hl as -> _.
        -- injection Hl as -> _. apply Forall_cons in Hbefore as [Hz _]. congruence.
    + rewrite IH. split.
      * intros (before & after & -> & Hx & Hbefore). exists (y :: before), after.
        repeat split; [exact Hx|]. now constructor.
      * intros (before & after & Hl & Hx & Hbefore). destruct before as [|z before].
        -- injection Hl as -> _. congruence.
        -- injection Hl as -> ->. apply Forall_cons in Hbefore as [_ Hbefore].
           now exists before, after.
Qed.

Lemma find_nothing {A} (f : A -> bool) (l : list A) :
  List.find f l = None <-> Forall (fun y => f y = false) l.
Proof.
  induction l as [|y l IH]; cbn [List.find].
  - split; [constructor|reflexivity].
  - rewrite Forall_cons. destruct (f y); [|rewrite IH; tauto].
    split; [discriminate|]. intros [Hy _]. discriminate.
Qed.

Lemma sameIdentifier_false (t : Table) (s row : DatatableData) :
  sameIdentifier t s row = false <-> row !! identifier t <> Some (get s (identifier t)).
Proof.
  unfold sameIdentifier. rewrite <- matchesProperty_spec.
  now destruct (matchesProperty _ _ _).
Qed.

(** X17.  [updateSelection] replaces every selected row, in the order of
    the selection, by the first row on display whose identifier property is
    that of the selected row, and drops the selected rows that have no such
    row on display.  Afterwards every selected row is one of the rows on
    display, the selection has not grown, "all rows selected" says whether
    it is non-empty and as long as the display, and doing it again changes
    nothing. *)
Theorem updateSelection_follows_display (t : Table) :
  let t' := updateSelection t in
  selected t' = omap (refreshed t) (selected t)
  /\ (forall s item,
        refreshed t s = Some item
        <-> exists before after,
              filteredData t = before ++ item :: after
              /\ item !! identifier t = Some (get s (identifier t))
              /\ Forall (fun row => row !! identifier t <> Some (get s (identifier t)))
                   before)
  /\ (forall s,
        refreshed t s = None
        <-> Forall (fun row => row !! identifier t <> Some (get s (identifier t)))
              (filteredData t))
  /\ Forall (fun item => In item (filteredData t)) (selected t')
  /\ length (selected t') <= length (selected t)
  /\ filteredData t' = filteredData t
  /\ isAllRowsSelected t'
     = ((0 <? length (selected t'))%nat
        && (length (selected t') =? length (filteredData t))%nat)
  /\ updateSelection t' = t'.
Proof.
  cbv zeta. split; [apply updateSelection_selected|].
  split.
  { intros s item. unfold refreshed. rewrite find_first.
    split; intros (before & after & Hl & Hx & Hbefore); exists before, after;
      (split; [exact Hl|]); split.
    - now apply matchesProperty_spec.
    - eapply List.Forall_impl; [|exact Hbefore]. intros row. apply sameIdentifier_false.
    - now apply matchesProperty_spec.
    - eapply List.Forall_impl; [|exact Hbefore]. intros row. apply sameIdentifier_false. }
  split.
  { intros s. unfold refreshed. rewrite find_nothing.
    split; intros H; (eapply List.Forall_impl; [|exact H]); intros row;
      apply sameIdentifier_false. }
  split; [|split; [|split; [|split]]].
  - rewrite updateSelection_selected. apply List.Forall_forall. intros item Hin.
    apply list_elem_of_In, list_elem_of_omap in Hin as (s & _ & Hfound).
    unfold refreshed in Hfound. now apply List.find_some in Hfound as [Hin _].
  - rewrite updateSelection_selected. apply omap_length_le.
  - reflexivity.
  - unfold updateSelection. cbn [isAllRowsSelected updateIsAllRowsSelected
                                   set_isAllRowsSelected selected set_selected
                                   filteredData]. reflexivity.
  - unfold updateSelection at 1.
    change (filteredData (updateSelection t)) with (filteredData t).
    change (sameIdentifier (updateSelection t)) with (sameIdentifier t).
    rewrite updateSelection_fold. cbn [app].
    rewrite updateSelection_selected, refreshed_again.
    unfold updateSelection. rewrite updateSelection_fold. cbn [app].
    reflexivity.
Qed.

Lemma sameIdentifier_self (t : Table) (row : DatatableData) :
  sameIdentifier t row row = true <-> is_Some (row !! identifier t).
Proof.
  unfold sameIdentifier. rewrite matchesProperty_spec. unfold get.
  destruct (row !! identifier t) as [v|]; cbn.
  - split; [now eexists | reflexivity].
  - split; [discriminate | intros [v Hv]; discriminate].
Qed.

Lemma findIndex_snoc {A} (predicate : A -> bool) (array : list A) (x : A) :
  findIndex predicate array = None ->
  findIndex predicate (array ++ [x])
  = if predicate x then Some (length array) else None.
Proof.
  induction array as [|y array IH]; cbn [findIndex app length].
  - intros _. now destruct (predicate x).
  - destruct (predicate y); [discriminate|].
    destruct (findIndex predicate array); [discriminate|]. intros _.
    rewrite (IH eq_refl). now destruct (predicate x).
Qed.

Lemma delete_snoc {A} (array : list A) (x : A) :
  delete (length array) (array ++ [x]) = array.
Proof.
  induction array as [|y array IH]; [reflexivity|].
  cbn [length app]. change (delete (S ?n) (y :: ?l)) with (y :: delete n l).
  now rewrite IH.
Qed.

(** X18.  With multiple selection, a click on a row of which the selection
    has no like (no row of the same identifier) adds the row at the end and
    announces the new selection; a second click on it takes it out again
    and leaves the selection as it was.  A row that has no identifier at
    all is never recognised: the second click adds it once more. *)
Theorem onSelectRow_multi (t : Table) (row : DatatableData) :
  selectionType t = multi ->
  findIndex (sameIdentifier t row) (selected t) = None ->
  let t1 := fst (onSelectRow t row) in
  let t2 := fst (onSelectRow t1 row) in
  selected t1 = selected t ++ [row]
  /\ snd (onSelectRow t row) = [EmitSelectionChange (selected t ++ [row])]
  /\ (is_Some (row !! identifier t) -> selected t2 = selected t)
  /\ (row !! identifier t = None -> selected t2 = selected t ++ [row; row]).
Proof.
  intros Hmulti Hnew. cbv zeta.
  assert (Hfirst : onSelectRow t row
                   = (updateIsAllRowsSelected (set_selected (selected t ++ [row]) t),
                      [EmitSelectionChange (selected t ++ [row])])).
  { unfold onSelectRow. now rewrite Hnew, Hmulti. }
  rewrite Hfirst. cbn [fst snd]. split; [reflexivity|]. split; [reflexivity|].
  unfold onSelectRow.
  change (sameIdentifier (updateIsAllRowsSelected (set_selected ?l t)))
    with (sameIdentifier t).
  change (selected (updateIsAllRowsSelected (set_selected ?l t))) with l.
  change (selectionType (updateIsAllRowsSelected (set_selected ?l t)))
    with (selectionType t).
  rewrite (findIndex_snoc _ _ _ Hnew), Hmulti.
  split.
  - intros Hid. apply sameIdentifier_self in Hid. rewrite Hid.
    cbn [fst selected updateIsAllRowsSelected set_isAllRowsSelected set_selected].
    apply delete_snoc.
  - intros Hid.
    assert (Hself : sameIdentifier t row row = false).
    { destruct (sameIdentifier t row row) eqn:H; [|reflexivity].
      apply sameIdentifier_self in H as [v Hv]. congruence. }
    rewrite Hself.
    cbn [fst selected updateIsAllRowsSelected set_isAllRowsSelected set_selected].
    now rewrite <- app_assoc.
Qed.

(** X19.  With single selection, a selection of at most one row stays one
    of at most one row under every click.  While a row is selected, the
    check box of every row of another identifier is disabled; a click on
    the selected row (or its like) empties the selection, and a click on
    any other row makes that row the selection. *)
Theorem onSelectRow_single (t : Table) (row : DatatableData) (column : DatatableColumn) :
  selectionType t = single ->
  length (selected t) <= 1 ->
  cellTemplateName column = Some "rowSelect" ->
  length (selected (fst (onSelectRow t row))) <= 1
  /\ (selected t = [] ->
      renderCellDisabled t row column = false
      /\ selected (fst (onSelectRow t row)) = [row])
  /\ (forall chosen, selected t = [chosen] ->
      renderCellDisabled t row column = negb (sameIdentifier t row chosen)
      /\ selected (fst (onSelectRow t row))
         = if sameIdentifier t row chosen then [] else [row]).
Proof.
  intros Hsingle Hone Hcolumn.
  unfold renderCellDisabled, onSelectRow. rewrite Hcolumn, Hsingle.
  cbn [String.eqb Ascii.eqb Bool.eqb].
  destruct (selected t) as [|chosen [|another rest]] eqn:Hselected;
    [| |cbn [length] in Hone; lia].
  - cbn. split; [lia|]. split; [intros _; split; reflexivity | intros ? [=]].
  - cbn [findIndex List.find].
    destruct (sameIdentifier t row chosen) eqn:Hsame; cbn.
    + split; [lia|]. split; [discriminate|]. intros ? [= <-]. now rewrite Hsame.
    + split; [lia|]. split; [discriminate|]. intros ? [= <-]. now rewrite Hsame.
Qed.

(** X20.  A click on the check box of the header, while not all rows are
    selected, selects the rows on display, all of them and in their order,
    and announces them; "all rows selected" is then set unless there is no
    row.  A second click empties the selection again. *)
Theorem onHeaderSelectRows_twice (t : Table) :
  isAllRowsSelected t = false ->
  let t1 := fst (onHeaderSelectRows t) in
  let t2 := fst (onHeaderSelectRows t1) in
  selected t1 = filteredData t
  /\ snd (onHeaderSelectRows t) = [EmitSelectionChange (filteredData t)]
  /\ isAllRowsSelected t1 = (0 <? length (filteredData t))%nat
  /\ selected t2 = []
  /\ isAllRowsSelected t2 = false.
Proof.
  intros Hnot. cbv zeta.
  assert (Hfirst : onHeaderSelectRows t
                   = (updateIsAllRowsSelected (set_selected (filteredData t) t),
                      [EmitSelectionChange (filteredData t)])).
  { unfold onHeaderSelectRows. now rewrite Hnot. }
  rewrite Hfirst. cbn [fst snd].
  split; [reflexivity|]. split; [reflexivity|].
  split.
  { cbn [selected isAllRowsSelected updateIsAllRowsSelected set_isAllRowsSelected
           set_selected filteredData].
    now rewrite Nat.eqb_refl, andb_true_r. }
  unfold onHeaderSelectRows.
  cbn [fst snd selected isAllRowsSelected updateIsAllRowsSelected
         set_isAllRowsSelected set_selected filteredData].
  rewrite Nat.eqb_refl, andb_true_r.
  destruct (filteredData t) as [|r rows]; split; reflexivity.
Qed.
End DatatableSelection.

Lemma onSelectRow_multi_witness :
  Datatable.selected
    (fst (Datatable.onSelectRow
            (fst (Datatable.onSelectRow
                    (Datatable.mkTable [] 25 None Datatable.ascending "id"
                       Datatable.multi None [] 1 false "" [] [] [])
                    {[ "id" := Datatable.PStr "a" ]}))
            {[ "id" := Datatable.PStr "a" ]}))
  = [].
Proof.
  apply (onSelectRow_multi
           (Datatable.mkTable [] 25 None Datatable.ascending "id"
              Datatable.multi None [] 1 false "" [] [] [])
           {[ "id" := Datatable.PStr "a" ]});
    [reflexivity | reflexivity | vm_compute; eauto].
Defined.

Lemma onSelectRow_single_witness :
  length
    (Datatable.selected
       (fst (Datatable.onSelectRow
               (Datatable.mkTable [] 25 None Datatable.ascending "id"
                  Datatable.single None [ {[ "id" := Datatable.PStr "a" ]} ]
                  1 false "" [] [] [])
               {[ "id" := Datatable.PStr "b" ]}))) <= 1.
Proof.
  apply (onSelectRow_single
           (Datatable.mkTable [] 25 None Datatable.ascending "id"
              Datatable.single None [ {[ "id" := Datatable.PStr "a" ]} ]
              1 false "" [] [] [])
           {[ "id" := Datatable.PStr "b" ]}
           (Datatable.mkColumn "" "" None None None (Some "rowSelect")));
    [reflexivity | cbn; lia | reflexivity].
Defined.

Lemma onHeaderSelectRows_twice_witness :
  Datatable.selected
    (fst (Datatable.onHeaderSelectRows
            (Datatable.mkTable [] 25 None Datatable.ascending "id"
               Datatable.multi None [] 1 false ""
               [ {[ "id" := Datatable.PStr "a" ]}; {[ "id" := Datatable.PStr "b" ]} ]
               [] [])))
  = [ {[ "id" := Datatable.PStr "a" ]}; {[ "id" := Datatable.PStr "b" ]} ].
Proof.
  apply (onHeaderSelectRows_twice
           (Datatable.mkTable [] 25 None Datatable.ascending "id"
              Datatable.multi None [] 1 false ""
              [ {[ "id" := Datatable.PStr "a" ]}; {[ "id" := Datatable.PStr "b" ]} ]
              [] [])).
  reflexivity.
Defined.

(** ** The datatable: pages, sorting and stored state *)

Section DatatablePages.
Import Datatable.
Variable orderBy : list DatatableData -> option string -> SortDirection -> list DatatableData.
Variable matchesSearch : list DatatableColumn -> string -> DatatableData -> bool.

Local Abbreviation applyFilters' := (applyFilters orderBy matchesSearch).

Lemma slice_page {A} (array : list A) (start size : Z) :
  (0 <= start)%Z -> (0 <= size)%Z ->
  slice array start (start + size)
  = take (Z.to_nat size) (drop (Z.to_nat start) array).
Proof.
  intros Hstart Hsize. unfold slice, relativeIndex.
  destruct (Z.ltb_spec start 0) as [|_]; [lia|].
  destruct (Z.ltb_spec (start + size) 0) as [|_]; [lia|].
  destruct (Z.le_gt_cases start (Z.of_nat (length array))) as [Hin|Hout].
  - rewrite (Z.min_l start) by lia.
    destruct (Z.le_gt_cases (start + size) (Z.of_nat (length array))) as [Hfull|Hshort].
    + rewrite Z.min_l by lia. f_equal. lia.
    + rewrite Z.min_r by lia. rewrite !take_ge; [reflexivity| |];
        rewrite length_drop; lia.
  - rewrite !(Z.min_r _ (Z.of_nat (length array))) by lia.
    rewrite Z.sub_diag. cbn [Z.to_nat take].
    rewrite (drop_ge array (Z.to_nat start)) by lia. now rewrite take_nil.
Qed.

Lemma pages_take {A} (array : list A) (size pages : nat) :
  flat_map (fun n => take size (drop ((n - 1) * size) array)) (seq 1 pages)
  = take (pages * size) array.
Proof.
  induction pages as [|pages IH]; [reflexivity|].
  rewrite seq_S, flat_map_app, IH. cbn [flat_map]. rewrite app_nil_r.
  replace (1 + pages - 1) with pages by lia.
  rewrite take_take_drop. f_equal. lia.
Qed.

Lemma filter_flat_map {A B} (f : B -> bool) (g : A -> list B) (l : list A) :
  List.filter f (flat_map g l) = flat_map (fun x => List.filter f (g x)) l.
Proof.
  induction l as [|x l IH]; [reflexivity|].
  cbn [flat_map]. now rewrite List.filter_app, IH.
Qed.

Lemma flat_map_agree {A B} (f g : A -> list B) (l : list A) :
  (forall x, In x l -> f x = g x) -> flat_map f l = flat_map g l.
Proof.
  induction l as [|x l IH]; [reflexivity|]. intros Hfg.
  cbn [flat_map]. rewrite (Hfg x) by now left.
  rewrite IH; [reflexivity|]. intros y Hy. apply Hfg. now right.
Qed.

Lemma filter_length_bound {A} (f : A -> bool) (l : list A) :
  length (List.filter f l) <= length l.
Proof.
  induction l as [|x l IH]; [reflexivity|].
  cbn [List.filter]. destruct (f x); cbn [length]; lia.
Qed.

(** X21.  With a page size above zero, page [n] (from 1 on) shows at most
    [pageSize] rows: the rows of the [n]-th stretch of the ordered data that
    match the search.  The search is applied to that stretch only; over
    enough pages to hold the data, every matching row is shown on exactly
    one page, in order. *)
Theorem pages_cover_the_data (t : Table) (pages : nat) :
  (0 < pageSize t)%Z ->
  let ordered := orderBy (data t) (sortHeader t) (sortDirection t) in
  let shown := fun n : nat => filteredData (applyFilters' (set_page (Z.of_nat n) t)) in
  (Z.of_nat (length ordered) <= Z.of_nat pages * pageSize t)%Z ->
  (forall n, 1 <= n -> (Z.of_nat (length (shown n)) <= pageSize t)%Z)
  /\ (forall n, 1 <= n ->
      shown n
      = List.filter (matchesSearch (columns t) (searchFilter t))
          (take (Z.to_nat (pageSize t))
             (drop ((n - 1) * Z.to_nat (pageSize t)) ordered)))
  /\ flat_map shown (seq 1 pages)
     = List.filter (matchesSearch (columns t) (searchFilter t)) ordered.
Proof.
  intros Hsize. cbv zeta. intros Hpages.
  set (ordered := orderBy (data t) (sortHeader t) (sortDirection t)) in *.
  assert (Hshown : forall n, 1 <= n ->
             filteredData (applyFilters' (set_page (Z.of_nat n) t))
             = List.filter (matchesSearch (columns t) (searchFilter t))
                 (take (Z.to_nat (pageSize t))
                    (drop ((n - 1) * Z.to_nat (pageSize t)) ordered))).
  { intros n Hn. unfold applyFilters.
    cbn [filteredData set_filteredData set_page page pageSize data sortHeader
           sortDirection columns searchFilter].
    fold ordered.
    replace (Z.of_nat n - 1)%Z with (Z.of_nat (n - 1)) by lia.
    rewrite slice_page by (try apply Z.mul_nonneg_nonneg; lia).
    rewrite Z2Nat.inj_mul, Nat2Z.id by lia. reflexivity. }
  split; [|split].
  - intros n Hn. rewrite (Hshown n Hn).
    pose proof (filter_length_bound (matchesSearch (columns t) (searchFilter t))
                  (take (Z.to_nat (pageSize t))
                     (drop ((n - 1) * Z.to_nat (pageSize t)) ordered))) as Hle.
    rewrite length_take in Hle. lia.
  - exact Hshown.
  - rewrite (flat_map_agree _
               (fun n => List.filter (matchesSearch (columns t) (searchFilter t))
                           (take (Z.to_nat (pageSize t))
                              (drop ((n - 1) * Z.to_nat (pageSize t)) ordered)))).
    + rewrite <- filter_flat_map, pages_take. f_equal. apply take_ge. nia.
    + intros n Hn. apply in_seq in Hn. apply Hshown. lia.
Qed.

(** X22.  A click on the header of a sortable column makes it the sort
    column: ascending when it was not, the other direction when it was.
    Every further click on it turns the direction round, so the third click
    gives what the first gave.  With a state id, each click stores the
    column and the direction it leaves.  A click on a column that is not
    sortable changes nothing and stores nothing. *)
Theorem onSortChange_clicks (t : Table) (storage : Storage) (c : DatatableColumn) :
  existsb (String.eqb (getSortProp c)) (sortableColumns t) = true ->
  let first := onSortChange orderBy matchesSearch t storage c in
  let second := onSortChange orderBy matchesSearch (fst first) (snd first) c in
  let third := onSortChange orderBy matchesSearch (fst second) (snd second) c in
  sortHeader (fst first) = Some (getSortProp c)
  /\ sortDirection (fst first)
     = (if bool_decide (Some (getSortProp c) = sortHeader t)
        then opposite (sortDirection t) else ascending)
  /\ sortHeader (fst second) = Some (getSortProp c)
  /\ sortDirection (fst second) = opposite (sortDirection (fst first))
  /\ sortHeader (fst third) = Some (getSortProp c)
  /\ sortDirection (fst third) = sortDirection (fst first)
  /\ (forall id, hasStateId t = Some id ->
      snd first !! stateKey id
      = Some (mkSettings
                (map (fun column => (name column, hidden column))
                   (List.filter (fun column => negb (String.eqb (name column) ""))
                      (columns t)))
                (pageSize t) (Some (getSortProp c))
                (Some (directionName (sortDirection (fst first))))))
  /\ (forall other : DatatableColumn,
      existsb (String.eqb (getSortProp other)) (sortableColumns t) = false ->
      onSortChange orderBy matchesSearch t storage other = (t, storage)).
Proof.
  intros Hsortable. cbv zeta.
  assert (Hstep : forall (u : Table) (s : Storage),
             sortableColumns u = sortableColumns t ->
             sortHeader (fst (onSortChange orderBy matchesSearch u s c))
             = Some (getSortProp c)
             /\ sortDirection (fst (onSortChange orderBy matchesSearch u s c))
                = (if bool_decide (Some (getSortProp c) = sortHeader u)
                   then opposite (sortDirection u) else ascending)
             /\ sortableColumns (fst (onSortChange orderBy matchesSearch u s c))
                = sortableColumns t).
  { intros u s Hu. unfold onSortChange. rewrite Hu, Hsortable. cbn [negb fst].
    destruct (bool_decide (Some (getSortProp c) = sortHeader u)) eqn:Hsame.
    - apply bool_decide_eq_true in Hsame.
      split; [symmetry; exact Hsame|].
      split; [now destruct (sortDirection u) | exact Hu].
    - split; [reflexivity|]. split; [reflexivity | exact Hu]. }
  destruct (Hstep t storage eq_refl) as (H1 & D1 & S1).
  destruct (Hstep _ (snd (onSortChange orderBy matchesSearch t storage c)) S1)
    as (H2 & D2 & S2).
  destruct (Hstep _ (snd (onSortChange orderBy matchesSearch
                            (fst (onSortChange orderBy matchesSearch t storage c))
                            (snd (onSortChange orderBy matchesSearch t storage c)) c)) S2)
    as (H3 & D3 & _).
  rewrite H1, bool_decide_eq_true_2 in D2 by reflexivity.
  rewrite H2, bool_decide_eq_true_2, D2 in D3 by reflexivity.
  split; [exact H1|]. split; [exact D1|]. split; [exact H2|]. split; [exact D2|].
  split; [exact H3|]. split.
  { rewrite D3. now destruct (sortDirection (fst (onSortChange orderBy matchesSearch t storage c))). }
  split.
  - intros id Hid. rewrite D1. unfold onSortChange. rewrite Hsortable. cbn [negb snd].
    unfold saveState.
    destruct (bool_decide (Some (getSortProp c) = sortHeader t)) eqn:Hsame.
    + apply bool_decide_eq_true in Hsame.
      change (hasStateId (set_sortDirection ?d t)) with (hasStateId t).
      rewrite Hid. cbv beta iota zeta. rewrite storage_lookup_insert.
      cbn [columns pageSize sortHeader sortDirection set_sortDirection].
      rewrite <- Hsame. now destruct (sortDirection t).
    + change (hasStateId (set_sortDirection ?d (set_sortHeader ?h t)))
        with (hasStateId t).
      rewrite Hid. cbv beta iota zeta. rewrite storage_lookup_insert. reflexivity.
  - intros other Hother. unfold onSortChange. now rewrite Hother.
Qed.

End DatatablePages.

Section DatatableState.
Import Datatable.

Lemma restoreColumn_skip (configs : list (string * option bool))
      (first : DatatableColumn) (rest : list DatatableColumn) :
  ~ In (name first) (map fst configs) ->
  fold_left restoreColumn configs (first :: rest)
  = first :: fold_left restoreColumn configs rest.
Proof.
  revert rest. induction configs as [|config configs IH]; intros rest Hnot;
    [reflexivity|].
  cbn [fold_left]. cbn [map In] in Hnot.
  assert (Hstep : restoreColumn (first :: rest) config
                  = first :: restoreColumn rest config).
  { unfold restoreColumn. cbn [findIndex].
    destruct (String.eqb_spec (name first) (fst config)) as [Heq|_];
      [exfalso; apply Hnot; now left|].
    destruct (findIndex _ rest); reflexivity. }
  rewrite Hstep. apply IH. tauto.
Qed.

Lemma restore_columns (saved : list DatatableColumn) :
  forall current : list DatatableColumn,
    map name current = map name saved ->
    NoDup (List.filter (fun n => negb (String.eqb n "")) (map name saved)) ->
    fold_left restoreColumn
      (map (fun column => (name column, hidden column))
         (List.filter (fun column => negb (String.eqb (name column) "")) saved))
      current
    = zip_with restoredColumn current saved.
Proof.
  induction saved as [|s saved IH]; intros [|c current] Hnames Hdup;
    try discriminate; [reflexivity|].
  cbn [map] in Hnames. injection Hnames as Hname Hnames.
  cbn [List.filter map zip_with] in *.
  assert (Hconfigs : forall cols : list DatatableColumn,
             map fst (map (fun column => (name column, hidden column))
                        (List.filter (fun column => negb (String.eqb (name column) ""))
                           cols))
             = List.filter (fun n => negb (String.eqb n "")) (map name cols)).
  { induction cols as [|x cols IHc]; [reflexivity|].
    cbn [List.filter map]. cbv beta.
    destruct (negb (String.eqb (name x) "")); cbn [map fst]; now rewrite IHc. }
  unfold restoredColumn at 1.
  destruct (String.eqb_spec (name s) "") as [Hempty|Hnamed]; cbn [negb] in *.
  - rewrite restoreColumn_skip, (IH current Hnames Hdup); [reflexivity|].
    rewrite Hconfigs, Hname, Hempty. intros Hin.
    apply List.filter_In in Hin as [_ Hin]. discriminate.
  - cbn [fold_left map]. apply NoDup_cons in Hdup as [Hfresh Hdup].
    assert (Hfirst : restoreColumn (c :: current) (name s, hidden s)
                     = match hidden s with
                       | Some h => set_hidden (Some h) c
                       | None => c
                       end :: current).
    { unfold restoreColumn. cbn [findIndex fst snd]. rewrite Hname, String.eqb_refl.
      reflexivity. }
    rewrite Hfirst, restoreColumn_skip, (IH current Hnames Hdup); [reflexivity|].
    rewrite Hconfigs. intros Hin. apply Hfresh, list_elem_of_In.
    replace (name s) with (name (match hidden s with
                                 | Some h => set_hidden (Some h) c
                                 | None => c
                                 end)); [exact Hin|].
    rewrite <- Hname. now destruct (hidden s).
Qed.

(** X23.  What [saveState] stores, [restoreState] gives back to a table of
    the same state id whose columns have the same names (the named ones
    pairwise distinct): the page size, the sort direction, the sort column
    when there was one, and for every named column the hidden flag when it
    had one.  Nothing else of the table is touched. *)
Theorem state_round_trip (t current : Table) (storage : Storage) (id : string) :
  hasStateId t = Some id ->
  hasStateId current = Some id ->
  map name (columns current) = map name (columns t) ->
  NoDup (List.filter (fun n => negb (String.eqb n "")) (map name (columns t))) ->
  restoreState current (saveState t storage)
  = set_columns (zip_with restoredColumn (columns current) (columns t))
      (set_sortDirection (sortDirection t)
         (set_sortHeader (from_option Some (sortHeader current) (sortHeader t))
            (set_pageSize (pageSize t) current))).
Proof.
  intros Hid Hcurrent Hnames Hdup.
  unfold restoreState, saveState. rewrite Hid, Hcurrent. cbv beta iota zeta.
  rewrite storage_lookup_insert.
  cbn [settings_pageSize settings_sortHeader settings_sortDirection settings_columns].
  assert (Hdirection : (if String.eqb (directionName (sortDirection t))
                             (directionName descending)
                        then descending else ascending) = sortDirection t)
    by now destruct (sortDirection t).
  rewrite Hdirection.
  destruct (sortHeader t) as [header|];
    cbn [from_option columns set_sortDirection set_sortHeader set_pageSize];
    now rewrite (restore_columns (columns t) (columns current) Hnames Hdup).
Qed.
End DatatableState.

(** ** The datatable: what the selection keeps *)

Section DatatableInvariant.
Import Datatable.
Variable orderBy : list DatatableData -> option string -> SortDirection -> list DatatableData.
Variable matchesSearch : list DatatableColumn -> string -> DatatableData -> bool.
Hypothesis orderBy_permutation :
  forall rows header direction, Permutation (orderBy rows header direction) rows.

Local Abbreviation applyFilters' := (applyFilters orderBy matchesSearch).
Local Abbreviation step := (tableStep orderBy matchesSearch).

Lemma distinctRows_sublist (id : string) (rows part : list DatatableData) :
  part `sublist_of` rows -> distinctRows id rows -> distinctRows id part.
Proof.
  intros Hpart [Hall Hdup]. split.
  - rewrite Forall_forall in *. intros row Hrow. apply Hall.
    eapply elem_of_sublist; eassumption.
  - exact (sublist_NoDup _ _ Hdup (fmap_sublist (fun row => get row id) _ _ Hpart)).
Qed.

Lemma distinctRows_permutation (id : string) (rows other : list DatatableData) :
  Permutation other rows -> distinctRows id rows -> distinctRows id other.
Proof.
  intros Hperm [Hall Hdup]. split.
  - now rewrite Hperm.
  - exact (proj2 (NoDup_Permutation_proper _ _
                    (Permutation_map (fun row => get row id) Hperm)) Hdup).
Qed.

Lemma filter_sublist_of {A} (f : A -> bool) (l : list A) :
  List.filter f l `sublist_of` l.
Proof.
  induction l as [|x l IH]; [constructor|].
  cbn [List.filter]. destruct (f x); now constructor.
Qed.

Lemma slice_sublist {A} (array : list A) (start final : Z) :
  slice array start final `sublist_of` array.
Proof.
  unfold slice. etransitivity; [apply sublist_take | apply sublist_drop].
Qed.

Lemma applyFilters_distinct (t : Table) :
  distinctRows (identifier t) (data t) ->
  distinctRows (identifier t) (filteredData (applyFilters' t)).
Proof.
  intros Hdata. unfold applyFilters. cbn [filteredData set_filteredData].
  eapply distinctRows_sublist; [apply filter_sublist_of|].
  eapply distinctRows_sublist; [apply slice_sublist|].
  eapply distinctRows_permutation; [apply orderBy_permutation | exact Hdata].
Qed.

Lemma refreshed_identifier (t : Table) (s item : DatatableData) :
  refreshed t s = Some item ->
  In item (filteredData t) /\ item !! identifier t = Some (get s (identifier t)).
Proof.
  unfold refreshed, sameIdentifier. intros Hfound.
  apply List.find_some in Hfound as [Hin Hmatch].
  now apply matchesProperty_spec in Hmatch.
Qed.

Lemma refreshed_sublist (t : Table) (items : list DatatableData) :
  map (fun row => get row (identifier t)) (omap (refreshed t) items)
  `sublist_of` map (fun row => get row (identifier t)) items.
Proof.
  induction items as [|s items IH]; [constructor|].
  cbn [omap list_omap map]. destruct (refreshed t s) as [item|] eqn:Hitem.
  - apply refreshed_identifier in Hitem as [_ Hid]. cbn [map].
    unfold get at 1. rewrite Hid. cbn. now constructor.
  - now constructor.
Qed.

(** The selection after [updateSelection], on rows with distinct
    identifiers. *)
Lemma updateSelection_invariant (t : Table) :
  distinctRows (identifier t) (data t) ->
  distinctRows (identifier t) (filteredData t) ->
  NoDup (map (fun row => get row (identifier t)) (selected t)) ->
  selectionInvariant (updateSelection t).
Proof.
  intros Hdata Hshown Hdup. unfold selectionInvariant.
  change (identifier (updateSelection t)) with (identifier t).
  change (data (updateSelection t)) with (data t).
  change (filteredData (updateSelection t)) with (filteredData t).
  rewrite updateSelection_selected.
  assert (Hin : forall row, In row (omap (refreshed t) (selected t)) ->
                            In row (filteredData t)).
  { intros row Hrow. apply list_elem_of_In, list_elem_of_omap in Hrow as (s & _ & Hs).
    now apply refreshed_identifier in Hs as [Hin _]. }
  split; [exact Hdata|]. split; [exact Hshown|]. split; [|split; [exact Hin|]].
  - split.
    + apply Forall_forall. intros row Hrow. destruct Hshown as [Hall _].
      rewrite Forall_forall in Hall. apply Hall, list_elem_of_In, Hin, list_elem_of_In, Hrow.
    + exact (sublist_NoDup _ _ Hdup (refreshed_sublist t (selected t))).
  - unfold updateSelection. rewrite updateSelection_fold. reflexivity.
Qed.

Lemma findIndex_none {A} (predicate : A -> bool) (array : list A) :
  findIndex predicate array = None -> forall x, In x array -> predicate x = false.
Proof.
  induction array as [|y array IH]; [intros _ x []|].
  cbn [findIndex]. destruct (predicate y) eqn:Hy; [discriminate|].
  destruct (findIndex predicate array); [discriminate|].
  intros _ x [<- | Hx]; [exact Hy | now apply IH].
Qed.

Lemma step_keeps_invariant (t t' : Table) :
  step t t' -> selectionInvariant t -> selectionInvariant t'.
Proof.
  intros Hstep (Hdata & Hshown & Hselected & Hin & Hflag).
  destruct Hstep as [t row Hrow|t|t|t rows Hrows|t n|t storage size|t value|t
                    |t storage c|t storage index].
  - (* a click on a row on display *)
    unfold onSelectRow. unfold selectionInvariant.
    destruct (findIndex (sameIdentifier t row) (selected t)) as [i|] eqn:Hfound.
    + cbn [fst identifier data filteredData selected isAllRowsSelected
             updateIsAllRowsSelected set_isAllRowsSelected set_selected].
      split; [exact Hdata|]. split; [exact Hshown|].
      split; [eapply distinctRows_sublist; [apply sublist_delete | exact Hselected]|].
      split; [|reflexivity].
      intros r Hr. apply Hin, list_elem_of_In.
      eapply elem_of_sublist; [apply list_elem_of_In, Hr | apply sublist_delete].
    + assert (Hhas : is_Some (row !! identifier t)).
      { destruct Hshown as [Hall _]. rewrite Forall_forall in Hall.
        apply Hall, list_elem_of_In, Hrow. }
      assert (Hnew : distinctRows (identifier t) (selected t ++ [row])).
      { destruct Hselected as [Hall Hdup]. split.
        - apply Forall_app. split; [exact Hall|]. now apply List.Forall_cons.
        - rewrite map_app. cbn [map]. apply NoDup_app. split; [exact Hdup|].
          split; [|apply NoDup_singleton].
          intros v Hv Hrowv. apply list_elem_of_singleton in Hrowv. subst v.
          apply list_elem_of_In, in_map_iff in Hv as (s & Hs & Hsin).
          pose proof (findIndex_none _ _ Hfound s Hsin) as Hno.
          unfold sameIdentifier in Hno.
          assert (Hyes : matchesProperty (identifier t) (get row (identifier t)) s = true).
          { apply matchesProperty_spec. rewrite Forall_forall in Hall.
            destruct (Hall s (proj2 (list_elem_of_In _ _) Hsin)) as [v Hv].
            unfold get in Hs. rewrite Hv in Hs. cbn in Hs. now rewrite Hv, Hs. }
          congruence. }
      assert (Hone : distinctRows (identifier t) [row]).
      { split; [now apply List.Forall_cons | apply NoDup_singleton]. }
      destruct (selectionType t);
        cbn [fst identifier data filteredData selected isAllRowsSelected
               updateIsAllRowsSelected set_isAllRowsSelected set_selected];
        (split; [exact Hdata|]); (split; [exact Hshown|]).
      * split; [exact Hone|]. split; [|reflexivity]. intros r [<- | []]. exact Hrow.
      * split; [exact Hnew|]. split; [|reflexivity].
        intros r Hr. apply List.in_app_iff in Hr as [Hr | [<- | []]]; auto.
      * split; [exact Hone|]. split; [|reflexivity]. intros r [<- | []]. exact Hrow.
  - (* the header check box *)
    unfold onHeaderSelectRows, selectionInvariant.
    destruct (isAllRowsSelected t);
      cbn [fst identifier data filteredData selected isAllRowsSelected
             updateIsAllRowsSelected set_isAllRowsSelected set_selected];
      (split; [exact Hdata|]); (split; [exact Hshown|]).
    + split; [split; [apply List.Forall_nil | apply NoDup_nil_2]|].
      split; [intros r [] | reflexivity].
    + split; [exact Hshown|]. split; [auto | reflexivity].
  - (* clearSelection *)
    unfold clearSelection, selectionInvariant.
    cbn [fst identifier data filteredData selected isAllRowsSelected
           updateIsAllRowsSelected set_isAllRowsSelected set_selected].
    split; [exact Hdata|]. split; [exact Hshown|].
    split; [split; [apply List.Forall_nil | apply NoDup_nil_2]|].
    split; [intros r [] | reflexivity].
  - (* new data *)
    unfold setData. apply updateSelection_invariant.
    + exact Hrows.
    + apply (applyFilters_distinct (set_data rows t)). exact Hrows.
    + apply Hselected.
  - unfold onPageChange. apply updateSelection_invariant.
    + exact Hdata.
    + apply (applyFilters_distinct (set_page n t)). exact Hdata.
    + apply Hselected.
  - unfold onPageSizeChange. cbn [fst]. apply updateSelection_invariant.
    + exact Hdata.
    + apply (applyFilters_distinct (set_pageSize size t)). exact Hdata.
    + apply Hselected.
  - unfold onSearchFilterChange. apply updateSelection_invariant.
    + exact Hdata.
    + apply (applyFilters_distinct (set_searchFilter value t)). exact Hdata.
    + apply Hselected.
  - unfold clearSearchFilter. apply updateSelection_invariant.
    + exact Hdata.
    + apply (applyFilters_distinct (set_searchFilter "" t)). exact Hdata.
    + apply Hselected.
  - unfold onSortChange.
    destruct (negb (existsb (String.eqb (getSortProp c)) (sortableColumns t)));
      cbn [fst]; [exact (conj Hdata (conj Hshown (conj Hselected (conj Hin Hflag))))|].
    destruct (bool_decide (Some (getSortProp c) = sortHeader t)).
    + apply updateSelection_invariant.
      * exact Hdata.
      * apply (applyFilters_distinct (set_sortDirection _ t)). exact Hdata.
      * apply Hselected.
    + apply updateSelection_invariant.
      * exact Hdata.
      * apply (applyFilters_distinct (set_sortDirection _ (set_sortHeader _ t))).
        exact Hdata.
      * apply Hselected.
  - exact (conj Hdata (conj Hshown (conj Hselected (conj Hin Hflag)))).
Qed.

(** X24.  Take a table whose rows have distinct identifiers (in the data,
    on display and in the selection, the selected rows being rows on
    display).  Whatever the user does next (clicks on rows on display, on
    the header check box or a column header, changes of page, page size
    and search text), and whenever the owner clears the selection or hands
    in new data with distinct identifiers, this stays so, and "all rows
    selected" is set exactly when there are rows on display and every one
    of them is selected. *)
Theorem selection_invariant_kept (t t' : Table) :
  selectionInvariant t ->
  rtc step t t' ->
  selectionInvariant t'
  /\ (isAllRowsSelected t' = true
      <-> filteredData t' <> []
          /\ forall row, In row (filteredData t') -> In row (selected t')).
Proof.
  intros Hinv Hsteps.
  assert (Hkept : selectionInvariant t').
  { induction Hsteps as [|t u t' Hstep _ IH]; [exact Hinv|].
    apply IH. eapply step_keeps_invariant; eassumption. }
  split; [exact Hkept|].
  destruct Hkept as (_ & [_ Hshown] & [_ Hselected] & Hin & ->).
  apply NoDup_fmap_1 in Hshown, Hselected.
  rewrite andb_true_iff, Nat.ltb_lt, Nat.eqb_eq. split.
  - intros [Hsome Hsame]. split.
    + destruct (filteredData t'); [cbn in Hsame; lia | discriminate].
    + assert (Hsub : selected t' ⊆+ filteredData t').
      { apply NoDup_submseteq; [exact Hselected|].
        intros row Hrow. apply list_elem_of_In, Hin, list_elem_of_In, Hrow. }
      pose proof (submseteq_length_Permutation _ _ Hsub) as Hperm.
      intros row Hrow. apply list_elem_of_In. rewrite Hperm by lia.
      apply list_elem_of_In, Hrow.
  - intros [Hsome Hall].
    assert (Hle1 : length (filteredData t') <= length (selected t')).
    { apply submseteq_length, NoDup_submseteq; [exact Hshown|].
      intros row Hrow. apply list_elem_of_In, Hall, list_elem_of_In, Hrow. }
    assert (Hle2 : length (selected t') <= length (filteredData t')).
    { apply submseteq_length, NoDup_submseteq; [exact Hselected|].
      intros row Hrow. apply list_elem_of_In, Hin, list_elem_of_In, Hrow. }
    destruct (filteredData t'); [congruence|]. cbn [length] in *. lia.
Qed.
End DatatableInvariant.

Lemma pages_cover_the_data_witness :
  flat_map
    (fun n : nat =>
       Datatable.filteredData
         (Datatable.applyFilters (fun rows _ _ => rows) (fun _ _ _ => true)
            (Datatable.set_page (Z.of_nat n)
               (Datatable.mkTable [] 2 None Datatable.ascending "id" Datatable.multi
                  None [] 1 false "" []
                  [ {[ "id" := Datatable.PStr "a" ]}; {[ "id" := Datatable.PStr "b" ]};
                    {[ "id" := Datatable.PStr "c" ]} ] []))))
    (seq 1 2)
  = [ {[ "id" := Datatable.PStr "a" ]}; {[ "id" := Datatable.PStr "b" ]};
      {[ "id" := Datatable.PStr "c" ]} ].
Proof.
  apply (pages_cover_the_data (fun rows _ _ => rows) (fun _ _ _ => true)
           (Datatable.mkTable [] 2 None Datatable.ascending "id" Datatable.multi
              None [] 1 false "" []
              [ {[ "id" := Datatable.PStr "a" ]}; {[ "id" := Datatable.PStr "b" ]};
                {[ "id" := Datatable.PStr "c" ]} ] [])
           2);
    [reflexivity | cbn; lia].
Defined.

Lemma onSortChange_clicks_witness :
  Datatable.sortDirection
    (fst (Datatable.onSortChange (fun rows _ _ => rows) (fun _ _ _ => true)
            (Datatable.mkTable
               [Datatable.mkColumn "Name" "name" None None (Some true) None]
               25 (Some "name") Datatable.ascending "id" Datatable.multi
               (Some "buckets") [] 1 false "" [] [] ["name"])
            ∅
            (Datatable.mkColumn "Name" "name" None None (Some true) None)))
  = Datatable.descending.
Proof.
  apply (onSortChange_clicks (fun rows _ _ => rows) (fun _ _ _ => true)
           (Datatable.mkTable
              [Datatable.mkColumn "Name" "name" None None (Some true) None]
              25 (Some "name") Datatable.ascending "id" Datatable.multi
              (Some "buckets") [] 1 false "" [] [] ["name"])
           ∅
           (Datatable.mkColumn "Name" "name" None None (Some true) None)).
  reflexivity.
Defined.

Lemma state_round_trip_witness :
  Datatable.columns
    (Datatable.restoreState
       (Datatable.mkTable
          [Datatable.mkColumn "" "" None None None (Some "rowSelect");
           Datatable.mkColumn "Name" "name" None (Some false) (Some true) None]
          25 None Datatable.ascending "id" Datatable.multi (Some "buckets")
          [] 1 false "" [] [] ["name"])
       (Datatable.saveState
          (Datatable.mkTable
             [Datatable.mkColumn "" "" None None None (Some "rowSelect");
              Datatable.mkColumn "Name" "name" None (Some true) (Some true) None]
             50 (Some "name") Datatable.descending "id" Datatable.multi
             (Some "buckets") [] 1 false "" [] [] ["name"])
          ∅))
  = [Datatable.mkColumn "" "" None None None (Some "rowSelect");
     Datatable.mkColumn "Name" "name" None (Some true) (Some true) None].
Proof.
  rewrite (state_round_trip
             (Datatable.mkTable
                [Datatable.mkColumn "" "" None None None (Some "rowSelect");
                 Datatable.mkColumn "Name" "name" None (Some true) (Some true) None]
                50 (Some "name") Datatable.descending "id" Datatable.multi
                (Some "buckets") [] 1 false "" [] [] ["name"])
             (Datatable.mkTable
                [Datatable.mkColumn "" "" None None None (Some "rowSelect");
                 Datatable.mkColumn "Name" "name" None (Some false) (Some true) None]
                25 None Datatable.ascending "id" Datatable.multi (Some "buckets")
                [] 1 false "" [] [] ["name"])
             ∅ "buckets");
    [reflexivity | reflexivity | reflexivity | reflexivity
    | cbn; apply NoDup_singleton].
Defined.

Lemma selection_invariant_kept_witness :
  Datatable.isAllRowsSelected
    (fst (Datatable.onHeaderSelectRows
            (Datatable.setData (fun rows _ _ => rows) (fun _ _ _ => true)
               (Datatable.mkTable [] 25 None Datatable.ascending "id" Datatable.multi
                  None [] 1 false "" [] [] [])
               [ {[ "id" := Datatable.PStr "a" ]}; {[ "id" := Datatable.PStr "b" ]} ])))
  = true
  <-> Datatable.filteredData
        (fst (Datatable.onHeaderSelectRows
                (Datatable.setData (fun rows _ _ => rows) (fun _ _ _ => true)
                   (Datatable.mkTable [] 25 None Datatable.ascending "id"
                      Datatable.multi None [] 1 false "" [] [] [])
                   [ {[ "id" := Datatable.PStr "a" ]};
                     {[ "id" := Datatable.PStr "b" ]} ]))) <> []
      /\ forall row,
        In row
           (Datatable.filteredData
              (fst (Datatable.onHeaderSelectRows
                      (Datatable.setData (fun rows _ _ => rows) (fun _ _ _ => true)
                         (Datatable.mkTable [] 25 None Datatable.ascending "id"
                            Datatable.multi None [] 1 false "" [] [] [])
                         [ {[ "id" := Datatable.PStr "a" ]};
                           {[ "id" := Datatable.PStr "b" ]} ])))) ->
        In row
           (Datatable.selected
              (fst (Datatable.onHeaderSelectRows
                      (Datatable.setData (fun rows _ _ => rows) (fun _ _ _ => true)
                         (Datatable.mkTable [] 25 None Datatable.ascending "id"
                            Datatable.multi None [] 1 false "" [] [] [])
                         [ {[ "id" := Datatable.PStr "a" ]};
                           {[ "id" := Datatable.PStr "b" ]} ])))).
Proof.
  apply (selection_invariant_kept (fun rows _ _ => rows) (fun _ _ _ => true)
           (fun rows _ _ => Permutation_refl rows)
           (Datatable.mkTable [] 25 None Datatable.ascending "id" Datatable.multi
              None [] 1 false "" [] [] [])).
  - repeat split; try apply List.Forall_nil; try apply NoDup_nil_2. intros row [].
  - eapply rtc_l; [|apply rtc_once, step_onHeaderSelectRows].
    apply step_setData. split.
    + repeat apply List.Forall_cons; try apply List.Forall_nil;
        eexists; vm_compute; reflexivity.
    + apply NoDup_cons_2; [|apply NoDup_singleton].
      intros H. apply list_elem_of_singleton in H. discriminate.
Defined.
